(** * MatFW_001 RF matching-network controller: a shallow embedding of the
    firmware core and the properties established about it.

    The development follows the layout of the sources:

    - [Int]      : the 32-bit integer arithmetic of the target (two's
                   complement, wrap-around written out over [Z]);
    - [F32]      : IEEE-754 binary32 ([float] of the sources), computed with
                   the specification-level floats of the standard library;
    - [F64]      : IEEE-754 binary64 ([double] of the sources), the kernel's
                   primitive floats;
    - [MotionBoard]       : MotionBoard.hpp (MotorController, FRAM settings);
    - [MatchingAlgorithm] : MatchingAlgorithm.hpp;
    - [RFSensor]          : RFSensor.hpp (averaged impedance);
    - [DebugMode]         : DebugMode.hpp (the AMS block of handleStreaming and
                            the ams command).

    Definitions come first, the theorems follow. *)

From Stdlib Require Import ZArith List Bool Lia String.
From Stdlib Require Import Floats.
Import ListNotations.

#[local] Set Warnings "-inexact-float".
#[local] Open Scope Z_scope.

(* ------------------------------------------------------------------------- *)
(** ** 32-bit integers *)

Module Int.

(** [int32_t]/[int] : value of a mathematical integer after it is stored in
    a signed 32-bit word (two's complement wrap-around). *)
Definition wrap32 (z : Z) : Z := (z + 2 ^ 31) mod 2 ^ 32 - 2 ^ 31.

(** [(u32) x] and [unsigned long] arithmetic (32 bits wide on the ARM
    target of the firmware). *)
Definition to_u32 (z : Z) : Z := z mod 2 ^ 32.

Definition INT32_MIN : Z := - 2 ^ 31.
Definition INT32_MAX : Z := 2 ^ 31 - 1.

Definition in_int32 (z : Z) : Prop := INT32_MIN <= z <= INT32_MAX.

End Int.

(* ------------------------------------------------------------------------- *)
(** ** binary32 *)

Declare Scope f32_scope.
Delimit Scope f32_scope with f32.

Module F32.

Definition prec : Z := 24.
Definition emax : Z := 128.

(** A [float] of the sources: a specification float kept in binary32 form.
    Every operation rounds its exact result to binary32 (round to nearest,
    ties to even); no intermediate is kept in a wider format and no
    multiply-add is fused, as on the VFP unit of the target. *)
Definition f32 : Type := spec_float.

(** Rounding of an arbitrary finite binary value to binary32
    (round to nearest, ties to even). *)
Definition round (x : spec_float) : f32 :=
  match x with
  | S754_finite s m e => binary_round prec emax s m e
  | _ => x
  end.

Definition add : f32 -> f32 -> f32 := SFadd prec emax.
Definition sub : f32 -> f32 -> f32 := SFsub prec emax.
Definition mul : f32 -> f32 -> f32 := SFmul prec emax.
Definition div : f32 -> f32 -> f32 := SFdiv prec emax.
Definition opp : f32 -> f32 := SFopp.
Definition fabsf : f32 -> f32 := SFabs.

Definition eqb : f32 -> f32 -> bool := SFeqb.
Definition ltb : f32 -> f32 -> bool := SFltb.
Definition leb : f32 -> f32 -> bool := SFleb.
(** The C comparisons [a > b], [a >= b], [a != b]. *)
Definition gtb (a b : f32) : bool := SFltb b a.
Definition geb (a b : f32) : bool := SFleb b a.
Definition neb (a b : f32) : bool := negb (SFeqb a b).

(** [(float) n] for an integer [n]. *)
Definition of_int (z : Z) : f32 := binary_normalize prec emax z 0 false.

(** [(float) d] for a double [d], and a literal [x.yf]. *)
Definition of_double (d : float) : f32 := round (Prim2SF d).

(** [(double) x]: every binary32 value is a binary64 value. *)
Definition to_double (x : f32) : float := SF2Prim x.

(** Integer part of a float, rounding toward zero; [None] for NaN and the
    infinities. *)
Definition trunc (x : spec_float) : option Z :=
  match x with
  | S754_zero _ => Some 0
  | S754_finite s m e =>
      let a := match e with
               | Zneg p => Z.pos m / 2 ^ (Z.pos p)
               | _ => Z.pos m * 2 ^ e
               end in
      Some (if s then - a else a)
  | S754_infinity _ => None
  | S754_nan => None
  end.

(** [(int32_t) x].  In range the conversion truncates toward zero.  Out of
    range C++ leaves it undefined; the target's conversion instruction
    (VCVT) saturates and turns NaN into 0, which is what is written here. *)
Definition sat_int32 (x : spec_float) : Z :=
  match x with
  | S754_nan => 0
  | S754_infinity s => if s then Int.INT32_MIN else Int.INT32_MAX
  | _ =>
      match trunc x with
      | Some z => Z.max Int.INT32_MIN (Z.min Int.INT32_MAX z)
      | None => 0
      end
  end.

Definition to_int32 (x : f32) : Z := sat_int32 x.

Definition is_nan (x : f32) : bool :=
  match x with S754_nan => true | _ => false end.

Definition is_finite (x : f32) : bool :=
  match x with
  | S754_zero _ => true
  | S754_finite _ _ _ => true
  | _ => false
  end.

Definition zero : f32 := S754_zero false.

End F32.

Abbreviation f32 := F32.f32.
Infix "+" := F32.add : f32_scope.
Infix "-" := F32.sub : f32_scope.
Infix "*" := F32.mul : f32_scope.
Infix "/" := F32.div : f32_scope.
Notation "- x" := (F32.opp x) : f32_scope.
Infix "<?" := F32.ltb (at level 70, no associativity) : f32_scope.
Infix "<=?" := F32.leb (at level 70, no associativity) : f32_scope.
Infix ">?" := F32.gtb (at level 70, no associativity) : f32_scope.
Infix ">=?" := F32.geb (at level 70, no associativity) : f32_scope.
Infix "!=?" := F32.neb (at level 70, no associativity) : f32_scope.

(** Float literals of the sources ([0.1f], [100.0f], ...): the decimal is
    read as a binary64 literal and rounded to binary32. *)
Definition flt (d : float) : f32 := F32.of_double d.

(* ------------------------------------------------------------------------- *)
(** ** binary64 *)

Module F64.

Definition fabs : float -> float := PrimFloat.abs.

(** The C comparisons [a > b], [a >= b], [a != b]. *)
Definition gtb (a b : float) : bool := PrimFloat.ltb b a.
Definition geb (a b : float) : bool := PrimFloat.leb b a.
Definition neb (a b : float) : bool := negb (PrimFloat.eqb a b).

(** [(double) n] for a 32-bit integer [n] (exact). *)
Definition of_int (z : Z) : float :=
  SF2Prim (binary_normalize FloatOps.prec FloatOps.emax z 0 false).

(** [(int32_t) d], as for binary32. *)
Definition to_int32 (d : float) : Z := F32.sat_int32 (Prim2SF d).

End F64.

Infix ">?" := F64.gtb (at level 70, no associativity) : float_scope.
Infix ">=?" := F64.geb (at level 70, no associativity) : float_scope.
Infix "!=?" := F64.neb (at level 70, no associativity) : float_scope.

(* ------------------------------------------------------------------------- *)
(** ** Serial output and memory-mapped stores

    The firmware talks to the host through [xil_printf] and to the fabric
    through volatile stores.  Both are recorded as a trace of effects, in
    program order. *)

Inductive Arg : Type :=
| AInt (z : Z)
| AStr (s : string).

Inductive Effect : Type :=
| Printf (fmt : string) (args : list Arg)   (* xil_printf / WebTerminal::print *)
| PrintFloat (x : f32)                      (* WebTerminal::printFloat *)
| SendAck (cmd status : string)             (* WebTerminal::sendAck: ACK,cmd,status,EN *)
| SendImpedance (R X V I phaseDeg : f32) (isInput : bool)
| SendVIMag (vMag iMag : f32) (isInput : bool)
| SendMotorPositionBoth (pos0 percent0 cap0 pos1 percent1 cap1 : Z)
| Sample (isInput : bool)                   (* a call of calculateAveragedImpedance(-1) *)
| GpioStore (base : Z) (word : Z) (value : Z) (* gpio[word] = value *)
| Usleep (us : Z).

Definition XST_SUCCESS : Z := 0.
Definition XST_FAILURE : Z := 1.

(* ------------------------------------------------------------------------- *)
(** ** MotionBoard.hpp *)

Module MotionBoard.

Import Int.

(** [class MotorController]: the configuration fields, the two GPIO blocks
    and the words of the input block as the fabric currently presents
    them ([NOW_POS] is [gpioIn[0]], [NOW_RPM] is [gpioIn[2]]). *)
Record MotorController : Type := {
  gpioOutBase : Z;
  gpioInBase : Z;
  gpioInitialized : bool;
  posOffset : Z;
  minValue : Z;
  maxValue : Z;
  lowerLimit : Z;
  upperLimit : Z;
  minCap : Z;
  maxCap : Z;
  fitCoeffs : list f32;      (* float fitCoeffs[4] = [a0, a1, a2, a3] *)
  NOW_POS : Z;
  NOW_RPM : Z
}.

(** [fitCoeffs[i]] *)
Definition coeff (m : MotorController) (i : nat) : f32 :=
  nth i (fitCoeffs m) F32.zero.

Definition readPosRaw (m : MotorController) : Z :=
  if negb (gpioInitialized m) || (gpioInBase m =? 0) then 0
  else NOW_POS m.

Definition readPos (m : MotorController) : Z :=
  wrap32 (wrap32 (readPosRaw m) + posOffset m).

Definition readRpm (m : MotorController) : Z :=
  if negb (gpioInitialized m) || (gpioInBase m =? 0) then 0
  else NOW_RPM m.

(** [(u32)Pos] and [(u32)RPM] through [Field::operator u32]. *)
Definition Pos (m : MotorController) : Z := to_u32 (readPos m).
Definition RPM (m : MotorController) : Z := readRpm m.

Definition getPositionPercent (m : MotorController) : Z :=
  if maxValue m <=? minValue m then 0
  else
    let pos := readPos m in
    let percent :=
      wrap32 (Z.quot (wrap32 (wrap32 (pos - minValue m) * 100))
                     (wrap32 (maxValue m - minValue m))) in
    if percent <? 0 then 0 else if percent >? 100 then 100 else percent.

Definition isFittingCalibrated (m : MotorController) : bool :=
  (coeff m 0 !=? flt 0.0)%f32 || (coeff m 1 !=? flt 0.0)%f32 ||
  (coeff m 2 !=? flt 0.0)%f32 || (coeff m 3 !=? flt 0.0)%f32.

(** The normalised cubic [a3*x^3 + a2*x^2 + a1*x + a0], in the order the
    source evaluates it. *)
Definition cubic (m : MotorController) (xNorm : f32) : f32 :=
  (coeff m 3 * xNorm * xNorm * xNorm +
   coeff m 2 * xNorm * xNorm +
   coeff m 1 * xNorm +
   coeff m 0)%f32.

(** Its derivative [3*a3*x^2 + 2*a2*x + a1], as the Newton iteration
    evaluates it. *)
Definition cubicDeriv (m : MotorController) (xNorm : f32) : f32 :=
  (flt 3.0 * coeff m 3 * xNorm * xNorm +
   flt 2.0 * coeff m 2 * xNorm +
   coeff m 1)%f32.

Definition getCapacitanceAt (m : MotorController) (pos : Z) : Z :=
  let xRange := F32.of_int (wrap32 (maxValue m - minValue m)) in
  if isFittingCalibrated m && (xRange >? flt 0.0)%f32 then
    let xNorm := ((F32.of_int pos - F32.of_int (minValue m)) / xRange)%f32 in
    let cap := cubic m xNorm in
    F32.to_int32 (cap * flt 100.0)%f32
  else if maxValue m <=? minValue m then minCap m
  else
    (* int64_t locals, each initialised from an int32 expression *)
    let range := wrap32 (maxCap m - minCap m) in
    let posRange := wrap32 (maxValue m - minValue m) in
    let posOffset := wrap32 (pos - minValue m) in
    let posOffset := if posOffset <? 0 then 0 else posOffset in
    let posOffset := if posOffset >? posRange then posRange else posOffset in
    wrap32 (minCap m + wrap32 (Z.quot (range * posOffset) posRange)).

Definition getCapacitance (m : MotorController) : Z :=
  getCapacitanceAt m (readPos m).

(** One pass of the Newton-Raphson loop body; [None] when the body leaves
    the loop through one of its two [break]s. *)
Definition newtonStep (m : MotorController) (targetCapPf xNormLower xNormUpper : f32)
           (xNorm : f32) : option f32 :=
  let fx := (cubic m xNorm - targetCapPf)%f32 in
  let fpx := cubicDeriv m xNorm in
  if (F32.fabsf fx <? flt 0.1)%f32 then None
  else if (F32.fabsf fpx <? flt 1e-10)%f32 then None
  else
    let xNorm := (xNorm - fx / fpx)%f32 in
    let xNorm := if (xNorm <? xNormLower)%f32 then xNormLower else xNorm in
    let xNorm := if (xNorm >? xNormUpper)%f32 then xNormUpper else xNorm in
    Some xNorm.

(** [for (int i = 0; i < maxIterations; i++) { ... }] with [iters]
    iterations left. *)
Fixpoint newtonLoop (m : MotorController) (targetCapPf xNormLower xNormUpper : f32)
         (iters : nat) (xNorm : f32) : f32 :=
  match iters with
  | O => xNorm
  | S iters' =>
      match newtonStep m targetCapPf xNormLower xNormUpper xNorm with
      | None => xNorm
      | Some xNorm' => newtonLoop m targetCapPf xNormLower xNormUpper iters' xNorm'
      end
  end.

(** Whether the loop is left through a [break] within [iters] passes
    (rather than by running out of iterations). *)
Fixpoint newtonBreak (m : MotorController) (targetCapPf xNormLower xNormUpper : f32)
         (iters : nat) (xNorm : f32) : bool :=
  match iters with
  | O => false
  | S iters' =>
      match newtonStep m targetCapPf xNormLower xNormUpper xNorm with
      | None => true
      | Some xNorm' => newtonBreak m targetCapPf xNormLower xNormUpper iters' xNorm'
      end
  end.

Definition maxIterations : nat := 20.

Definition getPositionFromCap (m : MotorController) (targetCap : Z) : Z :=
  let targetCapPf := (F32.of_int targetCap / flt 100.0)%f32 in
  let xRange := F32.of_int (wrap32 (maxValue m - minValue m)) in
  if isFittingCalibrated m && (xRange >? flt 0.0)%f32 then
    let xNormLower := ((F32.of_int (lowerLimit m) - F32.of_int (minValue m)) / xRange)%f32 in
    let xNormUpper := ((F32.of_int (upperLimit m) - F32.of_int (minValue m)) / xRange)%f32 in
    let xNorm := ((xNormLower + xNormUpper) / flt 2.0)%f32 in
    let xNorm := newtonLoop m targetCapPf xNormLower xNormUpper maxIterations xNorm in
    let step := (xNorm * xRange + F32.of_int (minValue m))%f32 in
    F32.to_int32 (step + flt 0.5)%f32
  else if maxCap m <=? minCap m then minValue m
  else
    let posRange := wrap32 (maxValue m - minValue m) in
    let capRange := wrap32 (maxCap m - minCap m) in
    let capOffset := wrap32 (targetCap - minCap m) in
    let capOffset := if capOffset <? 0 then 0 else capOffset in
    let capOffset := if capOffset >? capRange then capRange else capOffset in
    wrap32 (minValue m + wrap32 (Z.quot (posRange * capOffset) capRange)).

(** [MotorController::RunMotor]: status and the effects, in order.  The
    store to [gpioOut[0]] is the write of the target-position register. *)
Definition RunMotor (m : MotorController) (targetPosition : Z)
           (printStatus : bool) (afterDelayMs : Z) : Z * list Effect :=
  if negb (gpioInitialized m) || (gpioOutBase m =? 0) then (XST_FAILURE, [])
  else
    let '(clampedPosition, wasClamped) :=
      if targetPosition <? lowerLimit m then (lowerLimit m, true)
      else if targetPosition >? upperLimit m then (upperLimit m, true)
      else (targetPosition, false) in
    let tarPosValue := to_u32 clampedPosition in
    (XST_SUCCESS,
     (if wasClamped
      then [Printf "[MOTOR] Target %d clamped to %d (limits: %d~%d)"
              [AInt targetPosition; AInt clampedPosition;
               AInt (lowerLimit m); AInt (upperLimit m)]]
      else []) ++
     (if printStatus
      then [Printf "Before: Pos=%u RPM=%u" [AInt (Pos m); AInt (RPM m)]]
      else []) ++
     [GpioStore (gpioOutBase m) 0 tarPosValue] ++
     (if printStatus
      then [Usleep (if afterDelayMs >? 0 then to_u32 (afterDelayMs * 1000) else 100);
            Printf "After:  Pos=%u RPM=%u" [AInt (Pos m); AInt (RPM m)]]
      else [])).

(** The target-position words a trace stores into the output block at
    [base]. *)
Fixpoint tarPosWrites (base : Z) (tr : list Effect) : list Z :=
  match tr with
  | [] => []
  | GpioStore b 0 v :: tr' =>
      if b =? base then v :: tarPosWrites base tr' else tarPosWrites base tr'
  | _ :: tr' => tarPosWrites base tr'
  end.

(** The motor as the constructor leaves it, with its GPIO blocks mapped. *)
Definition defaultMotor (outBase inBase : Z) : MotorController := {|
  gpioOutBase := outBase;
  gpioInBase := inBase;
  gpioInitialized := true;
  posOffset := 0;
  minValue := 0;
  maxValue := 64000;
  lowerLimit := 4000;
  upperLimit := 60000;
  minCap := 0;
  maxCap := 100000;
  fitCoeffs := [flt 0.0; flt 0.0; flt 0.0; flt 0.0];
  NOW_POS := 0;
  NOW_RPM := 0
|}.

Definition withFit (m : MotorController) (a0 a1 a2 a3 : f32) : MotorController := {|
  gpioOutBase := gpioOutBase m;
  gpioInBase := gpioInBase m;
  gpioInitialized := gpioInitialized m;
  posOffset := posOffset m;
  minValue := minValue m;
  maxValue := maxValue m;
  lowerLimit := lowerLimit m;
  upperLimit := upperLimit m;
  minCap := minCap m;
  maxCap := maxCap m;
  fitCoeffs := [a0; a1; a2; a3];
  NOW_POS := NOW_POS m;
  NOW_RPM := NOW_RPM m
|}.

(** *** Persisted settings (struct MatcherInfo, the VSWR thresholds and the
    AMS settings) *)

Record MatcherInfo : Type := {
  vswrStart : f32;
  vswrStop : f32;
  vswrRestart : f32;
  amsInterval : Z;
  amsTimeout : Z;
  amsLogInterval : Z
}.

(** [MotionBoard::loadVswrSettings].  [ret] and [settings] are what
    [framRead] returned and left in the local array [float settings[3]]. *)
Definition loadVswrSettings (ret : Z) (settings : nat -> f32) (mi : MatcherInfo)
  : Z * MatcherInfo * list Effect :=
  let '(start, stop, restart, tr) :=
    if negb (ret =? 0) then
      (flt 1.04, flt 1.02, flt 1.04,
       [Printf "[LOAD] VSWR Settings: FRAM read failed, using defaults" []])
    else
      let start := if (settings 0%nat >=? flt 1.0)%f32 && (settings 0%nat <=? flt 10.0)%f32
                   then settings 0%nat else flt 1.04 in
      let stop := if (settings 1%nat >=? flt 1.0)%f32 && (settings 1%nat <=? flt 5.0)%f32
                  then settings 1%nat else flt 1.02 in
      let restart := if (settings 2%nat >=? flt 1.0)%f32 && (settings 2%nat <=? flt 10.0)%f32
                     then settings 2%nat else flt 1.04 in
      (start, stop, restart,
       [Printf "[LOAD] VSWR Settings: start=" []; PrintFloat start;
        Printf ", stop=" []; PrintFloat stop;
        Printf ", restart=" []; PrintFloat restart; Printf "" []]) in
  (ret,
   {| vswrStart := start; vswrStop := stop; vswrRestart := restart;
      amsInterval := amsInterval mi; amsTimeout := amsTimeout mi;
      amsLogInterval := amsLogInterval mi |},
   tr ++ [Printf "VSW," []; PrintFloat start; Printf "," []; PrintFloat stop;
          Printf "," []; PrintFloat restart; Printf ",EN" []; Usleep 50000]).

(** [MotionBoard::loadAmsSettings], with [int32_t settings[3]]. *)
Definition loadAmsSettings (ret : Z) (settings : nat -> Z) (mi : MatcherInfo)
  : Z * MatcherInfo * list Effect :=
  let '(interval, timeout, logInterval, tr) :=
    if negb (ret =? 0) then
      (10, 0, 10,
       [Printf "[LOAD] AMS Settings: FRAM read failed, using defaults" []])
    else
      let interval := if (settings 0%nat >=? 1) && (settings 0%nat <=? 1000)
                      then settings 0%nat else 10 in
      let timeout := if (settings 0%nat >=? 0) && (settings 1%nat <=? 60000)
                     then settings 1%nat else 0 in
      let logInterval := if (settings 2%nat >=? 1) && (settings 2%nat <=? 1000)
                         then settings 2%nat else 10 in
      (interval, timeout, logInterval,
       [Printf "[LOAD] AMS Settings: interval=%d, timeout=%d, logInterval=%d"
          [AInt interval; AInt timeout; AInt logInterval]]) in
  (ret,
   {| vswrStart := vswrStart mi; vswrStop := vswrStop mi;
      vswrRestart := vswrRestart mi;
      amsInterval := interval; amsTimeout := timeout;
      amsLogInterval := logInterval |},
   tr ++ [Printf "AST,%d,%d,%d,EN" [AInt interval; AInt timeout; AInt logInterval];
          Usleep 50000]).

(** The accepted interval of each persisted field, in the words of the
    specification (and of the usage text of the asv and ass commands):
    start and restart in [1, 10], stop in [1, 5]; interval and log interval
    in [1, 1000], timeout in [0, 60000]. *)
Definition spec_vswrStart_ok (x : f32) : bool := (flt 1.0 <=? x)%f32 && (x <=? flt 10.0)%f32.
Definition spec_vswrStop_ok (x : f32) : bool := (flt 1.0 <=? x)%f32 && (x <=? flt 5.0)%f32.
Definition spec_vswrRestart_ok (x : f32) : bool := (flt 1.0 <=? x)%f32 && (x <=? flt 10.0)%f32.
Definition spec_amsInterval_ok (x : Z) : bool := (1 <=? x) && (x <=? 1000).
Definition spec_amsTimeout_ok (x : Z) : bool := (0 <=? x) && (x <=? 60000).
Definition spec_amsLogInterval_ok (x : Z) : bool := (1 <=? x) && (x <=? 1000).

(** The settings the constructor of [MotionBoard] sets. *)
Definition defaultMatcherInfo : MatcherInfo := {|
  vswrStart := flt 1.04;
  vswrStop := flt 1.02;
  vswrRestart := flt 1.04;
  amsInterval := 10;
  amsTimeout := 0;
  amsLogInterval := 10
|}.

(** [class MotionBoard]: the two motors and the persisted settings. *)
Record Board : Type := {
  M1 : MotorController;
  M2 : MotorController;
  matcherInfo : MatcherInfo
}.

End MotionBoard.

(* ------------------------------------------------------------------------- *)
(** ** MatchingAlgorithm.hpp *)

Module MatchingConst.

#[local] Open Scope float_scope.

Definition nH : float := 1.0e-9.
Definition pF : float := 1.0e-12.
Definition uH : float := 1.0e-6.

Definition FREQ : float := 13.56e6.
Definition PI : float := 3.14159265358979323846.
Definition OMEGA : float := 2.0 * PI * FREQ.

Definition Lp : float := 36.0 * nH.
Definition Cp : float := 15.3 * pF.

Definition LB0 : float := 157.0 * nH.
Definition RB0 : float := 0.2.
Definition CB0 : float := 1.9 * pF.

Definition RC0 : float := 0.2.
Definition LC0 : float := 1.03 * uH.
Definition CC0 : float := 2.0 * pF.
Definition CC1 : float := 1.5 * pF.

Definition CD0 : float := 31.0 * pF.

Definition RE0 : float := 0.2.
Definition LE0 : float := 15.0 * nH.

Definition Z_TARGET : float := 50.0.

End MatchingConst.

(** [calculateVSWR(R, X, Z0)]; the sources always call it with the default
    [Z0 = 50.0]. *)
Definition calculateVSWR_Z0 (R X Z0 : float) : float :=
  let denom := ((R + Z0) * (R + Z0) + X * X)%float in
  let numer := ((R - Z0) * (R - Z0) + X * X)%float in
  if (denom <? 1e-12)%float then 999.0%float
  else
    let gamma := PrimFloat.sqrt (numer / denom) in
    if (gamma >=? 1.0)%float then 999.0%float
    else ((1.0 + gamma) / (1.0 - gamma))%float.

Definition calculateVSWR (R X : float) : float := calculateVSWR_Z0 R X 50.0%float.

Module ImpedancePoints.
Record t : Type := {
  RA : float; XA : float;
  RB : float; XB : float;
  RC : float; XC : float;
  RD : float; XD : float;
  RE : float; XE : float;
  Rp : float; Xp : float
}.
End ImpedancePoints.

Module ZCFromOutput.
Record t : Type := { RC : float; XC : float }.
End ZCFromOutput.

Record MatchingGoals : Type := {
  VVC0Goal0 : float;
  VVC1Goal0 : float;
  step0Goal0 : Z;
  step1Goal0 : Z;
  valid0 : bool;
  VVC0Goal1 : float;
  VVC1Goal1 : float;
  step0Goal1 : Z;
  step1Goal1 : Z;
  valid1 : bool;
  RAGoal : float; XAGoal : float;
  XBGoal0 : float; XBGoal1 : float;
  XDGoal0 : float; XDGoal1 : float;
  RC_calculated : float;
  XC_calculated : float;
  XD_calculated : float
}.

Module MatchingAlgorithm.

Import MatchingConst.
Import MotionBoard.
#[local] Open Scope float_scope.

(** *** The constructor: every circuit-constant expression, once. *)

Definition w_ : float := OMEGA.
Definition w2_ : float := w_ * w_.
Definition w3_ : float := w2_ * w_.
Definition w4_ : float := w2_ * w2_.
Definition w5_ : float := w4_ * w_.
Definition w6_ : float := w3_ * w3_.

Definition Lp2 : float := Lp * Lp.
Definition Cp2 : float := Cp * Cp.
Definition CpLpW2 : float := Cp * Lp * w2_.
Definition Cp2W2 : float := Cp2 * w2_.
Definition Cp2Lp2W4 : float := Cp2 * Lp2 * w4_.

Definition denom_A_const_ : float := 1.0 - 2.0 * CpLpW2 + Cp2Lp2W4.
Definition denom_A_Rm2_ : float := Cp2W2.
Definition denom_A_Xm_ : float := 2.0 * Cp * w_ - 2.0 * Cp2 * Lp * w3_.
Definition denom_A_Xm2_ : float := Cp2W2.

Definition XA_const_ : float := - Lp * w_ + Cp * Lp2 * w3_.
Definition XA_Rm2_ : float := Cp * w_.
Definition XA_Xm_ : float := 1.0 - 2.0 * Cp * Lp * w2_.
Definition XA_Xm2_ : float := Cp * w_.

Definition LB02 : float := LB0 * LB0.
Definition CB02 : float := CB0 * CB0.
Definition RB02 : float := RB0 * RB0.
Definition CB0LB0W2 : float := CB0 * LB0 * w2_.
Definition CB02W2_RB02_LB02W2 : float := CB02 * w2_ * (RB02 + LB02 * w2_).
Definition denomB_const_ : float := 1.0 - 2.0 * CB0LB0W2 + CB02W2_RB02_LB02W2.

Definition RB_const_ : float := RB0 / denomB_const_.

Definition XB_numer_const_ : float := 1.0 + CB02W2_RB02_LB02W2 - 2.0 * CB0 * LB0 * w2_.
Definition XB_numer_VVC0_ : float := - LB0 * w2_ + CB0 * RB02 * w2_ + CB0 * LB02 * w4_.
Definition XB_denom_factor_ : float := w_ * denomB_const_.

Definition E_CD0_ : float := CD0.
Definition E_CD02_ : float := CD0 * CD0.
Definition E_2CD0_ : float := 2.0 * CD0.
Definition E_CD0_w_ : float := CD0 * w_.
Definition E_2CD0_w_ : float := 2.0 * CD0 * w_.
Definition E_CD02_w_ : float := E_CD02_ * w_.
Definition E_2CD02_w_ : float := 2.0 * E_CD02_ * w_.
Definition E_CD02_w2_ : float := E_CD02_ * w2_.

Definition RE0_ : float := RE0.
Definition LE0_w_ : float := LE0 * w_.

Definition LC02 : float := LC0 * LC0.
Definition CC02 : float := CC0 * CC0.
Definition CC12 : float := CC1 * CC1.
Definition RC02 : float := RC0 * RC0.

Definition D_const_ : float :=
  1.0 - 2.0 * CC0 * LC0 * w2_ - 2.0 * CC1 * LC0 * w2_
  + CC02 * RC02 * w2_ + 2.0 * CC0 * CC1 * RC02 * w2_ + CC12 * RC02 * w2_
  + CC02 * LC02 * w4_ + 2.0 * CC0 * CC1 * LC02 * w4_ + CC12 * LC02 * w4_.

Definition D_RC2_ : float :=
  CC12 * w2_ - 2.0 * CC0 * CC12 * LC0 * w4_ + CC02 * CC12 * RC02 * w4_
  + CC02 * CC12 * LC02 * w6_.

Definition D_RC_ : float := -2.0 * CC12 * RC0 * w2_.

Definition D_XC_ : float :=
  2.0 * CC1 * w_ - 4.0 * CC0 * CC1 * LC0 * w3_ - 2.0 * CC12 * LC0 * w3_
  + 2.0 * CC02 * CC1 * RC02 * w3_ + 2.0 * CC0 * CC12 * RC02 * w3_
  + 2.0 * CC02 * CC1 * LC02 * w5_ + 2.0 * CC0 * CC12 * LC02 * w5_.

Definition D_XC2_ : float :=
  CC12 * w2_ - 2.0 * CC0 * CC12 * LC0 * w4_
  + CC02 * CC12 * RC02 * w4_ + CC02 * CC12 * LC02 * w6_.

Definition RD_const_ : float := - RC0.
Definition RD_RC_ : float :=
  1.0 - 2.0 * CC0 * LC0 * w2_ + CC02 * RC02 * w2_ + CC02 * LC02 * w4_.

Definition XD_const_ : float :=
  - LC0 * w_ + CC0 * RC02 * w_ + CC1 * RC02 * w_
  + CC0 * LC02 * w3_ + CC1 * LC02 * w3_.

Definition XD_RC2_ : float :=
  CC1 * w_ - 2.0 * CC0 * CC1 * LC0 * w3_ + CC02 * CC1 * RC02 * w3_
  + CC02 * CC1 * LC02 * w5_.

Definition XD_RC_ : float := -2.0 * CC1 * RC0 * w_.

Definition XD_XC_ : float :=
  1.0 - 2.0 * CC0 * LC0 * w2_ - 2.0 * CC1 * LC0 * w2_
  + CC02 * RC02 * w2_ + 2.0 * CC0 * CC1 * RC02 * w2_
  + CC02 * LC02 * w4_ + 2.0 * CC0 * CC1 * LC02 * w4_.

Definition XD_XC2_ : float :=
  CC1 * w_ - 2.0 * CC0 * CC1 * LC0 * w3_
  + CC02 * CC1 * RC02 * w3_ + CC02 * CC1 * LC02 * w5_.

Definition Z2 : float := Z_TARGET * Z_TARGET.
Definition denomGoal : float :=
  1.0 + Z2 * Cp2 * w2_ - 2.0 * Cp * Lp * w2_ + Cp2 * Lp2 * w4_.
Definition RAGoal_ : float := Z_TARGET / denomGoal.
Definition XAGoal_ : float := w_ * (Z2 * Cp - Lp + Cp * Lp2 * w2_) / denomGoal.
Definition RAGoal2_ : float := RAGoal_ * RAGoal_.
Definition XAGoal2_ : float := XAGoal_ * XAGoal_.

Definition RB2_ : float := RB_const_ * RB_const_.

Definition RAGoal3 : float := RAGoal_ * RAGoal2_.
Definition disc_const_ : float :=
  RAGoal3 * RB_const_ - RAGoal2_ * RB2_ + RAGoal_ * RB_const_ * XAGoal2_.
Definition disc_RC_coef_ : float :=
  RAGoal3 - 3.0 * RAGoal2_ * RB_const_ + 2.0 * RAGoal_ * RB2_
  + RAGoal_ * XAGoal2_ - RB_const_ * XAGoal2_.
Definition disc_RC2_coef_ : float :=
  - RAGoal2_ + 2.0 * RAGoal_ * RB_const_ - RB2_.

(** *** Forward mapping *)

Definition calculateZCFromOutput (Rpm Xpm VVC1_pF : float) : ZCFromOutput.t :=
  let VVC1 := VVC1_pF * pF in
  let wLE0 := w_ * LE0 in
  let ZE_R := Rpm + RE0 in
  let ZE_X := Xpm + wLE0 in
  let XCD0 := -1.0 / (w_ * CD0) in
  let num_R := - ZE_X * XCD0 in
  let num_X := ZE_R * XCD0 in
  let den_R := ZE_R in
  let den_X := ZE_X + XCD0 in
  let den_mag2 := den_R * den_R + den_X * den_X in
  if den_mag2 <? 1e-30 then {| ZCFromOutput.RC := Rpm; ZCFromOutput.XC := Xpm |}
  else
    let ZE_CD0_R := (num_R * den_R + num_X * den_X) / den_mag2 in
    let ZE_CD0_X := (num_X * den_R - num_R * den_X) / den_mag2 in
    let XVVC1 := -1.0 / (w_ * VVC1) in
    let ZD_R := ZE_CD0_R in
    let ZD_X := ZE_CD0_X + XVVC1 in
    let XCC1 := -1.0 / (w_ * CC1) in
    let num2_R := - ZD_X * XCC1 in
    let num2_X := ZD_R * XCC1 in
    let den2_R := ZD_R in
    let den2_X := ZD_X + XCC1 in
    let den2_mag2 := den2_R * den2_R + den2_X * den2_X in
    if den2_mag2 <? 1e-30 then {| ZCFromOutput.RC := Rpm; ZCFromOutput.XC := Xpm |}
    else
      let ZD_CC1_R := (num2_R * den2_R + num2_X * den2_X) / den2_mag2 in
      let ZD_CC1_X := (num2_X * den2_R - num2_R * den2_X) / den2_mag2 in
      let ZLC_R := RC0 in
      let ZLC_X := w_ * LC0 in
      let XCC0 := -1.0 / (w_ * CC0) in
      let num3_R := - ZLC_X * XCC0 in
      let num3_X := ZLC_R * XCC0 in
      let den3_R := ZLC_R in
      let den3_X := ZLC_X + XCC0 in
      let den3_mag2 := den3_R * den3_R + den3_X * den3_X in
      if den3_mag2 <? 1e-30 then {| ZCFromOutput.RC := Rpm; ZCFromOutput.XC := Xpm |}
      else
        let ZC0_R := (num3_R * den3_R + num3_X * den3_X) / den3_mag2 in
        let ZC0_X := (num3_X * den3_R - num3_R * den3_X) / den3_mag2 in
        {| ZCFromOutput.RC := ZD_CC1_R + ZC0_R; ZCFromOutput.XC := ZD_CC1_X + ZC0_X |}.

(** The functions below return through reference parameters in the
    sources; here they return the pair (R, X). *)

Definition calculateZA (Rm Xm : float) : float * float :=
  let Rm2 := Rm * Rm in
  let Xm2 := Xm * Xm in
  let denom := denom_A_const_ + denom_A_Rm2_ * Rm2
               + denom_A_Xm_ * Xm + denom_A_Xm2_ * Xm2 in
  (Rm / denom,
   (XA_const_ + XA_Rm2_ * Rm2 + XA_Xm_ * Xm + XA_Xm2_ * Xm2) / denom).

Definition calculateZB (VVC0_pF : float) : float * float :=
  let VVC0 := VVC0_pF * pF in
  let numer := - (XB_numer_const_ + XB_numer_VVC0_ * VVC0) in
  (RB_const_, numer / (VVC0 * XB_denom_factor_)).

Definition calculateZC (RA XA RB XB : float) : float * float :=
  let RA2 := RA * RA in
  let RB2 := RB * RB in
  let XA2 := XA * XA in
  let XB2 := XB * XB in
  let denom := RA2 - 2.0 * RA * RB + RB2 + XA2 - 2.0 * XA * XB + XB2 in
  if F64.fabs denom <? 1e-12 then (RA, XA)
  else
    ((- RA2 * RB + RA * RB2 - RB * XA2 + RA * XB2) / denom,
     (RB2 * XA - RA2 * XB - XA2 * XB + XA * XB2) / denom).

Definition calculateZD (RC XC : float) : float * float :=
  let RC2 := RC * RC in
  let XC2 := XC * XC in
  let denom := D_const_ + D_RC2_ * RC2 + D_RC_ * RC + D_XC_ * XC + D_XC2_ * XC2 in
  if F64.fabs denom <? 1e-20 then (RC, XC)
  else
    let RD_numer := RD_const_ + RD_RC_ * RC in
    let XD_numer := XD_const_ + XD_RC2_ * RC2 + XD_RC_ * RC + XD_XC_ * XC + XD_XC2_ * XC2 in
    (RD_numer / denom, XD_numer / denom).

Definition calculateZE (RD XD VVC1_pF : float) : float * float :=
  let VVC1 := VVC1_pF * pF in
  let VVC12 := VVC1 * VVC1 in
  let RD2 := RD * RD in
  let XD2 := XD * XD in
  let denomE := E_CD02_ + E_2CD0_ * VVC1 + VVC12
                + E_CD02_w2_ * RD2 * VVC12
                + E_2CD02_w_ * VVC1 * XD
                + E_2CD0_w_ * VVC12 * XD
                + E_CD02_w2_ * VVC12 * XD2 in
  if F64.fabs denomE <? 1e-30 then (RD, XD)
  else
    let RE := RD * VVC12 / denomE in
    let XE_numer := E_CD0_ + VVC1
                    + E_CD0_w_ * w_ * RD2 * VVC12
                    + E_2CD0_w_ * VVC1 * XD
                    + VVC12 * w_ * XD
                    + E_CD0_w_ * w_ * VVC12 * XD2 in
    (RE, XE_numer / (w_ * denomE)).

Definition calculateZP (RE XE : float) : float * float :=
  (RE - RE0_, XE - LE0_w_).

Definition calculateImpedances (Rm Xm VVC0_pF VVC1_pF : float) : ImpedancePoints.t :=
  let '(RA, XA) := calculateZA Rm Xm in
  let '(RB, XB) := calculateZB VVC0_pF in
  let '(RC, XC) := calculateZC RA XA RB XB in
  let '(RD, XD) := calculateZD RC XC in
  let '(RE, XE) := calculateZE RD XD VVC1_pF in
  let '(Rp, Xp) := calculateZP RE XE in
  {| ImpedancePoints.RA := RA; ImpedancePoints.XA := XA;
     ImpedancePoints.RB := RB; ImpedancePoints.XB := XB;
     ImpedancePoints.RC := RC; ImpedancePoints.XC := XC;
     ImpedancePoints.RD := RD; ImpedancePoints.XD := XD;
     ImpedancePoints.RE := RE; ImpedancePoints.XE := XE;
     ImpedancePoints.Rp := Rp; ImpedancePoints.Xp := Xp |}.

(** *** Inverse solve *)

(** The lambda [calcXDFromXC], which captures [RC] and [RC2]. *)
Definition calcXDFromXC (RC RC2 XC_in : float) : float :=
  let XC2_in := XC_in * XC_in in
  let denom := D_const_ + D_RC2_ * RC2 + D_RC_ * RC + D_XC_ * XC_in + D_XC2_ * XC2_in in
  let XD_numer := XD_const_ + XD_RC2_ * RC2 + XD_RC_ * RC + XD_XC_ * XC_in + XD_XC2_ * XC2_in in
  if F64.fabs denom <? 1e-20 then XC_in
  else XD_numer / denom.

(** The values ([RC], [XC], [XD]) the solve works on: those of the forward
    mapping, or the ones walked back from the output sensor. *)
Definition selectRCXCXD (pts : ImpedancePoints.t) (VVC1_pF Rpm Xpm : float)
           (useOutputForRC : bool) : float * float * float :=
  if useOutputForRC && ((Rpm !=? 0.0) || (Xpm !=? 0.0)) then
    let zcOut := calculateZCFromOutput Rpm Xpm VVC1_pF in
    let RC := ZCFromOutput.RC zcOut in
    let XC := ZCFromOutput.XC zcOut in
    let '(RD_out, XD_out) := calculateZD RC XC in
    (RC, XC, XD_out)
  else
    (ImpedancePoints.RC pts, ImpedancePoints.XC pts, ImpedancePoints.XD pts).

(** The denominator [1.0 + VVC * w_ * X - VVC * w_ * XGoal] of a
    capacitance goal (written out four times in the source, for the two
    capacitors and the two solutions). *)
Definition denomVVC (VVC X XGoal : float) : float :=
  1.0 + VVC * w_ * X - VVC * w_ * XGoal.

(** [discriminant], from the working value of [RC]. *)
Definition discriminantOf (RC : float) : float :=
  let RC2 := RC * RC in
  4.0 * (disc_const_ + disc_RC_coef_ * RC + disc_RC2_coef_ * RC2).

(** [calculateMatchingGoals].  The local [MatchingGoals goals;] is declared
    without an initialiser: [goals] stands for the indeterminate contents it
    starts with, and a field the function does not store to keeps them.
    [m0], [m1] are the two motor pointers ([None] for [nullptr]). *)
Definition calculateMatchingGoals (goals : MatchingGoals)
           (Rm Xm VVC0_pF VVC1_pF : float)
           (m0 m1 : option MotorController)
           (Rpm Xpm : float) (useOutputForRC : bool) : MatchingGoals :=
  let pts := calculateImpedances Rm Xm VVC0_pF VVC1_pF in
  let '(RC, XC, XD) := selectRCXCXD pts VVC1_pF Rpm Xpm useOutputForRC in
  let XB := ImpedancePoints.XB pts in
  let RC2 := RC * RC in
  let discriminant := discriminantOf RC in
  if discriminant <? 0.0 then
    {| VVC0Goal0 := 0.0; VVC1Goal0 := 0.0; step0Goal0 := 0; step1Goal0 := 0;
       valid0 := false;
       VVC0Goal1 := 0.0; VVC1Goal1 := 0.0; step0Goal1 := 0; step1Goal1 := 0;
       valid1 := false;
       RAGoal := RAGoal_; XAGoal := XAGoal_;
       XBGoal0 := 0.0; XBGoal1 := 0.0;
       XDGoal0 := XDGoal0 goals; XDGoal1 := XDGoal1 goals;
       RC_calculated := RC; XC_calculated := XC; XD_calculated := XD |}
  else
    let sqrtD := PrimFloat.sqrt discriminant in
    let denom_XB := 2.0 * (RAGoal_ - RC) in
    let '(XBGoal0', XBGoal1') :=
      if F64.fabs denom_XB <? 1e-12 then (0.0, 0.0)
      else ((-2.0 * RC * XAGoal_ - sqrtD) / denom_XB,
            (-2.0 * RC * XAGoal_ + sqrtD) / denom_XB) in
    let VVC0 := VVC0_pF * pF in
    let VVC1 := VVC1_pF * pF in
    let denom0_VVC0 := denomVVC VVC0 XB XBGoal0' in
    let denom1_VVC0 := denomVVC VVC0 XB XBGoal1' in
    let '(VVC0Goal0', valid0') :=
      if F64.fabs denom0_VVC0 >? 1e-20
      then let g := (VVC0 / denom0_VVC0) / pF in (g, g >? 0.0)
      else (0.0, false) in
    let '(VVC0Goal1', valid1') :=
      if F64.fabs denom1_VVC0 >? 1e-20
      then let g := (VVC0 / denom1_VVC0) / pF in (g, g >? 0.0)
      else (0.0, false) in
    let denom_XC := RAGoal_ - RB_const_ in
    let '(XCGoal0, XCGoal1) :=
      if F64.fabs denom_XC >? 1e-12 then
        let sqrtD_XC := sqrtD / 2.0 in
        ((- RB_const_ * XAGoal_ + sqrtD_XC) / denom_XC,
         (- RB_const_ * XAGoal_ - sqrtD_XC) / denom_XC)
      else (0.0, 0.0) in
    let XDGoal0' := calcXDFromXC RC RC2 XCGoal0 in
    let XDGoal1' := calcXDFromXC RC RC2 XCGoal1 in
    let denom0_VVC1 := denomVVC VVC1 XD XDGoal0' in
    let denom1_VVC1 := denomVVC VVC1 XD XDGoal1' in
    let '(VVC1Goal0', valid0'') :=
      if F64.fabs denom0_VVC1 >? 1e-20
      then let g := (VVC1 / denom0_VVC1) / pF in
           (g, if g <? 0.0 then false else valid0')
      else (0.0, false) in
    let '(VVC1Goal1', valid1'') :=
      if F64.fabs denom1_VVC1 >? 1e-20
      then let g := (VVC1 / denom1_VVC1) / pF in
           (g, if g <? 0.0 then false else valid1')
      else (0.0, false) in
    let '(step0Goal0', step0Goal1') :=
      match m0 with
      | Some m => (getPositionFromCap m (F64.to_int32 (VVC0Goal0' * 100.0)),
                   getPositionFromCap m (F64.to_int32 (VVC0Goal1' * 100.0)))
      | None => (0%Z, 0%Z)
      end in
    let '(step1Goal0', step1Goal1') :=
      match m1 with
      | Some m => (getPositionFromCap m (F64.to_int32 (VVC1Goal0' * 100.0)),
                   getPositionFromCap m (F64.to_int32 (VVC1Goal1' * 100.0)))
      | None => (0%Z, 0%Z)
      end in
    {| VVC0Goal0 := VVC0Goal0'; VVC1Goal0 := VVC1Goal0';
       step0Goal0 := step0Goal0'; step1Goal0 := step1Goal0';
       valid0 := valid0'';
       VVC0Goal1 := VVC0Goal1'; VVC1Goal1 := VVC1Goal1';
       step0Goal1 := step0Goal1'; step1Goal1 := step1Goal1';
       valid1 := valid1'';
       RAGoal := RAGoal_; XAGoal := XAGoal_;
       XBGoal0 := XBGoal0'; XBGoal1 := XBGoal1';
       XDGoal0 := XDGoal0'; XDGoal1 := XDGoal1';
       RC_calculated := RC; XC_calculated := XC; XD_calculated := XD |}.

End MatchingAlgorithm.

(* ------------------------------------------------------------------------- *)
(** ** RFSensor.hpp *)

Module RFSensor.

Import Int.

Record AveragedImpedanceResults : Type := {
  voltageMagnitude : f32;
  currentMagnitude : f32;
  impedanceMagnitude : f32;
  impedancePhaseDeg : f32;
  resistanceR : f32;
  reactanceX : f32
}.

Record SensorCalibration : Type := {
  voltageGain : f32;
  currentGain : f32;
  phaseDiffRad : f32
}.

(** The part of [class RFSensor] the averaged measurement uses, together
    with what the fabric presents: the four BRAM arrays (by bin index) and
    the successive values read from the gate status word [gpio[2]]. *)
Record Sensor : Type := {
  fftLength : Z;
  gate_gpio_base_ : Z;
  cal_ : SensorCalibration;
  avgCount_ : Z;
  v_re : Z -> f32;
  v_im : Z -> f32;
  i_re : Z -> f32;
  i_im : Z -> f32;
  gate_status : nat -> Z
}.

(** The C library functions the measurement calls. *)
Record Libm : Type := {
  atan2 : float -> float -> float;
  cosf : f32 -> f32;
  sinf : f32 -> f32
}.

Definition zeroResult : AveragedImpedanceResults := {|
  voltageMagnitude := flt 0.0; currentMagnitude := flt 0.0;
  impedanceMagnitude := flt 0.0; impedancePhaseDeg := flt 0.0;
  resistanceR := flt 0.0; reactanceX := flt 0.0 |}.

Definition setFftHold (s : Sensor) (hold : bool) : list Effect :=
  if gate_gpio_base_ s =? 0 then []
  else [GpioStore (gate_gpio_base_ s) 0 (if hold then 1 else 0)].

(** [checkFftHoldStatus(&index)] at the [k]-th read of the status word:
    the hold flag and the new value of [index]. *)
Definition checkFftHoldStatus (s : Sensor) (k : nat) (index : Z) : bool * Z :=
  if gate_gpio_base_ s =? 0 then (false, index)
  else
    let status := gate_status s k in
    (negb (Z.land status 2147483648 =? 0), Z.land status 2147483647).

(** [while (timeout-- > 0) { ... if (hold_ok_v && hold_ok_i) break; }] *)
Fixpoint waitHold (s : Sensor) (timeout : nat) (k : nat)
         (st : bool * bool * Z * Z) : bool * bool * Z * Z :=
  match timeout with
  | O => st
  | S timeout' =>
      let '(_, _, hold_index_v, hold_index_i) := st in
      let '(hold_ok_v, hold_index_v) := checkFftHoldStatus s k hold_index_v in
      let '(hold_ok_i, hold_index_i) := checkFftHoldStatus s (S k) hold_index_i in
      if hold_ok_v && hold_ok_i then (hold_ok_v, hold_ok_i, hold_index_v, hold_index_i)
      else waitHold s timeout' (S (S k)) (hold_ok_v, hold_ok_i, hold_index_v, hold_index_i)
  end.

(** [multiply(a, b)] on [ComplexF]. *)
Definition multiply (a b : f32 * f32) : f32 * f32 :=
  let '(ar, ai) := a in
  let '(br, bi) := b in
  ((ar * br - ai * bi)%f32, (ar * bi + ai * br)%f32).

(** The four double accumulators. *)
Record Sums : Type := {
  sum_vmagSq : float;
  sum_imagSq : float;
  sum_cross_re : float;
  sum_cross_im : float
}.

(** Body of the accumulation loop for one [idx]. *)
Definition accumulate (s : Sensor) (start_addr_v start_addr_i : Z)
           (acc : Sums) (idx : Z) : Sums :=
  let bram_addr_v := Z.rem (start_addr_v + idx) (fftLength s) in
  let bram_addr_i := Z.rem (start_addr_i + idx) (fftLength s) in
  let v_raw := (v_re s bram_addr_v, v_im s bram_addr_v) in
  let i_raw := (i_re s bram_addr_i, i_im s bram_addr_i) in
  let vmagSq := (fst v_raw * fst v_raw + snd v_raw * snd v_raw)%f32 in
  let imagSq := (fst i_raw * fst i_raw + snd i_raw * snd i_raw)%f32 in
  let i_conj := (fst i_raw, (- snd i_raw)%f32) in
  let cross := multiply v_raw i_conj in
  {| sum_vmagSq := (sum_vmagSq acc + F32.to_double vmagSq)%float;
     sum_imagSq := (sum_imagSq acc + F32.to_double imagSq)%float;
     sum_cross_re := (sum_cross_re acc + F32.to_double (fst cross))%float;
     sum_cross_im := (sum_cross_im acc + F32.to_double (snd cross))%float |}.

(** [for (int idx = 0; idx < avgCount; ++idx)] with [n] iterations left. *)
Fixpoint accumulateLoop (s : Sensor) (start_addr_v start_addr_i : Z)
         (n : nat) (idx : Z) (acc : Sums) : Sums :=
  match n with
  | O => acc
  | S n' =>
      accumulateLoop s start_addr_v start_addr_i n' (idx + 1)
        (accumulate s start_addr_v start_addr_i acc idx)
  end.

Definition kRadToDeg : f32 := (flt 180.0 / flt 3.14159265358979323846)%f32.
Definition kDegToRad : f32 := (flt 3.14159265358979323846 / flt 180.0)%f32.

(** [RFSensor::calculateAveragedImpedance].  The result and the stores to
    the gate register; the once-per-sensor [FFT DEBUG] print, which only
    writes to the serial line after the result is complete, is not part of
    the trace. *)
Definition calculateAveragedImpedance (lm : Libm) (s : Sensor) (avgCount : Z)
  : AveragedImpedanceResults * list Effect :=
  let avgCount := if avgCount =? -1 then avgCount_ s else avgCount in
  let avgCount := if avgCount <=? 0 then 1 else avgCount in
  let avgCount := if avgCount >? fftLength s then fftLength s else avgCount in
  let '(hold_ok_v, hold_ok_i, hold_index_v, hold_index_i) :=
    waitHold s 100 0 (false, false, 0, 0) in
  if negb hold_ok_v || negb hold_ok_i then
    (zeroResult, setFftHold s true ++ setFftHold s false)
  else
    let voltageGain := voltageGain (cal_ s) in
    let currentGain := currentGain (cal_ s) in
    let phaseDiffRad := phaseDiffRad (cal_ s) in
    let start_addr_v := Z.rem (wrap32 (wrap32 (wrap32 hold_index_v - avgCount) + fftLength s)) (fftLength s) in
    let start_addr_i := Z.rem (wrap32 (wrap32 (wrap32 hold_index_i - avgCount) + fftLength s)) (fftLength s) in
    let sums := accumulateLoop s start_addr_v start_addr_i (Z.to_nat avgCount) 0
                  {| sum_vmagSq := 0.0; sum_imagSq := 0.0;
                     sum_cross_re := 0.0; sum_cross_im := 0.0 |} in
    let inv_count := (1.0 / F64.of_int avgCount)%float in
    let fftNorm := (1.0 / F64.of_int (fftLength s))%float in
    let avg_vmagSq := (sum_vmagSq sums * inv_count)%float in
    let avg_imagSq := (sum_imagSq sums * inv_count)%float in
    let impedance_mag_sq :=
      ((avg_vmagSq * F32.to_double voltageGain * F32.to_double voltageGain) /
       (avg_imagSq * F32.to_double currentGain * F32.to_double currentGain))%float in
    let impedanceMagnitude' := F32.of_double (PrimFloat.sqrt impedance_mag_sq) in
    let avg_cross_re :=
      (sum_cross_re sums * inv_count * F32.to_double voltageGain * F32.to_double currentGain)%float in
    let avg_cross_im :=
      (sum_cross_im sums * inv_count * F32.to_double voltageGain * F32.to_double currentGain)%float in
    let impedancePhaseDeg' :=
      F32.of_double ((atan2 lm avg_cross_im avg_cross_re - F32.to_double phaseDiffRad)
                     * F32.to_double kRadToDeg)%float in
    let phaseRad := (impedancePhaseDeg' * kDegToRad)%f32 in
    let resistanceR' := (impedanceMagnitude' * cosf lm phaseRad)%f32 in
    let reactanceX' := (impedanceMagnitude' * sinf lm phaseRad)%f32 in
    let voltageMagnitude' :=
      F32.of_double (PrimFloat.sqrt avg_vmagSq * fftNorm * F32.to_double voltageGain)%float in
    let currentMagnitude' :=
      F32.of_double (PrimFloat.sqrt avg_imagSq * fftNorm * F32.to_double currentGain)%float in
    ({| voltageMagnitude := voltageMagnitude';
        currentMagnitude := currentMagnitude';
        impedanceMagnitude := impedanceMagnitude';
        impedancePhaseDeg := impedancePhaseDeg';
        resistanceR := resistanceR';
        reactanceX := reactanceX' |},
     setFftHold s true ++ setFftHold s false).

(** [divideSafe(a, b)], the guarded complex division used by
    [readImpedance]. *)
Definition divideSafe (a b : f32 * f32) : f32 * f32 :=
  let eps := flt 1e-12 in
  let den := (fst b * fst b + snd b * snd b)%f32 in
  let den := if (den <? eps)%f32 then eps else den in
  let inv := (flt 1.0 / den)%f32 in
  (((fst a * fst b + snd a * snd b) * inv)%f32,
   ((snd a * fst b - fst a * snd b) * inv)%f32).

(** All six fields are finite numbers. *)
Definition all_finite (r : AveragedImpedanceResults) : bool :=
  F32.is_finite (voltageMagnitude r) && F32.is_finite (currentMagnitude r) &&
  F32.is_finite (impedanceMagnitude r) && F32.is_finite (impedancePhaseDeg r) &&
  F32.is_finite (resistanceR r) && F32.is_finite (reactanceX r).

End RFSensor.

(* ------------------------------------------------------------------------- *)
(** ** DebugMode.hpp *)

Module DebugMode.

Import Int.
Import MotionBoard.
Import RFSensor.

(** The stream fields of [class DebugMode]. *)
Record Streams : Type := {
  impStreamEnabled_i_ : bool;
  impStreamEnabled_o_ : bool;
  viStreamEnabled_i_ : bool;
  viStreamEnabled_o_ : bool;
  motorPosStreamEnabled_ : bool;
  impStreamRate_i_ : Z;
  impStreamRate_o_ : Z;
  viStreamRate_i_ : Z;
  viStreamRate_o_ : Z;
  motorPosStreamRate_ : Z;
  lastImpStreamTime_i_ : Z;
  lastImpStreamTime_o_ : Z;
  lastViStreamTime_i_ : Z;
  lastViStreamTime_o_ : Z;
  lastMotorPosStreamTime_ : Z
}.

(** The AMS fields of [class DebugMode], and the function-local
    [static unsigned long amsDebugCounter] of [handleStreaming]. *)
Record Ams : Type := {
  amsEnabled_ : bool;
  amsMatching_ : bool;
  amsInterval_ : Z;
  amsTimeout_ : Z;
  amsStartTime_ : Z;
  lastAmsTime_ : Z;
  amsVerbose_ : bool;
  amsLogInterval_ : Z;
  amsLogCounter_ : Z;
  amsDebugCounter : Z
}.

(** [class DebugMode].  [iSensor_] and [oSensor_] say whether the sensor
    pointers are non-null; [mBoard_] is the board behind its pointer. *)
Record State : Type := {
  iSensor_ : bool;
  oSensor_ : bool;
  mBoard_ : option Board;
  streams : Streams;
  ams : Ams;
  loopCounter_ : Z
}.

(** What one pass of [handleStreaming] takes from outside: the result each
    call site of [calculateAveragedImpedance(-1)] obtains if it is reached,
    and the indeterminate initial contents of the local [MatchingGoals]. *)
Record TickEnv : Type := {
  impSample_i : AveragedImpedanceResults;
  impSample_o : AveragedImpedanceResults;
  viSample_i : AveragedImpedanceResults;
  viSample_o : AveragedImpedanceResults;
  amsSample_i : AveragedImpedanceResults;
  amsSample_o : AveragedImpedanceResults;
  goalsStack : MatchingGoals
}.

Definition modeName (matching : bool) : string :=
  if matching then "MATCHING" else "MONITORING".

Definition sendImpedanceOf (r : AveragedImpedanceResults) (isInput : bool) : Effect :=
  SendImpedance (resistanceR r) (reactanceX r) (voltageMagnitude r)
                (currentMagnitude r) (impedancePhaseDeg r) isInput.

(** One stream block: [if (enabled) { elapsedMs = currentTime - last;
    if (elapsedMs >= (unsigned long)rate) { ...; last = currentTime; } }]. *)
Definition streamDue (enabled : bool) (currentTime last rate : Z) : bool :=
  enabled && (to_u32 (currentTime - last) >=? to_u32 rate).

(** The five stream blocks of [handleStreaming] (impedance and V/I of each
    sensor, motor positions). *)
Definition streamBlocks (d : State) (env : TickEnv) (currentTime : Z)
  : Streams * list Effect :=
  let st := streams d in
  let due1 := streamDue (impStreamEnabled_i_ st) currentTime (lastImpStreamTime_i_ st) (impStreamRate_i_ st) in
  let due2 := streamDue (impStreamEnabled_o_ st) currentTime (lastImpStreamTime_o_ st) (impStreamRate_o_ st) in
  let due3 := streamDue (viStreamEnabled_i_ st) currentTime (lastViStreamTime_i_ st) (viStreamRate_i_ st) in
  let due4 := streamDue (viStreamEnabled_o_ st) currentTime (lastViStreamTime_o_ st) (viStreamRate_o_ st) in
  let due5 :=
    match mBoard_ d with
    | Some _ => streamDue (motorPosStreamEnabled_ st) currentTime
                          (lastMotorPosStreamTime_ st) (motorPosStreamRate_ st)
    | None => false
    end in
  ({| impStreamEnabled_i_ := impStreamEnabled_i_ st;
      impStreamEnabled_o_ := impStreamEnabled_o_ st;
      viStreamEnabled_i_ := viStreamEnabled_i_ st;
      viStreamEnabled_o_ := viStreamEnabled_o_ st;
      motorPosStreamEnabled_ := motorPosStreamEnabled_ st;
      impStreamRate_i_ := impStreamRate_i_ st;
      impStreamRate_o_ := impStreamRate_o_ st;
      viStreamRate_i_ := viStreamRate_i_ st;
      viStreamRate_o_ := viStreamRate_o_ st;
      motorPosStreamRate_ := motorPosStreamRate_ st;
      lastImpStreamTime_i_ := if due1 then currentTime else lastImpStreamTime_i_ st;
      lastImpStreamTime_o_ := if due2 then currentTime else lastImpStreamTime_o_ st;
      lastViStreamTime_i_ := if due3 then currentTime else lastViStreamTime_i_ st;
      lastViStreamTime_o_ := if due4 then currentTime else lastViStreamTime_o_ st;
      lastMotorPosStreamTime_ := if due5 then currentTime else lastMotorPosStreamTime_ st |},
   (if due1 then [Sample true; sendImpedanceOf (impSample_i env) true] else []) ++
   (if due2 then [Sample false; sendImpedanceOf (impSample_o env) false] else []) ++
   (if due3 then [Sample true;
                  SendVIMag (voltageMagnitude (viSample_i env))
                            (currentMagnitude (viSample_i env)) true] else []) ++
   (if due4 then [Sample false;
                  SendVIMag (voltageMagnitude (viSample_o env))
                            (currentMagnitude (viSample_o env)) false] else []) ++
   (match mBoard_ d with
    | Some b =>
        if due5 then
          [SendMotorPositionBoth
             (to_u32 (readPos (M1 b))) (getPositionPercent (M1 b)) (getCapacitance (M1 b))
             (to_u32 (readPos (M2 b))) (getPositionPercent (M2 b)) (getCapacitance (M2 b))]
        else []
    | None => []
    end)).

(** The validity the AMS gives a solution: the flag of the goals and the
    two capacitance goals (pF x 100) inside the band of their motor. *)
Definition goalInBand (valid : bool) (cap0Goal cap1Goal : Z) (b : Board) : bool :=
  valid &&
  (cap0Goal >=? minCap (M1 b)) && (cap0Goal <=? maxCap (M1 b)) &&
  (cap1Goal >=? minCap (M2 b)) && (cap1Goal <=? maxCap (M2 b)).

(** Steps 4 to 7 of the matching branch: goals, band check, selection and
    the motor commands.  Returns the goals with the two validity bits the
    AMS computed and the effects. *)
Definition amsMatchStep (b : Board) (env : TickEnv) (Rm Xm Rpm Xpm vswr : float)
           (shouldLog : bool) : MatchingGoals * bool * bool * list Effect :=
  let VVC0_pF := (F64.of_int (getCapacitance (M1 b)) / 100.0)%float in
  let VVC1_pF := (F64.of_int (getCapacitance (M2 b)) / 100.0)%float in
  let useOutputForRC := (vswr >? 2.0)%float in
  let goals := MatchingAlgorithm.calculateMatchingGoals (goalsStack env)
                 Rm Xm VVC0_pF VVC1_pF (Some (M1 b)) (Some (M2 b))
                 Rpm Xpm useOutputForRC in
  let cap0Goal0 := F64.to_int32 (VVC0Goal0 goals * 100.0)%float in
  let cap1Goal0 := F64.to_int32 (VVC1Goal0 goals * 100.0)%float in
  let cap0Goal1 := F64.to_int32 (VVC0Goal1 goals * 100.0)%float in
  let cap1Goal1 := F64.to_int32 (VVC1Goal1 goals * 100.0)%float in
  let goal0_valid := goalInBand (valid0 goals) cap0Goal0 cap1Goal0 b in
  let goal1_valid := goalInBand (valid1 goals) cap0Goal1 cap1Goal1 b in
  let '(selectedGoal, targetStep0, targetStep1) :=
    if goal0_valid then (0, step0Goal0 goals, step1Goal0 goals)
    else if goal1_valid then (1, step0Goal1 goals, step1Goal1 goals)
    else (-1, 0, 0) in
  (goals, goal0_valid, goal1_valid,
   (if shouldLog
    then [Printf "[AMS DEBUG] Goal0 valid=%d, Goal1 valid=%d"
            [AInt (if goal0_valid then 1 else 0); AInt (if goal1_valid then 1 else 0)]]
    else []) ++
   (if selectedGoal >=? 0 then
      snd (RunMotor (M1 b) targetStep0 true 0) ++
      snd (RunMotor (M2 b) targetStep1 true 0) ++
      (if shouldLog
       then [Printf "AMS,RUN,%d," [AInt selectedGoal];
             PrintFloat (F32.of_double vswr);
             Printf ",%d,%d,EN" [AInt targetStep0; AInt targetStep1]]
       else [])
    else
      (if shouldLog then [Printf "[AMS DEBUG] No valid goal!" []] else []))).

(** The AMS block of [handleStreaming] (the last block of the function). *)
Definition amsBlock (d : State) (env : TickEnv) (currentTime : Z)
  : Ams * list Effect :=
  let a := ams d in
  match mBoard_ d with
  | None => (a, [])
  | Some b =>
    if negb (amsEnabled_ a && iSensor_ d && oSensor_ d) then (a, [])
    else
      let elapsedTotal := to_u32 (currentTime - amsStartTime_ a) in
      let amsDebugCounter' := to_u32 (amsDebugCounter a + 1) in
      let showDebug := amsVerbose_ a && (Z.rem amsDebugCounter' 100 =? 1) in
      let trDebug :=
        if showDebug
        then [Printf "[AMS DEBUG] Loop: mode=%s, elapsed=%lu, timeout=%d"
                [AStr (modeName (amsMatching_ a)); AInt elapsedTotal;
                 AInt (amsTimeout_ a)]]
        else [] in
      if (amsTimeout_ a >? 0) && (elapsedTotal >=? to_u32 (amsTimeout_ a)) then
        ({| amsEnabled_ := false; amsMatching_ := false;
            amsInterval_ := amsInterval_ a; amsTimeout_ := amsTimeout_ a;
            amsStartTime_ := amsStartTime_ a; lastAmsTime_ := lastAmsTime_ a;
            amsVerbose_ := amsVerbose_ a;
            amsLogInterval_ := amsLogInterval_ a;
            amsLogCounter_ := amsLogCounter_ a;
            amsDebugCounter := 0 |},
         trDebug ++
         (if amsVerbose_ a then [Printf "AMS,TIMEOUT,%lu,EN" [AInt elapsedTotal]] else []) ++
         [SendAck "ams" "TIMEOUT"])
      else
        let elapsedMs := to_u32 (currentTime - lastAmsTime_ a) in
        if negb (elapsedMs >=? to_u32 (amsInterval_ a)) then
          ({| amsEnabled_ := amsEnabled_ a; amsMatching_ := amsMatching_ a;
              amsInterval_ := amsInterval_ a; amsTimeout_ := amsTimeout_ a;
              amsStartTime_ := amsStartTime_ a; lastAmsTime_ := lastAmsTime_ a;
              amsVerbose_ := amsVerbose_ a;
              amsLogInterval_ := amsLogInterval_ a;
              amsLogCounter_ := amsLogCounter_ a;
              amsDebugCounter := amsDebugCounter' |},
           trDebug)
        else
          let amsLogCounter' := wrap32 (amsLogCounter_ a + 1) in
          let shouldLog := amsVerbose_ a && (amsLogCounter' >=? amsLogInterval_ a) in
          let amsLogCounter' := if shouldLog then 0 else amsLogCounter' in
          let iRes := amsSample_i env in
          let oRes := amsSample_o env in
          let Rm := F32.to_double (resistanceR iRes) in
          let Xm := F32.to_double (reactanceX iRes) in
          let Rpm := F32.to_double (resistanceR oRes) in
          let Xpm := F32.to_double (reactanceX oRes) in
          let vswr := calculateVSWR Rm Xm in
          let mi := matcherInfo b in
          let trSample :=
            [Sample true; Sample false] ++
            (if shouldLog
             then [sendImpedanceOf iRes true; sendImpedanceOf oRes false]
             else []) ++
            (if shouldLog
             then [Printf "[AMS DEBUG] Mode=%s, VSWR=" [AStr (modeName (amsMatching_ a))];
                   PrintFloat (F32.of_double vswr);
                   Printf ", Stop=" []; PrintFloat (vswrStop mi);
                   Printf ", Restart=" []; PrintFloat (vswrRestart mi);
                   Printf "" []]
             else []) in
          let '(matching', trMode) :=
            if amsMatching_ a then
              if (vswr <=? F32.to_double (vswrStop mi))%float then
                (false,
                 if amsVerbose_ a
                 then [Printf "AMS,MATCHED," []; PrintFloat (F32.of_double vswr);
                       Printf ",EN" []]
                 else [])
              else
                (true, snd (amsMatchStep b env Rm Xm Rpm Xpm vswr shouldLog))
            else
              if (vswr >=? F32.to_double (vswrRestart mi))%float then
                (true,
                 if amsVerbose_ a
                 then [Printf "AMS,RESTART," []; PrintFloat (F32.of_double vswr);
                       Printf ",EN" []]
                 else [])
              else (false, []) in
          ({| amsEnabled_ := amsEnabled_ a; amsMatching_ := matching';
              amsInterval_ := amsInterval_ a; amsTimeout_ := amsTimeout_ a;
              amsStartTime_ := amsStartTime_ a; lastAmsTime_ := currentTime;
              amsVerbose_ := amsVerbose_ a;
              amsLogInterval_ := amsLogInterval_ a;
              amsLogCounter_ := amsLogCounter';
              amsDebugCounter := amsDebugCounter' |},
           trDebug ++ trSample ++ trMode)
  end.

(** [DebugMode::handleStreaming]. *)
Definition handleStreaming (d : State) (env : TickEnv) : State * list Effect :=
  let loopCounter' := to_u32 (loopCounter_ d + 1) in
  let currentTime := to_u32 (loopCounter' * 10) in
  let '(streams', tr1) := streamBlocks d env currentTime in
  let '(ams', tr2) := amsBlock d env currentTime in
  ({| iSensor_ := iSensor_ d; oSensor_ := oSensor_ d; mBoard_ := mBoard_ d;
      streams := streams'; ams := ams'; loopCounter_ := loopCounter' |},
   tr1 ++ tr2).

(** The [ams] command of [handleAutoMatchCommand]: [argc], whether
    [argv[1]] is the word stop, and the values [atoi] gives for
    [argv[1]], [argv[2]], [argv[3]]. *)
Record AmsArgs : Type := {
  argc : Z;
  argv1_is_stop : bool;
  atoi_argv1 : Z;
  atoi_argv2 : Z;
  atoi_argv3 : Z
}.

Definition amsCommand (d : State) (args : AmsArgs) : State * list Effect :=
  let a := ams d in
  let withAms (a' : Ams) : State :=
    {| iSensor_ := iSensor_ d; oSensor_ := oSensor_ d; mBoard_ := mBoard_ d;
       streams := streams d; ams := a'; loopCounter_ := loopCounter_ d |} in
  if (argc args >=? 2) && argv1_is_stop args then
    (withAms {| amsEnabled_ := false; amsMatching_ := false;
                amsInterval_ := amsInterval_ a; amsTimeout_ := amsTimeout_ a;
                amsStartTime_ := amsStartTime_ a; lastAmsTime_ := lastAmsTime_ a;
                amsVerbose_ := amsVerbose_ a;
                amsLogInterval_ := amsLogInterval_ a;
                amsLogCounter_ := amsLogCounter_ a;
                amsDebugCounter := amsDebugCounter a |},
     [Printf "AMS stopped" []; SendAck "ams" "STOP"])
  else
    match mBoard_ d with
    | None =>
        (d, [Printf "Error: Sensors or MotionBoard not available" [];
             SendAck "ams" "ERROR"])
    | Some b =>
      if negb (iSensor_ d) || negb (oSensor_ d) then
        (d, [Printf "Error: Sensors or MotionBoard not available" [];
             SendAck "ams" "ERROR"])
      else
        let interval :=
          if argc args >=? 2 then
            let v := atoi_argv1 args in
            let v := if v <? 1 then 1 else v in
            if v >? 1000 then 1000 else v
          else amsInterval_ a in
        let timeout :=
          if argc args >=? 3 then
            let v := atoi_argv2 args in
            let v := if negb (v =? 0) && (v <? 100) then 100 else v in
            if v >? 60000 then 60000 else v
          else amsTimeout_ a in
        let logInterval :=
          if argc args >=? 4 then
            let v := atoi_argv3 args in
            let v := if v <? 1 then 1 else v in
            if v >? 1000 then 1000 else v
          else 1 in
        let currentTime := to_u32 (loopCounter_ d * 10) in
        (withAms {| amsEnabled_ := true; amsMatching_ := true;
                    amsInterval_ := interval; amsTimeout_ := timeout;
                    amsStartTime_ := currentTime; lastAmsTime_ := currentTime;
                    amsVerbose_ := true;
                    amsLogInterval_ := logInterval;
                    amsLogCounter_ := 0;
                    amsDebugCounter := amsDebugCounter a |},
         [Printf "=== AMS Started (Continuous Mode) ===" [];
          Printf "Interval: %d ms, Timeout: %d ms%s, LogInterval: %d"
            [AInt interval; AInt timeout;
             AStr (if timeout =? 0 then " (no timeout)" else "");
             AInt logInterval];
          Printf "VSWR Thresholds - Stop: " [];
          PrintFloat (vswrStop (matcherInfo b));
          Printf ", Restart: " [];
          PrintFloat (vswrRestart (matcherInfo b));
          Printf "" [];
          Printf "[AMS DEBUG] Start: mode=MATCHING, loopCounter=%lu" [AInt (loopCounter_ d)];
          SendAck "ams" "START"])
    end.

(** The state the constructor builds. *)
Definition initialState (iSensor oSensor : bool) (mBoard : option Board) : State := {|
  iSensor_ := iSensor;
  oSensor_ := oSensor;
  mBoard_ := mBoard;
  streams := {|
    impStreamEnabled_i_ := false; impStreamEnabled_o_ := false;
    viStreamEnabled_i_ := false; viStreamEnabled_o_ := false;
    motorPosStreamEnabled_ := false;
    impStreamRate_i_ := 100; impStreamRate_o_ := 100;
    viStreamRate_i_ := 100; viStreamRate_o_ := 100;
    motorPosStreamRate_ := 100;
    lastImpStreamTime_i_ := 0; lastImpStreamTime_o_ := 0;
    lastViStreamTime_i_ := 0; lastViStreamTime_o_ := 0;
    lastMotorPosStreamTime_ := 0 |};
  ams := {|
    amsEnabled_ := false; amsMatching_ := false;
    amsInterval_ := 10; amsTimeout_ := 5000;
    amsStartTime_ := 0; lastAmsTime_ := 0;
    amsVerbose_ := true;
    amsLogInterval_ := 1; amsLogCounter_ := 0;
    amsDebugCounter := 0 |};
  loopCounter_ := 0
|}.

(** The states the shell loop can be in: the constructor's state, then any
    sequence of passes of [handleStreaming], [ams] commands, and other
    commands, which leave the AMS fields and the loop counter alone (they
    may change the contents of the board and the streams). *)
Inductive reachable : State -> Prop :=
| reach_init : forall i o b, reachable (initialState i o b)
| reach_tick : forall d env, reachable d -> reachable (fst (handleStreaming d env))
| reach_ams : forall d args, reachable d -> reachable (fst (amsCommand d args))
| reach_other : forall d st b,
    reachable d ->
    (mBoard_ d = None <-> b = None) ->
    reachable {| iSensor_ := iSensor_ d; oSensor_ := oSensor_ d; mBoard_ := b;
                 streams := st; ams := ams d; loopCounter_ := loopCounter_ d |}.

(** [n] passes of [handleStreaming] in the same surroundings. *)
Fixpoint runTicks (n : nat) (env : TickEnv) (d : State) : State :=
  match n with
  | O => d
  | S n' => runTicks n' env (fst (handleStreaming d env))
  end.

(** What holds of the AMS fields in every state of the shell loop: the
    mode implies the enable, an enabled AMS has both sensors and the board,
    the verbose flag is never cleared, the timeout is in 0..60000. *)
Definition amsInvariant (d : State) : Prop :=
  (amsMatching_ (ams d) = true -> amsEnabled_ (ams d) = true) /\
  (amsEnabled_ (ams d) = true ->
   iSensor_ d = true /\ oSensor_ d = true /\ mBoard_ d <> None) /\
  amsVerbose_ (ams d) = true /\
  0 <= amsTimeout_ (ams d) <= 60000.

End DebugMode.

(* ------------------------------------------------------------------------- *)
(** ** Observations on traces and the concrete configurations the
    properties below are evaluated at *)

Module Probe.

Import Int MotionBoard.
#[local] Open Scope float_scope.

(** Whether a trace holds the "clamped" log line of [RunMotor]. *)
Definition logsClamp (tr : list Effect) : bool :=
  existsb (fun e => match e with
                    | Printf fmt _ =>
                        String.eqb fmt "[MOTOR] Target %d clamped to %d (limits: %d~%d)"%string
                    | _ => false
                    end) tr.

(** Indeterminate contents for the uninitialised local [MatchingGoals]:
    what happens to be on the stack, here NaN and 7 throughout. *)
Definition staleGoals : MatchingGoals := {|
  VVC0Goal0 := nan; VVC1Goal0 := nan; step0Goal0 := 7; step1Goal0 := 7;
  valid0 := true;
  VVC0Goal1 := nan; VVC1Goal1 := nan; step0Goal1 := 7; step1Goal1 := 7;
  valid1 := true;
  RAGoal := nan; XAGoal := nan;
  XBGoal0 := nan; XBGoal1 := nan;
  XDGoal0 := nan; XDGoal1 := nan;
  RC_calculated := nan; XC_calculated := nan; XD_calculated := nan
|}.

(** The two motors as the constructors leave them (uncalibrated fit,
    travel 0..64000, window 4000..60000, band 0..1000.00 pF). *)
Definition motor1 : MotorController := defaultMotor 4096 8192.
Definition motor2 : MotorController := defaultMotor 12288 16384.

Definition board0 : Board :=
  {| M1 := motor1; M2 := motor2; matcherInfo := defaultMatcherInfo |}.

(** The motor after the console command msl with the values
    [min,max,lower,upper]: the four numbers are stored in the limit fields
    as they are given. *)
Definition withLimits (m : MotorController) (minVal maxVal lowerLimitVal upperLimitVal : Z)
  : MotorController := {|
  gpioOutBase := gpioOutBase m;
  gpioInBase := gpioInBase m;
  gpioInitialized := gpioInitialized m;
  posOffset := posOffset m;
  minValue := minVal;
  maxValue := maxVal;
  lowerLimit := lowerLimitVal;
  upperLimit := upperLimitVal;
  minCap := minCap m;
  maxCap := maxCap m;
  fitCoeffs := fitCoeffs m;
  NOW_POS := NOW_POS m;
  NOW_RPM := NOW_RPM m
|}.

(** Motor 1 after [msl 0 0,64000,60000,4000]: the lower limit above the
    upper one. *)
Definition invertedMotor : MotorController := withLimits motor1 0 64000 60000 4000.

Definition is_nan64 (x : float) : bool := PrimFloat.is_nan x.

(** A sensor whose four FFT buffers hold zeros (no RF applied), with the
    hold acknowledged at the first poll (bit 31 of the status word set,
    write index 0), unit gains and the default average count. *)
Definition quietSensor : RFSensor.Sensor := {|
  RFSensor.fftLength := 1024;
  RFSensor.gate_gpio_base_ := 20480;
  RFSensor.cal_ := {| RFSensor.voltageGain := flt 1.0;
                      RFSensor.currentGain := flt 1.0;
                      RFSensor.phaseDiffRad := flt 0.0 |};
  RFSensor.avgCount_ := 512;
  RFSensor.v_re := fun _ => flt 0.0;
  RFSensor.v_im := fun _ => flt 0.0;
  RFSensor.i_re := fun _ => flt 0.0;
  RFSensor.i_im := fun _ => flt 0.0;
  RFSensor.gate_status := fun _ => 2147483648%Z
|}.

(** A matched load as both sensors report it: 50 + 0j. *)
Definition matchedSample : RFSensor.AveragedImpedanceResults := {|
  RFSensor.voltageMagnitude := flt 1.0;
  RFSensor.currentMagnitude := flt 0.02;
  RFSensor.impedanceMagnitude := flt 50.0;
  RFSensor.impedancePhaseDeg := flt 0.0;
  RFSensor.resistanceR := flt 50.0;
  RFSensor.reactanceX := flt 0.0
|}.

Definition matchedEnv : DebugMode.TickEnv := {|
  DebugMode.impSample_i := matchedSample;
  DebugMode.impSample_o := matchedSample;
  DebugMode.viSample_i := matchedSample;
  DebugMode.viSample_o := matchedSample;
  DebugMode.amsSample_i := matchedSample;
  DebugMode.amsSample_o := matchedSample;
  DebugMode.goalsStack := staleGoals
|}.

(** The command [ams 10 <timeout>]: interval 10 ms, the given timeout. *)
Definition amsStart (timeout : Z) : DebugMode.AmsArgs := {|
  DebugMode.argc := 3;
  DebugMode.argv1_is_stop := false;
  DebugMode.atoi_argv1 := 10;
  DebugMode.atoi_argv2 := timeout;
  DebugMode.atoi_argv3 := 0
|}.

(** The shell after boot with both sensors and the board, the AMS started
    with the given timeout, and [n] passes of the loop on a matched load. *)
Definition afterStart (timeout : Z) (n : nat) : DebugMode.State :=
  DebugMode.runTicks n matchedEnv
    (fst (DebugMode.amsCommand (DebugMode.initialState true true (Some board0))
                               (amsStart timeout))).

(** The calibration of the specification's round-trip scenario on motor 1:
    fit coefficients (a0, a1, a2, a3) = (0, 100, 0, 0), travel 0..64000,
    window 4000..60000. *)
Definition refMotor : MotorController :=
  withFit motor1 (flt 0.0) (flt 100.0) (flt 0.0) (flt 0.0).

(** [getPositionFromCap(getCapacitanceAt(s))] *)
Definition roundTrip (m : MotorController) (s : Z) : Z :=
  getPositionFromCap m (getCapacitanceAt m s).

(** The round trip stays within [tol] steps on the [n] steps from [s].
    Successive steps mostly share their capacitance, so the position of
    the last capacitance is kept in [cache] and reused. *)
Fixpoint roundTripWithin (m : MotorController) (tol : Z) (n : nat) (s : Z)
         (cache : Z * Z) : bool :=
  match n with
  | O => true
  | S n' =>
      let c := getCapacitanceAt m s in
      let p := if (c =? fst cache)%Z then snd cache else getPositionFromCap m c in
      (Z.abs (p - s) <=? tol)%Z && roundTripWithin m tol n' (s + 1)%Z (c, p)
  end.

(** The contents of a three-word FRAM record. *)
Definition record3 {A : Type} (a b c : A) : nat -> A :=
  fun i => match i with O => a | S O => b | _ => c end.

End Probe.

(* ------------------------------------------------------------------------- *)
(** ** MotionBoard.hpp: the remaining GPIO operations of MotorController *)

Module MotorGpio.

Import Int MotionBoard.

(** The motor with the position word [gpioIn[0]] reading [raw]. *)
Definition presenting (m : MotorController) (raw : Z) : MotorController := {|
  gpioOutBase := gpioOutBase m;
  gpioInBase := gpioInBase m;
  gpioInitialized := gpioInitialized m;
  posOffset := posOffset m;
  minValue := minValue m;
  maxValue := maxValue m;
  lowerLimit := lowerLimit m;
  upperLimit := upperLimit m;
  minCap := minCap m;
  maxCap := maxCap m;
  fitCoeffs := fitCoeffs m;
  NOW_POS := raw;
  NOW_RPM := NOW_RPM m
|}.

(** [MotorController::initializeGpio]: the bases are stored before they are
    tested, and [gpioInitialized] is only ever set. *)
Definition initializeGpio (m : MotorController) (outGpioBase inGpioBase : Z)
  : Z * MotorController * list Effect :=
  let withBases (init : bool) : MotorController := {|
    gpioOutBase := outGpioBase;
    gpioInBase := inGpioBase;
    gpioInitialized := init;
    posOffset := posOffset m;
    minValue := minValue m;
    maxValue := maxValue m;
    lowerLimit := lowerLimit m;
    upperLimit := upperLimit m;
    minCap := minCap m;
    maxCap := maxCap m;
    fitCoeffs := fitCoeffs m;
    NOW_POS := NOW_POS m;
    NOW_RPM := NOW_RPM m |} in
  if (outGpioBase =? 0) || (inGpioBase =? 0) then
    (XST_FAILURE, withBases (gpioInitialized m), [])
  else
    (XST_SUCCESS, withBases true,
     [GpioStore outGpioBase 1 0; GpioStore outGpioBase 3 0;
      GpioStore inGpioBase 1 4294967295; GpioStore inGpioBase 3 4294967295]).

(** [MotorController::RunMotorForce]. *)
Definition RunMotorForce (m : MotorController) (targetPosition : Z)
           (printStatus : bool) (afterDelayMs : Z) : Z * list Effect :=
  if negb (gpioInitialized m) || (gpioOutBase m =? 0) then (XST_FAILURE, [])
  else
    let tarPosValue := to_u32 targetPosition in
    (XST_SUCCESS,
     [Printf "[MOTOR] FORCE MOVE to %d (bypassing limits %d~%d)"
        [AInt targetPosition; AInt (lowerLimit m); AInt (upperLimit m)]] ++
     (if printStatus
      then [Printf "Before: Pos=%u RPM=%u" [AInt (Pos m); AInt (RPM m)]]
      else []) ++
     [GpioStore (gpioOutBase m) 0 tarPosValue] ++
     (if printStatus
      then [Usleep (if afterDelayMs >? 0 then to_u32 (afterDelayMs * 1000) else 100);
            Printf "After:  Pos=%u RPM=%u" [AInt (Pos m); AInt (RPM m)]]
      else [])).

(** [((uint32_t)position) << 2] *)
Definition originBase (position : Z) : Z :=
  to_u32 (Z.shiftl (to_u32 position) 2).

(** [MotorController::SetMotorOrigin]. *)
Definition SetMotorOrigin (m : MotorController) (position : Z) : Z * list Effect :=
  if negb (gpioInitialized m) || (gpioOutBase m =? 0) then (XST_FAILURE, [])
  else
    let baseValue := originBase position in
    (XST_SUCCESS,
     [GpioStore (gpioOutBase m) 0 (to_u32 position);
      GpioStore (gpioOutBase m) 2 baseValue; Usleep 200;
      GpioStore (gpioOutBase m) 2 (Z.lor baseValue 1); Usleep 200;
      GpioStore (gpioOutBase m) 2 baseValue; Usleep 200]).

(** [MotorController::SetMotorOriginOnIndex]. *)
Definition SetMotorOriginOnIndex (m : MotorController) (position : Z)
  : Z * list Effect :=
  if negb (gpioInitialized m) || (gpioOutBase m =? 0) then (XST_FAILURE, [])
  else
    let baseValue := originBase position in
    (XST_SUCCESS,
     [GpioStore (gpioOutBase m) 2 baseValue; Usleep 200;
      GpioStore (gpioOutBase m) 2 (Z.lor baseValue 2); Usleep 200;
      GpioStore (gpioOutBase m) 2 baseValue; Usleep 200]).

(** The words a trace stores into word [w] of the block at [base], in
    order. *)
Fixpoint storesTo (base w : Z) (tr : list Effect) : list Z :=
  match tr with
  | [] => []
  | GpioStore b w' v :: tr' =>
      if (b =? base) && (w' =? w) then v :: storesTo base w tr'
      else storesTo base w tr'
  | _ :: tr' => storesTo base w tr'
  end.

(** *** The extended GPIO block (encoder index, stall flag, override RPM) *)

(** The private fields [extGpioBase], [extGpioInitialized],
    [overrideRpmValue]. *)
Record ExtGpio : Type := {
  extGpioBase : Z;
  extGpioInitialized : bool;
  overrideRpmValue : Z
}.

(** [MotorController::initializeExtGpio]. *)
Definition initializeExtGpio (x : ExtGpio) (extBase : Z) : Z * ExtGpio * list Effect :=
  if extBase =? 0 then
    (XST_FAILURE,
     {| extGpioBase := extBase; extGpioInitialized := false;
        overrideRpmValue := overrideRpmValue x |}, [])
  else
    (XST_SUCCESS,
     {| extGpioBase := extBase; extGpioInitialized := true; overrideRpmValue := 0 |},
     [GpioStore extBase 1 4294967295; GpioStore extBase 3 0; GpioStore extBase 2 0]).

(** [readIndexPos] and [isStallDetected], where [raw] is the word [gpio[0]]
    of the extended block reads. *)
Definition readIndexPos (x : ExtGpio) (raw : Z) : Z :=
  if negb (extGpioInitialized x) || (extGpioBase x =? 0) then 0
  else wrap32 (Z.land raw 2147483647).

Definition isStallDetected (x : ExtGpio) (raw : Z) : bool :=
  if negb (extGpioInitialized x) || (extGpioBase x =? 0) then false
  else negb (Z.land raw 2147483648 =? 0).

Definition setOverrideRpm (x : ExtGpio) (rpm : Z) : ExtGpio * list Effect :=
  if negb (extGpioInitialized x) || (extGpioBase x =? 0) then (x, [])
  else
    ({| extGpioBase := extGpioBase x; extGpioInitialized := extGpioInitialized x;
        overrideRpmValue := rpm |},
     [GpioStore (extGpioBase x) 2 rpm]).

Definition getOverrideRpm (x : ExtGpio) : Z := overrideRpmValue x.

(** *** rewindMotor *)

Definition MOTOR_REWIND_TARGET : Z := -100000.
Definition MOTOR_REWIND_POLL_MS : Z := 10.
Definition MOTOR_REWIND_OFFSET : Z := 1000.
Definition MOTOR_REWIND_TIMEOUT_MS : Z := 25000.
Definition MOTOR_REWIND_THRESHOLD : Z := 15.
Definition MOTOR_REWIND_STALL_COUNT : Z := 2.
Definition MOTOR_REWIND_PRINT_INTERVAL : Z := 10.
Definition MOTOR_REWIND_OVERRIDE_RPM : Z := 30.

Record RewindResult : Type := {
  completed : bool;
  finalPos : Z;
  movement : Z
}.

(** The polling loop of [rewindMotor].  [raw k] is what the position word
    reads at the [k]-th read of the function; the state is the locals
    [elapsedMs], [printCounter], [stallCount], [prevPos], [currentPos] and the
    number [k] of reads made so far.  Returns [completed], the last
    [currentPos], the number of reads and the effects.  [fuel] bounds the
    number of passes. *)
Fixpoint rewindLoop (m : MotorController) (raw : nat -> Z) (fuel : nat)
         (elapsedMs printCounter stallCount prevPos currentPos : Z) (k : nat)
  : bool * Z * nat * list Effect :=
  match fuel with
  | O => (false, currentPos, k, [])
  | S fuel' =>
    if negb (elapsedMs <? MOTOR_REWIND_TIMEOUT_MS) then (false, currentPos, k, [])
    else
      let elapsedMs := wrap32 (elapsedMs + MOTOR_REWIND_POLL_MS) in
      let printCounter := wrap32 (printCounter + 1) in
      let currentPos := readPos (presenting m (raw k)) in
      let diff := wrap32 (prevPos - currentPos) in
      let doPrint := printCounter >=? MOTOR_REWIND_PRINT_INTERVAL in
      let trPrint :=
        if doPrint
        then [Printf "[%d] P=%d D=%d" [AInt elapsedMs; AInt currentPos; AInt diff]]
        else [] in
      let printCounter := if doPrint then 0 else printCounter in
      let trPoll := Usleep (MOTOR_REWIND_POLL_MS * 1000) :: trPrint in
      if diff <? MOTOR_REWIND_THRESHOLD then
        let stallCount := wrap32 (stallCount + 1) in
        let trStall :=
          [Printf "Stall? D=%d %d/%d"
             [AInt diff; AInt stallCount; AInt MOTOR_REWIND_STALL_COUNT]] in
        if stallCount >=? MOTOR_REWIND_STALL_COUNT then
          let stopPos := wrap32 (currentPos + MOTOR_REWIND_OFFSET) in
          (true, currentPos, S k,
           trPoll ++ trStall ++
           [GpioStore (gpioOutBase m) 0 (to_u32 stopPos);
            Printf "STALL! P=%d" [AInt currentPos]])
        else
          let '(c, p, k', tr) :=
            rewindLoop m raw fuel' elapsedMs printCounter stallCount
                       currentPos currentPos (S k) in
          (c, p, k', trPoll ++ trStall ++ tr)
      else
        let '(c, p, k', tr) :=
          rewindLoop m raw fuel' elapsedMs printCounter 0
                     currentPos currentPos (S k) in
        (c, p, k', trPoll ++ tr)
  end.

(** Passes the loop can make before [elapsedMs] reaches the timeout. *)
Definition rewindPasses : nat := Z.to_nat 2500.

(** [MotorController::rewindMotor]: the result, the extended block
    afterwards and the effects. *)
Definition rewindMotor (m : MotorController) (x : ExtGpio) (raw : nat -> Z)
  : RewindResult * ExtGpio * list Effect :=
  if negb (gpioInitialized m) || (gpioOutBase m =? 0) then
    ({| completed := false; finalPos := readPos (presenting m (raw 0%nat));
        movement := 0 |}, x, [])
  else
    let startPos := readPos (presenting m (raw 0%nat)) in
    let '(x1, trRpm) := setOverrideRpm x MOTOR_REWIND_OVERRIDE_RPM in
    let trForce := snd (RunMotorForce m MOTOR_REWIND_TARGET false 0) in
    let prevPos := readPos (presenting m (raw 1%nat)) in
    let '(done, currentPos, k, trLoop) :=
      rewindLoop m raw rewindPasses 0 0 0 prevPos prevPos 2%nat in
    let '(x2, trClear) := setOverrideRpm x1 0 in
    let final := readPos (presenting m (raw k)) in
    let mv := wrap32 (startPos - final) in
    let mv := if mv <? 0 then wrap32 (- mv) else mv in
    ({| completed := done; finalPos := final; movement := mv |}, x2,
     [Printf "RW P=%d T=%d Thr=%d"
        [AInt startPos; AInt MOTOR_REWIND_TARGET; AInt MOTOR_REWIND_THRESHOLD]] ++
     trRpm ++ [Usleep 10000] ++ trForce ++ [Usleep 50000] ++
     trLoop ++
     [Usleep 100000] ++ trClear ++ [Usleep 10000] ++
     [Printf "RW %s P=%d M=%d"
        [AStr (if done then "OK" else "TO"); AInt final; AInt mv]]).

(** What the [k]-th read of the position gives, and whether poll [i] of the
    loop (whose read is the [(i+1)]-th, the one before it the [i]-th) saw a
    movement below the threshold. *)
Definition polled (m : MotorController) (raw : nat -> Z) (k : nat) : Z :=
  readPos (presenting m (raw k)).

Definition slow (m : MotorController) (raw : nat -> Z) (i : nat) : bool :=
  wrap32 (polled m raw i - polled m raw (S i)) <? MOTOR_REWIND_THRESHOLD.

End MotorGpio.
(* ------------------------------------------------------------------------- *)
(** ** Characters and C strings

    A [char] is its code, an integer in 0..255; a buffer is the list of its
    cells. *)

Module CStr.

(** The codes of the characters of a literal. *)
Definition str (s : string) : list Z :=
  map (fun a => Z.of_N (Ascii.N_of_ascii a)) (list_ascii_of_string s).

(** The text of a buffer for printing. *)
Definition text (l : list Z) : string :=
  string_of_list_ascii (map (fun c => Ascii.ascii_of_N (Z.to_N c)) l).

(** [strcmp(a, b) == 0] on strings given without their terminator. *)
Fixpoint streq (a b : list Z) : bool :=
  match a, b with
  | [], [] => true
  | x :: a', y :: b' => (x =? y) && streq a' b'
  | _, _ => false
  end.

(** The string a buffer holds: its cells up to the first NUL. *)
Fixpoint cstring (buf : list Z) : list Z :=
  match buf with
  | [] => []
  | c :: buf' => if c =? 0 then [] else c :: cstring buf'
  end.

(** [buf[i] = v] for [i] inside the buffer. *)
Definition store (buf : list Z) (i : Z) (v : Z) : list Z :=
  firstn (Z.to_nat i) buf ++ v :: skipn (S (Z.to_nat i)) buf.

End CStr.

(* ------------------------------------------------------------------------- *)
(** ** Communication.hpp: the UART receive path *)

Module Communication.

Import CStr.

Definition UART_RX_BUF_SIZE : Z := 1024.

(** The static state of the namespace. *)
Record RxState : Type := {
  Rx_buf : list Z;
  Rx_buf_copy : list Z;
  bUart0_BufIndex : Z;        (* uint16_t *)
  wUart0_TimeOut : Z;
  Recv_Complete : bool
}.

(** The body of the receive loop of [handler_uart_impl] for one word read
    from the FIFO register. *)
Definition receive (s : RxState) (receivedByte : Z) : RxState :=
  if receivedByte =? 13 then
    {| Rx_buf := Rx_buf s; Rx_buf_copy := Rx_buf_copy s;
       bUart0_BufIndex := bUart0_BufIndex s; wUart0_TimeOut := 0;
       Recv_Complete := true |}
  else if receivedByte =? 10 then
    {| Rx_buf := Rx_buf s; Rx_buf_copy := Rx_buf_copy s;
       bUart0_BufIndex := bUart0_BufIndex s; wUart0_TimeOut := 0;
       Recv_Complete := Recv_Complete s |}
  else if bUart0_BufIndex s <? (UART_RX_BUF_SIZE - 1) mod 65536 then
    {| Rx_buf := store (Rx_buf s) (bUart0_BufIndex s) (receivedByte mod 256);
       Rx_buf_copy := Rx_buf_copy s;
       bUart0_BufIndex := (bUart0_BufIndex s + 1) mod 65536;
       wUart0_TimeOut := 0;
       Recv_Complete := Recv_Complete s |}
  else
    {| Rx_buf := Rx_buf s; Rx_buf_copy := Rx_buf_copy s;
       bUart0_BufIndex := bUart0_BufIndex s; wUart0_TimeOut := 0;
       Recv_Complete := Recv_Complete s |}.

(** [handler_uart_impl]: [fifo] holds the words the FIFO register gives
    until the status register reports it empty; [raw_isr_status] and [imr]
    are what the two interrupt registers read.  Returns the state and the
    word written back to the interrupt status register. *)
Definition handler_uart_impl (s : RxState) (raw_isr_status imr : Z) (fifo : list Z)
  : RxState * Z :=
  let isr_status := Z.land raw_isr_status imr in
  (fold_left receive fifo s, raw_isr_status).

Definition resetCommandState (s : RxState) : RxState :=
  {| Rx_buf := repeat 0 (Z.to_nat UART_RX_BUF_SIZE);
     Rx_buf_copy := repeat 0 (Z.to_nat UART_RX_BUF_SIZE);
     bUart0_BufIndex := 0;
     wUart0_TimeOut := wUart0_TimeOut s;
     Recv_Complete := false |}.

Definition getRxBuffer (s : RxState) : list Z := Rx_buf s.
Definition getRxBufferIndex (s : RxState) : Z := bUart0_BufIndex s.
Definition isReceiveComplete (s : RxState) : bool := Recv_Complete s.

(** The bytes of a FIFO sequence that are neither CR nor LF, as characters. *)
Definition payload (fifo : list Z) : list Z :=
  map (fun w => w mod 256)
      (filter (fun w => negb (w =? 13) && negb (w =? 10)) fifo).

(** The receive buffer as a prefix of received characters followed by
    zeros. *)
Definition holds (s : RxState) (pre : list Z) : Prop :=
  Rx_buf s = pre ++ repeat 0 (1024 - List.length pre) /\
  bUart0_BufIndex s = Z.of_nat (List.length pre) /\
  (List.length pre <= 1023)%nat.

End Communication.

(* ------------------------------------------------------------------------- *)
(** ** DebugMode.hpp: the command console *)

Module Console.

Import CStr.

(** What [runCommandLoop] hands to [processCommand]: the first
    [min(len, 255)] cells of the receive buffer, NUL-terminated. *)
Definition commandBuffer (s : Communication.RxState) : list Z :=
  let len := Communication.getRxBufferIndex s in
  let copyLen := if len <? 255 then len else 255 in
  firstn (Z.to_nat copyLen) (Communication.getRxBuffer s) ++ [0].

Definition isBlank (c : Z) : bool :=
  (c =? 32) || (c =? 9) || (c =? 13) || (c =? 10).

(** The tokenizing loop of [processCommand]: [tokens] are the
    [tokenCount] finished rows of [char tokens[16][64]], [cur] the
    [currentLen] characters written to the current row. *)
Fixpoint tokenizeLoop (p : list Z) (tokens : list (list Z)) (cur : list Z)
  : list (list Z) * list Z :=
  match p with
  | [] => (tokens, cur)
  | c :: p' =>
      if (c =? 0) || negb (Z.of_nat (List.length tokens) <? 16) then (tokens, cur)
      else if isBlank c then
        if 0 <? Z.of_nat (List.length cur) then tokenizeLoop p' (tokens ++ [cur]) []
        else tokenizeLoop p' tokens cur
      else if Z.of_nat (List.length cur) <? 63 then tokenizeLoop p' tokens (cur ++ [c])
      else tokenizeLoop p' tokens cur
  end.

(** The rows (and their count) after the loop and the closing of the last
    token. *)
Definition tokenize (cmd : list Z) : list (list Z) :=
  let '(tokens, cur) := tokenizeLoop cmd [] [] in
  if 0 <? Z.of_nat (List.length cur) then tokens ++ [cur] else tokens.

Definition lowerChar (c : Z) : Z :=
  if (c >=? 65) && (c <=? 90) then (c + 32) mod 256 else c.

(** [expandAbbreviations]: the first 63 characters of every argument are
    put in lower case. *)
Definition expandAbbreviations (argv : list (list Z)) : list (list Z) :=
  map (fun arg => map lowerChar (firstn 63 arg) ++ skipn 63 arg) argv.

(** Where [executeCommand] sends a command. *)
Inductive Route : Type :=
| RNone            (* argc == 0 *)
| RHelp            (* printHelp *)
| RAutoMode        (* setAutoMatchingMode *)
| RDevice          (* handleDeviceCommand *)
| RRf              (* handleRfCommand *)
| RMotor           (* handleMotorCommand *)
| RAutoMatch       (* handleAutoMatchCommand *)
| RUnknown.        (* "Unknown command" *)

Definition named (cmd : list Z) (name : string) : bool := streq cmd (str name).

Definition executeCommand (argv : list (list Z)) : Route :=
  match argv with
  | [] => RNone
  | cmd :: _ =>
    if named cmd "dh" then RHelp
    else if named cmd "da" then RAutoMode
    else if named cmd "dsi" || named cmd "dgi" || named cmd "dfb" || named cmd "dfr" ||
            named cmd "dfw" then RDevice
    else if named cmd "ri" || named cmd "rrs" || named cmd "rf" || named cmd "rrv" ||
            named cmd "rz" || named cmd "rk" || named cmd "rr" || named cmd "rsc" ||
            named cmd "rgc" || named cmd "rsa" || named cmd "rga" then RRf
    else if named cmd "mi" || named cmd "mr" || named cmd "mf" || named cmd "mo" ||
            named cmd "mgp" || named cmd "msc" || named cmd "mst" || named cmd "mgs" ||
            named cmd "msd" || named cmd "msl" || named cmd "mgl" || named cmd "mfc" ||
            named cmd "mrp" || named cmd "mss" || named cmd "msg" || named cmd "mgi" ||
            named cmd "mor" || named cmd "mfi" || named cmd "moi" || named cmd "mrw" ||
            named cmd "mis" || named cmd "msw" || named cmd "mhr" then RMotor
    else if named cmd "amc" || named cmd "amg" || named cmd "amr" || named cmd "ams" ||
            named cmd "asv" || named cmd "agv" then RAutoMatch
    else RUnknown
  end.

(** The branch each handler takes for a command name: the name of the
    branch, or [None] for the handler's closing "Unknown ... command". *)
Fixpoint branchOf (names : list string) (cmd : list Z) : option string :=
  match names with
  | [] => None
  | n :: names' => if named cmd n then Some n else branchOf names' cmd
  end.

(** The [strcmp] chains of the four handlers, in source order. *)
Definition handleDeviceCommand_branch : list Z -> option string :=
  branchOf ["dsi"; "dgi"; "dfb"; "dfr"; "dfw"]%string.

Definition handleRfCommand_branch : list Z -> option string :=
  branchOf ["ri"; "rrs"; "rf"; "rrv"; "rsc"; "rgc"; "rk"; "rr"; "rz"; "rsa";
            "rga"]%string.

Definition handleAutoMatchCommand_branch : list Z -> option string :=
  branchOf ["amc"; "amg"; "amr"; "ams"; "asv"; "agv"; "ass"; "ags"]%string.

Definition handleMotorCommand_branch : list Z -> option string :=
  branchOf ["mi"; "mr"; "mf"; "mo"; "mgp"; "msc"; "mst"; "msl"; "mgl"; "mfc";
            "mgs"; "msd"; "mrp"; "mss"; "msg"; "mgi"; "mis"; "mor"; "mfi";
            "moi"; "mrw"; "msw"; "mhr"]%string.

(** [processCommand]: the echo and, unless the command is empty or has no
    token, the arguments passed to [executeCommand] and the route taken. *)
Definition processCommand (cmd : list Z)
  : list Effect * option (list (list Z) * Route) :=
  if (Z.of_nat (List.length (cstring cmd)) =? 0) then ([], None)
  else
    let echo := [Printf "> %s" [AStr (text (cstring cmd))]] in
    let tokens := tokenize cmd in
    if Z.of_nat (List.length tokens) =? 0 then (echo, None)
    else
      let argv := expandAbbreviations tokens in
      (echo, Some (argv, executeCommand argv)).

(** *** The hexadecimal arguments of dfr and dfw *)

(** [(c >= 'A') ? (c - 'A' + 10) : (c >= 'a') ? (c - 'a' + 10) : (c - '0')],
    stored in a [u8]. *)
Definition hexNibble (c : Z) : Z :=
  (if c >=? 65 then c - 65 + 10
   else if c >=? 97 then c - 97 + 10
   else c - 48) mod 256.

(** [buffer[k] = (high << 4) | low] *)
Definition hexByte (highNibble lowNibble : Z) : Z :=
  (Z.lor (Z.shiftl (hexNibble highNibble) 4) (hexNibble lowNibble)) mod 256.

(** The inner loop of dfr: up to [CHUNK_SIZE] bytes parsed from the
    characters of [hexData] from [hexIdx] on; returns the chunk and the new
    [hexIdx].  A character read at or after the end of the string is its
    terminator, 0. *)
Fixpoint dfrChunk (hexData : list Z) (hexIdx : nat) (room : nat) : list Z * nat :=
  match room with
  | O => ([], hexIdx)
  | S room' =>
      if (Z.of_nat hexIdx <? Z.of_nat (List.length hexData)) then
        let b := hexByte (nth hexIdx hexData 0) (nth (S hexIdx) hexData 0) in
        let '(bytes, idx') := dfrChunk hexData (S (S hexIdx)) room' in
        (b :: bytes, idx')
      else ([], hexIdx)
  end.

Definition CHUNK_SIZE : nat := 32.

(** The outer loop of dfr with every [framWrite] succeeding: the
    [(addr, bytes)] of the writes, in order.  [fuel] bounds the number of
    chunks. *)
Fixpoint dfrWrites (hexData : list Z) (fuel : nat) (addr : Z) (hexIdx : nat)
  : list (Z * list Z) :=
  match fuel with
  | O => []
  | S fuel' =>
      if (Z.of_nat hexIdx <? Z.of_nat (List.length hexData)) then
        let '(bytes, idx') := dfrChunk hexData hexIdx CHUNK_SIZE in
        (addr, bytes) :: dfrWrites hexData fuel' ((addr + Z.of_nat (List.length bytes)) mod 65536) idx'
      else []
  end.

(** The dfr branch of [handleDeviceCommand] with a board present and a
    FRAM that accepts every write: [None] when the command stops at one of
    its checks, else the writes it makes. *)
Definition dfr (argv : list (list Z)) : option (list (Z * list Z)) :=
  if Z.of_nat (List.length argv) <? 3 then None
  else
    let hexData := nth 2 argv [] in
    let hexLen := Z.of_nat (List.length hexData) in
    let byteCount := Z.quot hexLen 2 in
    if negb (Z.rem hexLen 2 =? 0) then None
    else if byteCount >? 512 then None
    else Some (dfrWrites hexData (List.length hexData) 0 0).

(** The two characters ["%02X"] prints for a byte, and the digits
    ["0123456789ABCDEF"]. *)
Definition hexDigit (d : Z) : Z := if d <? 10 then 48 + d else 55 + d.
Definition printHex2 (b : Z) : list Z := [hexDigit (b / 16); hexDigit (b mod 16)].

(** Whether the byte [b] printed by ["%02X"] is read back by [hexByte]:
    as printed, and after the console has put the digits in lower case,
    where a low digit a..f comes back with bit 5 set. *)
Definition hexReadBack (b : Z) : bool :=
  (hexByte (hexDigit (b / 16)) (hexDigit (b mod 16)) =? b) &&
  (hexByte (lowerChar (hexDigit (b / 16))) (lowerChar (hexDigit (b mod 16))) =?
   (if 10 <=? b mod 16 then Z.lor b 32 else b)).

(** A line of words separated by single spaces. *)
Definition joinWords (words : list (list Z)) : list Z :=
  match words with
  | [] => []
  | w :: ws => w ++ flat_map (fun w' => 32 :: w') ws
  end.

(** A word the tokenizer can hold in one row: 1 to 63 characters, none of
    them NUL or blank. *)
(** A character a token can hold, and a token as [processCommand] leaves
    it. *)
Definition isTokenChar (c : Z) : Prop := c <> 0 /\ isBlank c = false.

Definition isToken (t : list Z) : Prop :=
  (1 <= List.length t <= 63)%nat /\ Forall isTokenChar t.

End Console.
(* ------------------------------------------------------------------------- *)
(** ** MotionBoard.hpp: the I2C protocol of the motion board *)

Module Teensy.

Definition CMD_READ_REG : Z := 1.
Definition CMD_WRITE_REG : Z := 2.
Definition CMD_GET_STATUS : Z := 4.
Definition CMD_FRAM_READ : Z := 8.
Definition CMD_FRAM_WRITE : Z := 9.

(** What happens on the bus. *)
Inductive I2cOp : Type :=
| Send (addr : Z) (bytes : list Z)   (* XIicPs_MasterSendPolled *)
| Recv (addr : Z) (len : Z)          (* XIicPs_MasterRecvPolled *)
| Sleep (us : Z).

(** How the bus answers one command: the status of the send, the status of
    the receive (0 is XST_SUCCESS) and the contents of [u8 rxBuf[256]]
    after the receive. *)
Record Reply : Type := {
  sendStatus : Z;
  recvStatus : Z;
  rx : list Z
}.

(** [rxBuf[i]] *)
Definition rxBuf (r : Reply) (i : nat) : Z := nth i (rx r) 0.

(** [rxBuf[i] | (rxBuf[i+1] << 8)] stored in a [u16]. *)
Definition word16 (r : Reply) (i : nat) : Z :=
  (Z.lor (rxBuf r i) (Z.shiftl (rxBuf r (S i)) 8)) mod 65536.

(** [MotionBoard::readReg]: the status and the value stored through
    [val] (untouched, [None], when the transfer fails). *)
Definition readReg (boardAddr spi reg : Z) (r : Reply) : Z * option Z * list I2cOp :=
  let tx := [CMD_READ_REG; spi; reg] in
  if negb (sendStatus r =? 0) then (-1, None, [Send boardAddr tx])
  else if negb (recvStatus r =? 0) then (-1, None, [Send boardAddr tx; Recv boardAddr 2])
  else (0, Some (word16 r 0), [Send boardAddr tx; Recv boardAddr 2]).

(** The frame of [MotionBoard::writeReg]. *)
Definition writeRegFrame (spi reg val : Z) : list Z :=
  [CMD_WRITE_REG; spi; reg; Z.land val 255; Z.land (Z.shiftr val 8) 255].

Definition writeReg (boardAddr spi reg val : Z) (r : Reply) : Z * list I2cOp :=
  let tx := writeRegFrame spi reg val in
  if negb (sendStatus r =? 0) then (-1, [Send boardAddr tx])
  else if negb (recvStatus r =? 0) then (-1, [Send boardAddr tx; Recv boardAddr 1])
  else ((if rxBuf r 0 =? 0 then 0 else -1), [Send boardAddr tx; Recv boardAddr 1]).

(** [MotionBoard::getStatus]: the eight registers. *)
Definition getStatus (boardAddr spi : Z) (r : Reply) : Z * option (list Z) * list I2cOp :=
  let tx := [CMD_GET_STATUS; spi] in
  if negb (sendStatus r =? 0) then (-1, None, [Send boardAddr tx])
  else if negb (recvStatus r =? 0) then (-1, None, [Send boardAddr tx; Recv boardAddr 16])
  else (0, Some (map (fun i => word16 r (2 * i)) (seq 0 8)),
        [Send boardAddr tx; Recv boardAddr 16]).

(** The header of a FRAM command: the command, the address high byte
    first, the length. *)
Definition framHeader (cmd framAddr len : Z) : list Z :=
  [cmd; Z.land (Z.shiftr framAddr 8) 255; Z.land framAddr 255; len].

(** [MotionBoard::framWrite] for [len] up to 252, where the frame fits
    [u8 txBuf[256]]. *)
Definition framWrite (boardAddr framAddr len : Z) (data : list Z) (r : Reply)
  : Z * list I2cOp :=
  let tx := framHeader CMD_FRAM_WRITE framAddr len ++ firstn (Z.to_nat len) data in
  if negb (sendStatus r =? 0) then (-1, [Send boardAddr tx])
  else if negb (recvStatus r =? 0) then
    (-1, [Send boardAddr tx; Sleep 5000; Recv boardAddr 1])
  else ((if rxBuf r 0 =? 0 then 0 else -1),
        [Send boardAddr tx; Sleep 5000; Recv boardAddr 1]).

(** [MotionBoard::framRead]: the status and the [len] bytes copied to
    [data], the ones after the header byte of the reply. *)
Definition framRead (boardAddr framAddr len : Z) (r : Reply)
  : Z * option (list Z) * list I2cOp :=
  let tx := framHeader CMD_FRAM_READ framAddr len in
  if negb (sendStatus r =? 0) then (-1, None, [Send boardAddr tx])
  else if negb (recvStatus r =? 0) then
    (-1, None, [Send boardAddr tx; Sleep 5000; Recv boardAddr (len + 1)])
  else (0, Some (map (fun i => rxBuf r (S i)) (seq 0 (Z.to_nat len))),
        [Send boardAddr tx; Sleep 5000; Recv boardAddr (len + 1)]).

End Teensy.

(* ------------------------------------------------------------------------- *)
(** ** MotionBoard.hpp: the FRAM address map and what each save writes *)

Module Fram.

Definition FRAM_ADDR_MODEL_NAME : Z := 0.
Definition FRAM_ADDR_MAKE_DATE : Z := 32.
Definition FRAM_ADDR_SERIAL_NUM : Z := 48.
Definition FRAM_ADDR_INPUT_CAL : Z := 80.
Definition FRAM_ADDR_OUTPUT_CAL : Z := 92.
Definition FRAM_ADDR_INDEX_POS : Z := 104.
Definition FRAM_ADDR_MOTOR_LIMITS : Z := 232.
Definition FRAM_ADDR_STREAM_SETTINGS : Z := 264.
Definition FRAM_ADDR_MOTOR_CAPS : Z := 284.
Definition FRAM_ADDR_MOTOR_FIT_COEFFS : Z := 300.
Definition FRAM_ADDR_VSWR_SETTINGS : Z := 332.
Definition FRAM_ADDR_AMS_SETTINGS : Z := 344.

(** [sizeof] of the fields of [struct MatcherInfo] and of the local arrays
    the save functions write from. *)
Definition sizeof_modelName : Z := 32.
Definition sizeof_makeDate : Z := 16.
Definition sizeof_serialNum : Z := 32.
Definition sizeof_cal : Z := 12.              (* float[3] *)
Definition sizeof_firstIndexPos : Z := 128.   (* int32_t[32] *)
Definition sizeof_motorLimits_row : Z := 16.  (* int32_t[4] *)
Definition sizeof_motorCaps : Z := 16.        (* int32_t[2][2] *)
Definition sizeof_motorFitCoeffs_row : Z := 16. (* float[4] *)
Definition sizeof_settings : Z := 12.         (* int32_t[3] or float[3] *)

(** A [framWrite(addr, len, _)] call. *)
Definition WriteCall : Type := (Z * Z)%type.

(** The save functions, as the [framWrite] calls they make; [ok k] says
    whether the [k]-th call of the function returns 0. *)
Definition saveModelName : list WriteCall := [(FRAM_ADDR_MODEL_NAME, sizeof_modelName)].
Definition saveMakeDate : list WriteCall := [(FRAM_ADDR_MAKE_DATE, sizeof_makeDate)].
Definition saveSerialNum : list WriteCall := [(FRAM_ADDR_SERIAL_NUM, sizeof_serialNum)].

Definition saveCalibrationInfo (ok : nat -> bool) : list WriteCall :=
  (FRAM_ADDR_INPUT_CAL, sizeof_cal) ::
  (if ok 0%nat then [(FRAM_ADDR_OUTPUT_CAL, sizeof_cal)] else []).

Definition saveFirstIndexPos : list WriteCall :=
  [(FRAM_ADDR_INDEX_POS, sizeof_firstIndexPos)].

(** [saveFirstIndexPos(motorIdx, pos)]: [None] when the index is refused;
    the address is a [u16]. *)
Definition saveFirstIndexPosAt (motorIdx : Z) : option WriteCall :=
  if (motorIdx <? 0) || (motorIdx >=? 32) then None
  else Some ((FRAM_ADDR_INDEX_POS + motorIdx * 4) mod 65536, 4).

Definition saveMotorLimits (ok : nat -> bool) : list WriteCall :=
  (FRAM_ADDR_MOTOR_LIMITS, sizeof_motorLimits_row) ::
  (if ok 0%nat
   then [((FRAM_ADDR_MOTOR_LIMITS + sizeof_motorLimits_row) mod 65536,
          sizeof_motorLimits_row)]
   else []).

Definition saveMotorCaps : list WriteCall := [(FRAM_ADDR_MOTOR_CAPS, sizeof_motorCaps)].

Definition saveMotorFitCoeffs (ok : nat -> bool) : list WriteCall :=
  (FRAM_ADDR_MOTOR_FIT_COEFFS, sizeof_motorFitCoeffs_row) ::
  (if ok 0%nat
   then [((FRAM_ADDR_MOTOR_FIT_COEFFS + sizeof_motorFitCoeffs_row) mod 65536,
          sizeof_motorFitCoeffs_row)]
   else []).

Definition saveStreamSettings : list WriteCall :=
  [(FRAM_ADDR_STREAM_SETTINGS, sizeof_settings)].
Definition saveVswrSettings : list WriteCall := [(FRAM_ADDR_VSWR_SETTINGS, sizeof_settings)].
Definition saveAmsSettings : list WriteCall := [(FRAM_ADDR_AMS_SETTINGS, sizeof_settings)].

(** The records of the map: each with the writes its save function makes
    when every write succeeds. *)
Definition records : list (string * list WriteCall) :=
  [("model name", saveModelName);
   ("make date", saveMakeDate);
   ("serial number", saveSerialNum);
   ("calibration", saveCalibrationInfo (fun _ => true));
   ("first index positions", saveFirstIndexPos);
   ("motor limits", saveMotorLimits (fun _ => true));
   ("stream settings", saveStreamSettings);
   ("motor capacitances", saveMotorCaps);
   ("motor fit coefficients", saveMotorFitCoeffs (fun _ => true));
   ("VSWR settings", saveVswrSettings);
   ("AMS settings", saveAmsSettings)]%string.

(** The bytes [addr .. addr + len - 1] of two writes do not meet. *)
Definition disjoint (a b : WriteCall) : bool :=
  (fst a + snd a <=? fst b) || (fst b + snd b <=? fst a).

(** Every write of one record is disjoint from every write of the records
    listed after it, and fits the 256-byte transmit buffer behind the
    4-byte header. *)
Fixpoint laidOut (rs : list (string * list WriteCall)) : bool :=
  match rs with
  | [] => true
  | (_, ws) :: rs' =>
      forallb (fun w => (0 <=? fst w) && (0 <? snd w) && (4 + snd w <=? 256) &&
                        forallb (fun r => forallb (disjoint w) (snd r)) rs') ws &&
      laidOut rs'
  end.

End Fram.

(* ------------------------------------------------------------------------- *)
(** ** The stream rates: MotionBoard::loadStreamSettings and the commands
    of DebugMode that set them *)

Module StreamControl.

Import DebugMode.

(** The three stream fields of [struct MatcherInfo]. *)
Record StreamSettings : Type := {
  impStreamRate : Z;
  viStreamRate : Z;
  motorPosStreamRate : Z
}.

(** The same fields as the constructor of [MotionBoard] sets them. *)
Definition defaultStreamSettings : StreamSettings :=
  {| impStreamRate := 100; viStreamRate := 100; motorPosStreamRate := 100 |}.

(** [MotionBoard::loadStreamSettings], with what [framRead] returned and
    left in [int32_t settings[3]]. *)
Definition loadStreamSettings (ret : Z) (settings : nat -> Z) (mi : StreamSettings)
  : Z * StreamSettings * list Effect :=
  let '(mi', tr) :=
    if negb (ret =? 0) then
      ({| impStreamRate := 100; viStreamRate := 100; motorPosStreamRate := 100 |},
       [Printf "[LOAD] Stream Settings: FRAM read failed, using defaults" []])
    else
      let imp := if (settings 0%nat >=? 10) && (settings 0%nat <=? 5000)
                 then settings 0%nat else 100 in
      let vi := if (settings 1%nat >=? 10) && (settings 1%nat <=? 5000)
                then settings 1%nat else 100 in
      let pos := if (settings 2%nat >=? 10) && (settings 2%nat <=? 5000)
                 then settings 2%nat else 100 in
      ({| impStreamRate := imp; viStreamRate := vi; motorPosStreamRate := pos |},
       [Printf "[LOAD] Stream Settings: imp=%d, vi=%d, motorPos=%d"
          [AInt imp; AInt vi; AInt pos]]) in
  (ret, mi',
   tr ++ [Printf "SST,%d,%d,EN" [AInt (impStreamRate mi'); AInt (viStreamRate mi')];
          Usleep 50000;
          Printf "MST,%d,EN" [AInt (motorPosStreamRate mi')];
          Usleep 50000]).

(** The stream fields of [class DebugMode] with one of them replaced. *)
Definition withRates (st : Streams) (imp_i imp_o vi_i vi_o pos : Z) : Streams :=
  {| impStreamEnabled_i_ := impStreamEnabled_i_ st;
     impStreamEnabled_o_ := impStreamEnabled_o_ st;
     viStreamEnabled_i_ := viStreamEnabled_i_ st;
     viStreamEnabled_o_ := viStreamEnabled_o_ st;
     motorPosStreamEnabled_ := motorPosStreamEnabled_ st;
     impStreamRate_i_ := imp_i; impStreamRate_o_ := imp_o;
     viStreamRate_i_ := vi_i; viStreamRate_o_ := vi_o;
     motorPosStreamRate_ := pos;
     lastImpStreamTime_i_ := lastImpStreamTime_i_ st;
     lastImpStreamTime_o_ := lastImpStreamTime_o_ st;
     lastViStreamTime_i_ := lastViStreamTime_i_ st;
     lastViStreamTime_o_ := lastViStreamTime_o_ st;
     lastMotorPosStreamTime_ := lastMotorPosStreamTime_ st |}.

Definition withEnables (st : Streams) (imp_i imp_o vi_i vi_o pos : bool) : Streams :=
  {| impStreamEnabled_i_ := imp_i; impStreamEnabled_o_ := imp_o;
     viStreamEnabled_i_ := vi_i; viStreamEnabled_o_ := vi_o;
     motorPosStreamEnabled_ := pos;
     impStreamRate_i_ := impStreamRate_i_ st;
     impStreamRate_o_ := impStreamRate_o_ st;
     viStreamRate_i_ := viStreamRate_i_ st;
     viStreamRate_o_ := viStreamRate_o_ st;
     motorPosStreamRate_ := motorPosStreamRate_ st;
     lastImpStreamTime_i_ := lastImpStreamTime_i_ st;
     lastImpStreamTime_o_ := lastImpStreamTime_o_ st;
     lastViStreamTime_i_ := lastViStreamTime_i_ st;
     lastViStreamTime_o_ := lastViStreamTime_o_ st;
     lastMotorPosStreamTime_ := lastMotorPosStreamTime_ st |}.

(** [rate >= 10 && rate <= 5000] *)
Definition rateOk (rate : Z) : bool := (rate >=? 10) && (rate <=? 5000).

(** The rrs command past its usage check ([argc >= 3]): [isInput] is
    whether [argv[1]] is "i", [run] whether [argv[2]] is "run", [rate]
    the value of [atoi(argv[3])] when [argc >= 4]. *)
Definition rrs (st : Streams) (isInput run : bool) (rate : option Z)
  : Streams * list Effect :=
  let st1 :=
    match rate with
    | Some rate =>
        if run && rateOk rate then
          if isInput
          then withRates st rate (impStreamRate_o_ st) (viStreamRate_i_ st)
                         (viStreamRate_o_ st) (motorPosStreamRate_ st)
          else withRates st (impStreamRate_i_ st) rate (viStreamRate_i_ st)
                         (viStreamRate_o_ st) (motorPosStreamRate_ st)
        else st
    | None => st
    end in
  (if isInput
   then withEnables st1 run (impStreamEnabled_o_ st1) (viStreamEnabled_i_ st1)
                    (viStreamEnabled_o_ st1) (motorPosStreamEnabled_ st1)
   else withEnables st1 (impStreamEnabled_i_ st1) run (viStreamEnabled_i_ st1)
                    (viStreamEnabled_o_ st1) (motorPosStreamEnabled_ st1),
   [SendAck "rrs" (if run then "RUN" else "STOP")]).

(** The rrv command, likewise. *)
Definition rrv (st : Streams) (isInput run : bool) (rate : option Z)
  : Streams * list Effect :=
  let st1 :=
    match rate with
    | Some rate =>
        if run && rateOk rate then
          if isInput
          then withRates st (impStreamRate_i_ st) (impStreamRate_o_ st) rate
                         (viStreamRate_o_ st) (motorPosStreamRate_ st)
          else withRates st (impStreamRate_i_ st) (impStreamRate_o_ st)
                         (viStreamRate_i_ st) rate (motorPosStreamRate_ st)
        else st
    | None => st
    end in
  (if isInput
   then withEnables st1 (impStreamEnabled_i_ st1) (impStreamEnabled_o_ st1) run
                    (viStreamEnabled_o_ st1) (motorPosStreamEnabled_ st1)
   else withEnables st1 (impStreamEnabled_i_ st1) (impStreamEnabled_o_ st1)
                    (viStreamEnabled_i_ st1) run (motorPosStreamEnabled_ st1),
   [SendAck "rrv" (if run then "RUN" else "STOP")]).

(** The mrp command past its usage check ([argc >= 2]). *)
Definition mrp (st : Streams) (run : bool) (rate : option Z) : Streams * list Effect :=
  let st1 :=
    match rate with
    | Some rate =>
        if run && rateOk rate
        then withRates st (impStreamRate_i_ st) (impStreamRate_o_ st)
                       (viStreamRate_i_ st) (viStreamRate_o_ st) rate
        else st
    | None => st
    end in
  (withEnables st1 (impStreamEnabled_i_ st1) (impStreamEnabled_o_ st1)
               (viStreamEnabled_i_ st1) (viStreamEnabled_o_ st1) run,
   [SendAck "mrp" (if run then "RUN" else "STOP")]).

(** The mss command past its usage check ([argc >= 4]); [board] is the
    stream settings of the board when [mBoard_] is set, [saved] whether
    [saveStreamSettings] returns 0. *)
Definition mss (st : Streams) (board : option StreamSettings) (saved : bool)
           (impRate viRate posRate : Z)
  : Streams * option StreamSettings * list Effect :=
  let imp_i := if rateOk impRate then impRate else impStreamRate_i_ st in
  let imp_o := if rateOk impRate then impRate else impStreamRate_o_ st in
  let vi_i := if rateOk viRate then viRate else viStreamRate_i_ st in
  let vi_o := if rateOk viRate then viRate else viStreamRate_o_ st in
  let pos := if rateOk posRate then posRate else motorPosStreamRate_ st in
  let st' := withRates st imp_i imp_o vi_i vi_o pos in
  let '(board', trSave) :=
    match board with
    | Some _ =>
        (Some {| impStreamRate := imp_i; viStreamRate := vi_i;
                 motorPosStreamRate := pos |},
         [Printf (if saved then "Stream Settings saved to FRAM"
                  else "Failed to save Stream Settings to FRAM") []])
    | None => (None, [])
    end in
  (st', board',
   trSave ++
   [Printf "Stream Settings: Imp=%dms, VI=%dms, Pos=%dms"
      [AInt imp_i; AInt vi_i; AInt pos];
    SendAck "mss" "OK"]).

(** [DebugMode::applyStreamSettingsFromBoard]. *)
Definition applyStreamSettingsFromBoard (st : Streams) (board : option StreamSettings)
  : Streams * list Effect :=
  match board with
  | Some mi =>
      (withRates st (impStreamRate mi) (impStreamRate mi) (viStreamRate mi)
                 (viStreamRate mi) (motorPosStreamRate mi),
       [Printf "DebugMode: Stream settings applied from FRAM" []])
  | None => (st, [])
  end.

(** The stream fields of the console and the stream settings of the
    board (when there is one). *)
Definition Config : Type := (Streams * option StreamSettings)%type.

(** What the firmware does to the stream fields: the constructors, then any
    sequence of the four commands, of loads from FRAM (whatever the FRAM
    holds), of applications of the board settings, of the stream blocks of
    [handleStreaming] and of exits from [runCommandLoop]. *)
Inductive reachableConfig : Config -> Prop :=
| cfg_init : forall hasBoard : bool,
    reachableConfig
      (streams (initialState true true None),
       if hasBoard then Some defaultStreamSettings else None)
| cfg_rrs : forall st b isInput run rate,
    reachableConfig (st, b) -> reachableConfig (fst (rrs st isInput run rate), b)
| cfg_rrv : forall st b isInput run rate,
    reachableConfig (st, b) -> reachableConfig (fst (rrv st isInput run rate), b)
| cfg_mrp : forall st b run rate,
    reachableConfig (st, b) -> reachableConfig (fst (mrp st run rate), b)
| cfg_mss : forall st b saved impRate viRate posRate,
    reachableConfig (st, b) ->
    reachableConfig (fst (fst (mss st b saved impRate viRate posRate)),
                     snd (fst (mss st b saved impRate viRate posRate)))
| cfg_load : forall st mi ret settings,
    reachableConfig (st, Some mi) ->
    reachableConfig (st, Some (snd (fst (loadStreamSettings ret settings mi))))
| cfg_apply : forall st b,
    reachableConfig (st, b) ->
    reachableConfig (fst (applyStreamSettingsFromBoard st b), b)
| cfg_tick : forall d env currentTime b,
    reachableConfig (streams d, b) ->
    reachableConfig (fst (streamBlocks d env currentTime), b)
| cfg_exit : forall st b,
    reachableConfig (st, b) ->
    reachableConfig (withEnables st false false false false false, b).

Definition inRange (rate : Z) : Prop := 10 <= rate <= 5000.

Definition ratesInRange (c : Config) : Prop :=
  inRange (impStreamRate_i_ (fst c)) /\ inRange (impStreamRate_o_ (fst c)) /\
  inRange (viStreamRate_i_ (fst c)) /\ inRange (viStreamRate_o_ (fst c)) /\
  inRange (motorPosStreamRate_ (fst c)) /\
  match snd c with
  | Some mi => inRange (impStreamRate mi) /\ inRange (viStreamRate mi) /\
               inRange (motorPosStreamRate mi)
  | None => True
  end.

End StreamControl.
(* ------------------------------------------------------------------------- *)
(** ** RFSensor.hpp: the block RAM readers *)

Module SensorIO.

Import Int.
Import RFSensor.

(** The same sensor in front of other block RAM contents. *)
Definition withBram (s : Sensor) (v_re' v_im' i_re' i_im' : Z -> f32) : Sensor := {|
  fftLength := fftLength s;
  gate_gpio_base_ := gate_gpio_base_ s;
  cal_ := cal_ s;
  avgCount_ := avgCount_ s;
  v_re := v_re';
  v_im := v_im';
  i_re := i_re';
  i_im := i_im';
  gate_status := gate_status s
|}.

(** [sqrtf], correctly rounded. *)
Definition sqrtf (x : f32) : f32 := SFsqrt F32.prec F32.emax x.

(** [sqrtf(r * r + i * i) * scale] with [scale = 1.0f / (float)fftLength]. *)
Definition scaledMagnitude (fftLength : Z) (r i : f32) : f32 :=
  let scale := (flt 1.0 / F32.of_int fftLength)%f32 in
  (sqrtf (r * r + i * i) * scale)%f32.

(** [!(mag == mag) || !(mag < 1e38f)] *)
Definition unusable (mag : f32) : bool :=
  negb (F32.eqb mag mag) || negb (mag <? flt 1e38)%f32.

(** [RFSensor::setFftMode]; [current] is the word read from [gpio[0]] of
    the block at [gpio4] (XPAR_AXI_GPIO_4_BASEADDR). *)
Definition setFftMode (gpio4 : Z) (current : Z) (fft_mode : bool) : list Effect :=
  [GpioStore gpio4 1 0;
   GpioStore gpio4 0 (if fft_mode then Z.lor current 1 else Z.land current 4294967294);
   Usleep 10000].

(** [for (int index = 0; index < fftLength; ++index)] of [getFftData],
    with [n] iterations left: the values stored in [fftMagBuffer]. *)
Fixpoint magnitudes (fftLength : Z) (re_vals im_vals : Z -> f32) (n : nat) (index : Z)
  : list f32 :=
  match n with
  | O => []
  | S n' =>
      let mag := scaledMagnitude fftLength (re_vals index) (im_vals index) in
      (if unusable mag then flt 0.0 else mag)
        :: magnitudes fftLength re_vals im_vals n' (index + 1)
  end.

(** [RFSensor::getFftData] ([getFftDataCurrent] is the same function on the
    current channel): the first [fftLength] entries of [fftMagBuffer], or
    [None] when a base address is null and the buffer is left alone, and the
    stores.  [bram_re] and [bram_im] are the base addresses, [current0] and
    [current1] the two reads of the mode word.  The wait for the hold only
    reads the status word. *)
Definition getFftData (s : Sensor) (gpio4 bram_re bram_im : Z)
           (re_vals im_vals : Z -> f32) (current0 current1 : Z)
  : option (list f32) * list Effect :=
  if (bram_re =? 0) || (bram_im =? 0) then (None, [])
  else
    (Some (magnitudes (fftLength s) re_vals im_vals (Z.to_nat (fftLength s)) 0),
     setFftMode gpio4 current0 true ++ setFftHold s true ++
     setFftHold s false ++ setFftMode gpio4 current1 false).

(** [RFSensor::measureDcValue]. *)
Definition measureDcValue (s : Sensor) (bram_base_re bram_base_im : Z)
           (re_vals im_vals : Z -> f32) : f32 * list Effect :=
  if (bram_base_re =? 0) || (bram_base_im =? 0) then (flt (-1.0), [])
  else
    let mag := scaledMagnitude (fftLength s) (re_vals 0) (im_vals 0) in
    (if unusable mag then flt (-1.0) else mag,
     setFftHold s true ++ setFftHold s false).

(** Neither a negative number nor minus infinity (a zero of either sign and
    NaN pass). *)
Definition notNegative (x : f32) : bool :=
  match x with
  | S754_infinity true => false
  | S754_finite true _ _ => false
  | _ => true
  end.

(** The sign bit is clear (NaN passes). *)
Definition signPlus (x : f32) : bool :=
  match x with
  | S754_zero s => negb s
  | S754_infinity s => negb s
  | S754_finite s _ _ => negb s
  | S754_nan => true
  end.

(** A finite number, not negative and below 1e38. *)
Definition clean (e : f32) : Prop :=
  F32.is_finite e = true /\ notNegative e = true /\ (e <? flt 1e38)%f32 = true.

(** [raw14 = (int32_t)(packed & 0x3FFFU); if (raw14 & 0x2000) raw14 -= (1 << 14);] *)
Definition raw14 (packed : Z) : Z :=
  let raw14 := Z.land packed 16383 in
  if negb (Z.land raw14 8192 =? 0) then wrap32 (raw14 - Z.shiftl 1 14) else raw14.

(** [lo_sum += raw14] over the words, [lo_sum] a 32-bit [long]. *)
Fixpoint loSum (words : Z -> Z) (n : nat) (index : Z) (lo_sum : Z) : Z :=
  match n with
  | O => lo_sum
  | S n' => loSum words n' (index + 1) (wrap32 (lo_sum + raw14 (words index)))
  end.

Fixpoint timeSamples (words : Z -> Z) (lo_mean : f32) (n : nat) (index : Z) : list Z :=
  match n with
  | O => []
  | S n' =>
      wrap32 (raw14 (words index) - F32.to_int32 lo_mean)
        :: timeSamples words lo_mean n' (index + 1)
  end.

(** [RFSensor::dumpTimeChannel]: the first [fftLength] entries of
    [timeBuffer] ([None] when the base address is null). *)
Definition dumpTimeChannel (s : Sensor) (dcRemove : bool) (bram_base_re : Z)
           (words : Z -> Z) : option (list Z) :=
  if bram_base_re =? 0 then None
  else
    let lo_mean :=
      if dcRemove
      then (F32.of_int (loSum words (Z.to_nat (fftLength s)) 0 0)
            / F32.of_int (fftLength s))%f32
      else flt 0.0 in
    Some (timeSamples words lo_mean (Z.to_nat (fftLength s)) 0).

End SensorIO.

(* ------------------------------------------------------------------------- *)
(** ** The stores of a trace *)

Module Stores.

Import RFSensor.

(** A store: block, word and value. *)
Definition Store : Type := (Z * Z * Z)%type.

(** The stores of a trace, in order.  A [Sample] stands for a call of
    [calculateAveragedImpedance(-1)] on the input or the output sensor,
    which holds and releases the gate of that sensor: it counts with the
    stores [sampling] gives for that call. *)
Fixpoint gpioStores (sampling : bool -> list Store) (tr : list Effect) : list Store :=
  match tr with
  | [] => []
  | GpioStore base word value :: tr' => (base, word, value) :: gpioStores sampling tr'
  | Sample isInput :: tr' => sampling isInput ++ gpioStores sampling tr'
  | _ :: tr' => gpioStores sampling tr'
  end.

(** The stores of [calculateAveragedImpedance(-1)] on the sensor [s]. *)
Definition samplingStores (lm : Libm) (s : Sensor) : list Store :=
  gpioStores (fun _ => []) (snd (calculateAveragedImpedance lm s (-1))).

(** The stores of the trace of a pass, with the sensors behind the two
    pointers. *)
Definition passStores (lm : Libm) (iSensor oSensor : Sensor) (tr : list Effect)
  : list Store :=
  gpioStores (fun isInput => samplingStores lm (if isInput then iSensor else oSensor)) tr.

(** A store holds or releases the gate of the sensor [s]: word 0 of its gate
    block takes 1 or 0. *)
Definition gateStore (s : Sensor) (st : Store) : Prop :=
  let '(base, word, value) := st in
  base = gate_gpio_base_ s /\ word = 0 /\ (value = 1 \/ value = 0).

(** A store is a target position for motor [m]: word 0 of its output block
    takes a position inside the soft window of the motor. *)
Definition targetInWindow (m : MotionBoard.MotorController) (st : Store) : Prop :=
  let '(base, word, value) := st in
  base = MotionBoard.gpioOutBase m /\ word = 0 /\
  exists position : Z,
    MotionBoard.lowerLimit m <= position <= MotionBoard.upperLimit m /\
    value = Int.to_u32 position.

(** A store is a target position inside the window of one of the motors
    of the board. *)
Definition inWindowOf (b : MotionBoard.Board) (st : Store) : Prop :=
  targetInWindow (MotionBoard.M1 b) st \/ targetInWindow (MotionBoard.M2 b) st.

End Stores.

(* ------------------------------------------------------------------------- *)
(** ** Concrete inputs for the further properties *)

Module Probe2.

(** Stand-ins for the three C library functions (the angle 0 throughout). *)
Definition flatLibm : RFSensor.Libm := {|
  RFSensor.atan2 := fun _ _ => 0%float;
  RFSensor.cosf := fun _ => flt 1.0;
  RFSensor.sinf := fun _ => flt 0.0
|}.

(** Block RAM contents that are zero inside a 1024-entry array and 7
    outside it. *)
Definition zeroInside (a : Z) : f32 :=
  if (0 <=? a) && (a <? 1024) then flt 0.0 else flt 7.0.

(** An extended GPIO block that is mapped, and position readings that
    stand still at 5000. *)
Definition extGpio0 : MotorGpio.ExtGpio := {|
  MotorGpio.extGpioBase := 24576;
  MotorGpio.extGpioInitialized := true;
  MotorGpio.overrideRpmValue := 0
|}.

Definition stillReadings : nat -> Z := fun _ => 5000.

(** The console after [rrs i run 7] (a rate that is refused) and
    [mss 250 6000 -1] on a board with the default settings: the stream
    fields and the settings of the board. *)
Definition afterMss : StreamControl.Config :=
  let st := fst (StreamControl.rrs
                   (DebugMode.streams (DebugMode.initialState true true None))
                   true true (Some 7)) in
  let r := StreamControl.mss st (Some StreamControl.defaultStreamSettings)
                             true 250 6000 (-1) in
  (fst (fst r), snd (fst r)).

(** The board with both motors standing at step 32000 (500 pF on the
    default band), and a pass of the loop on a mismatched load, 10 + 100j
    ohm at both sensors. *)
Definition midBoard : MotionBoard.Board := {|
  MotionBoard.M1 := MotorGpio.presenting Probe.motor1 32000;
  MotionBoard.M2 := MotorGpio.presenting Probe.motor2 32000;
  MotionBoard.matcherInfo := MotionBoard.defaultMatcherInfo
|}.

Definition mismatchedSample : RFSensor.AveragedImpedanceResults := {|
  RFSensor.voltageMagnitude := flt 1.0;
  RFSensor.currentMagnitude := flt 0.01;
  RFSensor.impedanceMagnitude := flt 100.5;
  RFSensor.impedancePhaseDeg := flt 84.29;
  RFSensor.resistanceR := flt 10.0;
  RFSensor.reactanceX := flt 100.0
|}.

Definition mismatchedEnv : DebugMode.TickEnv := {|
  DebugMode.impSample_i := mismatchedSample;
  DebugMode.impSample_o := mismatchedSample;
  DebugMode.viSample_i := mismatchedSample;
  DebugMode.viSample_o := mismatchedSample;
  DebugMode.amsSample_i := mismatchedSample;
  DebugMode.amsSample_o := mismatchedSample;
  DebugMode.goalsStack := Probe.staleGoals
|}.

(** The shell on [midBoard] right after the command [ams 10 5000]. *)
Definition startedMid : DebugMode.State :=
  fst (DebugMode.amsCommand (DebugMode.initialState true true (Some midBoard))
                            (Probe.amsStart 5000)).

End Probe2.

(* ------------------------------------------------------------------------- *)
(** ** The pacing of the AMS *)

Module AmsPacing.

Import DebugMode.

(** The pacing fields of the AMS are within the bounds its command sets:
    interval and log interval 1..1000, timeout 0 (none) or 100..60000, and
    the log counter below the log interval. *)
Definition pacingInvariant (d : State) : Prop :=
  1 <= amsInterval_ (ams d) <= 1000 /\
  1 <= amsLogInterval_ (ams d) <= 1000 /\
  (amsTimeout_ (ams d) = 0 \/ 100 <= amsTimeout_ (ams d) <= 60000) /\
  0 <= amsLogCounter_ (ams d) < amsLogInterval_ (ams d).

End AmsPacing.
(* ------------------------------------------------------------------------- *)
(** ** AutoMatchingMode.hpp *)

Module AutoMatchingMode.

Import Int.
Import MotionBoard.
Import RFSensor.

(** [class AutoMatchingMode]; [sensor_] says whether the sensor pointer is
    non-null, [mBoard_] is the board behind its pointer. *)
Record State : Type := {
  sensor_ : bool;
  mBoard_ : option Board;
  motorPosReportRate_ : Z;
  lastMotorPosReportTime_ : Z;
  loopCounter_ : Z
}.

(** The state the constructor builds. *)
Definition initialState (sensor : bool) (mBoard : option Board) : State := {|
  sensor_ := sensor;
  mBoard_ := mBoard;
  motorPosReportRate_ := 100;
  lastMotorPosReportTime_ := 0;
  loopCounter_ := 0
|}.

Definition setMotorPosReportRate (a : State) (rate : Z) : State :=
  if (rate >=? 10) && (rate <=? 5000) then
    {| sensor_ := sensor_ a; mBoard_ := mBoard_ a;
       motorPosReportRate_ := rate;
       lastMotorPosReportTime_ := lastMotorPosReportTime_ a;
       loopCounter_ := loopCounter_ a |}
  else a.

(** [AutoMatchingMode::AutoMatchStart]; [result] is what
    [calculateAveragedImpedance(-1)] returns if it is called. *)
Definition AutoMatchStart (a : State) (result : AveragedImpedanceResults)
  : State * list Effect :=
  let loopCounter' := to_u32 (loopCounter_ a + 1) in
  let currentTime := to_u32 (loopCounter' * 100) in
  let tr1 :=
    if sensor_ a
    then [Sample true;
          SendImpedance (resistanceR result) (reactanceX result)
                        (voltageMagnitude result) (currentMagnitude result)
                        (impedancePhaseDeg result) true]
    else [] in
  let due :=
    match mBoard_ a with
    | Some _ =>
        to_u32 (currentTime - lastMotorPosReportTime_ a)
          >=? to_u32 (motorPosReportRate_ a)
    | None => false
    end in
  ({| sensor_ := sensor_ a; mBoard_ := mBoard_ a;
      motorPosReportRate_ := motorPosReportRate_ a;
      lastMotorPosReportTime_ :=
        if due then currentTime else lastMotorPosReportTime_ a;
      loopCounter_ := loopCounter' |},
   tr1 ++
   match mBoard_ a with
   | Some b =>
       if due then
         [SendMotorPositionBoth
            (to_u32 (readPos (M1 b))) (getPositionPercent (M1 b)) (getCapacitance (M1 b))
            (to_u32 (readPos (M2 b))) (getPositionPercent (M2 b)) (getCapacitance (M2 b))]
       else []
   | None => []
   end).

(** [n] passes of the main loop, the [k]-th with the measurement
    [results k]; the passes done before are counted in [k]. *)
Fixpoint runPasses (n : nat) (results : nat -> AveragedImpedanceResults) (k : nat)
         (a : State) : State * list Effect :=
  match n with
  | O => (a, [])
  | S n' =>
      let '(a1, tr1) := AutoMatchStart a (results k) in
      let '(a2, tr2) := runPasses n' results (S k) a1 in
      (a2, tr1 ++ tr2)
  end.

(** The number of motor position reports in a trace. *)
Fixpoint reports (tr : list Effect) : Z :=
  match tr with
  | [] => 0
  | SendMotorPositionBoth _ _ _ _ _ _ :: tr' => 1 + reports tr'
  | _ :: tr' => reports tr'
  end.

(** The number of passes from one report to the next at a report rate:
    the rate in units of the 100 ms of a pass, rounded up. *)
Definition reportPeriod (rate : Z) : Z := (rate + 99) / 100.

End AutoMatchingMode.
(* ------------------------------------------------------------------------- *)
(** ** WebTerminal.hpp: datasets *)

Module WebTerminal.

Import Int.

(** [for (size_t i = idx; i < end; ++i)] of [printCommaSeparated], with
    [n] iterations left. *)
Fixpoint printChunk (data : list Z) (length : Z) (n : nat) (i : Z) : list Effect :=
  match n with
  | O => []
  | S n' =>
      Printf "%d" [AInt (nth (Z.to_nat i) data 0)]
        :: (if negb (i =? to_u32 (length - 1)) then [Printf "," []] else [])
        ++ printChunk data length n' (i + 1)
  end.

(** [while (idx < length)] of [printCommaSeparated]: [idx] and [end] are
    [size_t], 32 bits wide. *)
Fixpoint printChunks (data : list Z) (length : Z) (fuel : nat) (idx : Z) : list Effect :=
  match fuel with
  | O => []
  | S fuel' =>
      if idx <? length then
        let chunk := 64 in
        let end_ := to_u32 (idx + chunk) in
        let end_ := if end_ >? length then length else end_ in
        printChunk data length (Z.to_nat (end_ - idx)) idx
          ++ printChunks data length fuel' end_
      else []
  end.

(** [WebTerminal::printCommaSeparated(data, length)]; [fuel] bounds the
    passes of the outer loop. *)
Definition printCommaSeparated (data : list Z) (length : Z) (fuel : nat) : list Effect :=
  printChunks data length fuel 0.

(** [WebTerminal::printDataset]: the new value of [g_plotCounter] and the
    output. *)
Definition printDataset (g_plotCounter : Z) (caption : string) (data : list Z)
           (length : Z) (fuel : nat) : Z * list Effect :=
  (to_u32 (g_plotCounter + 1),
   [Printf "[Plot_%04lu: %s]" [AInt g_plotCounter; AStr caption];
    Printf "DataStart," []] ++
   printCommaSeparated data length fuel ++
   [Printf ",DataEnd" []]).

(** The values of a list, one [%d] each, with a comma between two of
    them. *)
Fixpoint commaJoin (data : list Z) : list Effect :=
  match data with
  | [] => []
  | v :: rest =>
      Printf "%d" [AInt v]
        :: match rest with
           | [] => []
           | _ :: _ => Printf "," [] :: commaJoin rest
           end
  end.

End WebTerminal.
(* ========================================================================= *)
(** * Properties *)

Import Int MotionBoard Probe.

(** ** Integer helpers *)

Lemma wrap32_range (z : Z) : INT32_MIN <= wrap32 z <= INT32_MAX.
Proof.
  unfold wrap32, INT32_MIN, INT32_MAX.
  pose proof (Z.mod_pos_bound (z + 2 ^ 31) (2 ^ 32) ltac:(lia)). lia.
Qed.

Lemma wrap32_id (z : Z) : in_int32 z -> wrap32 z = z.
Proof.
  unfold in_int32, wrap32, INT32_MIN, INT32_MAX. intros H.
  rewrite Z.mod_small by lia. lia.
Qed.

Lemma wrap32_to_u32 (z : Z) : in_int32 z -> wrap32 (to_u32 z) = z.
Proof.
  unfold in_int32, wrap32, to_u32, INT32_MIN, INT32_MAX. intros H.
  replace ((z mod 2 ^ 32 + 2 ^ 31) mod 2 ^ 32) with ((z + 2 ^ 31) mod 2 ^ 32).
  - rewrite Z.mod_small by lia. lia.
  - rewrite Z.add_mod_idemp_l by lia. reflexivity.
Qed.

(** ** MotorController::getPositionPercent *)

(** The percentage as a clamp: the three-way test of the source is
    [max 0 (min 100 percent)]. *)
Lemma getPositionPercent_clamp (m : MotorController) :
  getPositionPercent m =
    (if maxValue m <=? minValue m then 0
     else Z.max 0 (Z.min 100
            (wrap32 (Z.quot (wrap32 (wrap32 (readPos m - minValue m) * 100))
                            (wrap32 (maxValue m - minValue m)))))).
Proof.
  unfold getPositionPercent.
  destruct (maxValue m <=? minValue m); [reflexivity|].
  set (percent := wrap32 _).
  destruct (Z.ltb_spec percent 0); [lia|].
  destruct (percent >? 100) eqn:E.
  - apply Z.gtb_lt in E. lia.
  - assert (percent <= 100) by (rewrite Z.gtb_ltb in E; apply Z.ltb_ge in E; lia). lia.
Qed.

(** C9.  For every motor state [getPositionPercent] returns a value in
    [0, 100]: it is 0 whenever [maxValue <= minValue], and otherwise the
    computed percentage [((pos - minValue) * 100) / (maxValue - minValue)]
    clamped to [0, 100], whatever the current position is. *)
Theorem C9_getPositionPercent_in_0_100 :
  forall m : MotorController,
    0 <= getPositionPercent m <= 100 /\
    getPositionPercent m =
      (if maxValue m <=? minValue m then 0
       else Z.max 0 (Z.min 100
              (wrap32 (Z.quot (wrap32 (wrap32 (readPos m - minValue m) * 100))
                              (wrap32 (maxValue m - minValue m)))))).
Proof.
  intros m. split; [|apply getPositionPercent_clamp].
  rewrite getPositionPercent_clamp.
  destruct (maxValue m <=? minValue m); lia.
Qed.

(** Below the travel range the percentage is 0 and above it 100 (no
    intermediate overflow for positions and limits below 10^7 in size). *)
Lemma getPositionPercent_outside_travel (m : MotorController) :
  minValue m < maxValue m ->
  Z.abs (minValue m) <= 10000000 -> Z.abs (maxValue m) <= 10000000 ->
  Z.abs (readPos m) <= 10000000 ->
  (readPos m <= minValue m -> getPositionPercent m = 0) /\
  (maxValue m <= readPos m -> getPositionPercent m = 100).
Proof.
  intros Hlt Hmin Hmax Hpos.
  rewrite getPositionPercent_clamp.
  destruct (Z.leb_spec (maxValue m) (minValue m)); [lia|].
  rewrite (wrap32_id (readPos m - minValue m)) by (unfold in_int32, INT32_MIN, INT32_MAX; lia).
  rewrite (wrap32_id (maxValue m - minValue m)) by (unfold in_int32, INT32_MIN, INT32_MAX; lia).
  rewrite (wrap32_id ((readPos m - minValue m) * 100)) by (unfold in_int32, INT32_MIN, INT32_MAX; lia).
  set (n := (readPos m - minValue m) * 100).
  set (dd := maxValue m - minValue m).
  assert (Hd : 0 < dd) by (unfold dd; lia).
  split; intros Hc.
  - assert (Hn : n <= 0) by (unfold n; lia).
    assert (Hq : Z.quot n dd <= 0).
    { rewrite <- (Z.opp_involutive n). rewrite Z.quot_opp_l by lia.
      pose proof (Z.quot_pos (- n) dd ltac:(lia) Hd). lia. }
    assert (Hq' : - 2000000000 <= Z.quot n dd).
    { rewrite <- (Z.opp_involutive n). rewrite Z.quot_opp_l by lia.
      pose proof (Z.quot_le_upper_bound (- n) dd 2000000000 Hd ltac:(unfold n; nia)). lia. }
    rewrite wrap32_id by (unfold in_int32, INT32_MIN, INT32_MAX; lia). lia.
  - assert (Hn : 100 * dd <= n) by (unfold n, dd; lia).
    assert (Hq : 100 <= Z.quot n dd).
    { apply Z.quot_le_lower_bound; lia. }
    assert (Hq' : Z.quot n dd <= 2000000000).
    { apply Z.quot_le_upper_bound; [lia|unfold n; nia]. }
    rewrite wrap32_id by (unfold in_int32, INT32_MIN, INT32_MAX; lia). lia.
Qed.

(** ** MotorController::RunMotor *)

(** C6, as stated, fails.  Nothing keeps the lower limit below the upper
    one: the msl command and [loadMotorLimits] store the limits as they
    come.  With the lower limit 60000 and the upper limit 4000 a target of
    70000 passes the test against the lower limit and is cut to the upper
    one: [RunMotor] stores 4000, which is neither
    [clamp(target, lowerLimit, upperLimit)] (60000) nor inside the window. *)
Lemma C6_RunMotor_writes_outside_inverted_window :
  lowerLimit invertedMotor = 60000 /\ upperLimit invertedMotor = 4000 /\
  gpioInitialized invertedMotor = true /\
  tarPosWrites (gpioOutBase invertedMotor) (snd (RunMotor invertedMotor 70000 false 0))
    = [4000] /\
  Z.max (lowerLimit invertedMotor) (Z.min 70000 (upperLimit invertedMotor)) = 60000 /\
  ~ (lowerLimit invertedMotor <= 4000 <= upperLimit invertedMotor).
Proof.
  repeat split; try (vm_compute; reflexivity).
  intros [H _]. vm_compute in H. apply H. reflexivity.
Qed.

(** C6, amended.  When the lower limit is not above the upper one, for every
    target position [RunMotor] stores exactly
    [clamp(target, lowerLimit, upperLimit)] into the target-position register
    (one store, and none at all when the GPIO block is not initialised, where
    it fails), and it logs exactly when the clamp changed the value; so the
    commanded position is inside the soft window [lowerLimit, upperLimit]. *)
Theorem C6_RunMotor_writes_clamped_target :
  forall (m : MotorController) (target : Z) (printStatus : bool) (afterDelayMs : Z),
    lowerLimit m <= upperLimit m ->
    in_int32 (lowerLimit m) -> in_int32 (upperLimit m) ->
    let clamped := Z.max (lowerLimit m) (Z.min target (upperLimit m)) in
    let ready := gpioInitialized m && negb (gpioOutBase m =? 0) in
    let r := RunMotor m target printStatus afterDelayMs in
    tarPosWrites (gpioOutBase m) (snd r) = (if ready then [to_u32 clamped] else []) /\
    fst r = (if ready then XST_SUCCESS else XST_FAILURE) /\
    logsClamp (snd r) = ready && negb (clamped =? target) /\
    lowerLimit m <= clamped <= upperLimit m /\
    wrap32 (to_u32 clamped) = clamped.
Proof.
  intros m target printStatus afterDelayMs Hle Hlo Hup clamped ready r.
  assert (Hc : lowerLimit m <= clamped <= upperLimit m) by (unfold clamped; lia).
  assert (Hw : wrap32 (to_u32 clamped) = clamped).
  { apply wrap32_to_u32. unfold in_int32 in *. lia. }
  unfold r, ready, RunMotor.
  destruct (gpioInitialized m); cbn [negb orb andb];
    [|repeat split; auto; lia].
  destruct (gpioOutBase m =? 0) eqn:Hb; cbn [negb];
    [repeat split; auto; lia|].
  destruct (Z.ltb_spec target (lowerLimit m)) as [Hlt|Hge].
  - replace clamped with (lowerLimit m) in * by (unfold clamped; lia).
    replace (lowerLimit m =? target) with false by (symmetry; apply Z.eqb_neq; lia).
    destruct printStatus; cbn -[Z.eqb to_u32 wrap32 Z.mul]; rewrite ?Z.eqb_refl; repeat split; auto; lia.
  - destruct (target >? upperLimit m) eqn:Hgt.
    + apply Z.gtb_lt in Hgt.
      replace clamped with (upperLimit m) in * by (unfold clamped; lia).
      replace (upperLimit m =? target) with false by (symmetry; apply Z.eqb_neq; lia).
      destruct printStatus; cbn -[Z.eqb to_u32 wrap32 Z.mul]; rewrite ?Z.eqb_refl; repeat split; auto; lia.
    + assert (target <= upperLimit m)
        by (rewrite Z.gtb_ltb in Hgt; apply Z.ltb_ge in Hgt; lia).
      replace clamped with target in * by (unfold clamped; lia).
      rewrite Z.eqb_refl.
      destruct printStatus; cbn -[Z.eqb to_u32 wrap32 Z.mul]; rewrite ?Z.eqb_refl; repeat split; auto; lia.
Qed.

Lemma C6_RunMotor_witness :
  let m := defaultMotor 4096 8192 in
  lowerLimit m <= upperLimit m /\
  in_int32 (lowerLimit m) /\ in_int32 (upperLimit m) /\
  tarPosWrites (gpioOutBase m) (snd (RunMotor m 100 true 0)) = [4000] /\
  logsClamp (snd (RunMotor m 100 true 0)) = true.
Proof.
  assert (Hle : lowerLimit (defaultMotor 4096 8192) <= upperLimit (defaultMotor 4096 8192))
    by (cbn; lia).
  assert (Hlo : in_int32 (lowerLimit (defaultMotor 4096 8192)))
    by (unfold in_int32, INT32_MIN, INT32_MAX; cbn; lia).
  assert (Hup : in_int32 (upperLimit (defaultMotor 4096 8192)))
    by (unfold in_int32, INT32_MIN, INT32_MAX; cbn; lia).
  pose proof (C6_RunMotor_writes_clamped_target (defaultMotor 4096 8192) 100 true 0
                Hle Hlo Hup) as H.
  cbv zeta in H. destruct H as (H1 & _ & H3 & _).
  cbv zeta. repeat split; try exact H1; try exact H3; try apply Hle; try apply Hlo; apply Hup.
Defined.

(** ** FRAM settings: loadVswrSettings and loadAmsSettings *)

(** Every VSWR threshold is checked against its own interval, whatever the
    other two words of the record are. *)
Lemma loadVswrSettings_fields (settings : nat -> f32) (mi : MatcherInfo) :
  let mi' := snd (fst (loadVswrSettings 0 settings mi)) in
  vswrStart mi' = (if spec_vswrStart_ok (settings 0%nat) then settings 0%nat else flt 1.04) /\
  vswrStop mi' = (if spec_vswrStop_ok (settings 1%nat) then settings 1%nat else flt 1.02) /\
  vswrRestart mi' = (if spec_vswrRestart_ok (settings 2%nat) then settings 2%nat else flt 1.04).
Proof.
  cbv zeta. unfold loadVswrSettings, spec_vswrStart_ok, spec_vswrStop_ok,
    spec_vswrRestart_ok, F32.geb, F32.leb.
  cbn [Z.eqb negb fst snd vswrStart vswrStop vswrRestart]. auto.
Qed.

(** The AMS interval and log interval are checked against their own
    interval. *)
Lemma loadAmsSettings_interval_fields (settings : nat -> Z) (mi : MatcherInfo) :
  let mi' := snd (fst (loadAmsSettings 0 settings mi)) in
  amsInterval mi' = (if spec_amsInterval_ok (settings 0%nat) then settings 0%nat else 10) /\
  amsLogInterval mi' = (if spec_amsLogInterval_ok (settings 2%nat) then settings 2%nat else 10).
Proof.
  cbv zeta. unfold loadAmsSettings, spec_amsInterval_ok, spec_amsLogInterval_ok.
  cbn [Z.eqb negb fst snd amsInterval amsLogInterval].
  rewrite !Z.geb_leb. auto.
Qed.

(** The AMS timeout is accepted when the *interval* word is non-negative and
    the timeout word is at most 60000. *)
Lemma loadAmsSettings_timeout_field (settings : nat -> Z) (mi : MatcherInfo) :
  amsTimeout (snd (fst (loadAmsSettings 0 settings mi))) =
    (if (0 <=? settings 0%nat) && (settings 1%nat <=? 60000)
     then settings 1%nat else 0).
Proof.
  unfold loadAmsSettings. cbn [Z.eqb negb fst snd amsTimeout].
  rewrite Z.geb_leb. reflexivity.
Qed.

(** C3 (the code departs from the claim).  With the record
    (interval, timeout, log interval) = (5, -7, 10) the loader keeps the
    timeout -7, which is outside [0, 60000]; with (-1, 500, 10) it replaces
    the timeout 500, which is inside [0, 60000], by the default 0: the lower
    bound of the timeout is tested on the interval word. *)
Theorem C3_loadAmsSettings_timeout_tested_on_interval :
  amsTimeout (snd (fst (loadAmsSettings 0 (record3 5 (-7) 10) defaultMatcherInfo))) = -7 /\
  spec_amsTimeout_ok (-7) = false /\
  amsTimeout (snd (fst (loadAmsSettings 0 (record3 (-1) 500 10) defaultMatcherInfo))) = 0 /\
  spec_amsTimeout_ok 500 = true.
Proof. repeat split; reflexivity. Qed.

(** ** MatchingAlgorithm::calculateMatchingGoals *)

Import MatchingAlgorithm.

(** Splits the pair a [let '(x, y) := e in _] binds, without looking into
    [e]. *)
Ltac split_pairs :=
  repeat match goal with
         | |- context [match ?e with pair _ _ => _ end] => destruct e
         end.

(** The solve stores the values of [RC], [XC], [XD] it works on in the three
    debug fields, on both paths. *)
Lemma calculateMatchingGoals_working_values
      (goals : MatchingGoals) (Rm Xm VVC0_pF VVC1_pF : float)
      (m0 m1 : option MotorController) (Rpm Xpm : float) (useOutputForRC : bool) :
  let g := calculateMatchingGoals goals Rm Xm VVC0_pF VVC1_pF m0 m1 Rpm Xpm useOutputForRC in
  (RC_calculated g, XC_calculated g, XD_calculated g) =
  selectRCXCXD (calculateImpedances Rm Xm VVC0_pF VVC1_pF) VVC1_pF Rpm Xpm useOutputForRC.
Proof.
  cbv zeta. unfold calculateMatchingGoals.
  destruct (selectRCXCXD _ _ _ _ _) as [[RC XC] XD].
  destruct (discriminantOf RC <? 0)%float; [reflexivity|].
  split_pairs. reflexivity.
Qed.

(** What the function returns when the discriminant is negative: every
    field is stored to except [XDGoal0] and [XDGoal1], which keep the
    contents the local variable started with. *)
Lemma calculateMatchingGoals_negative_discriminant
      (goals : MatchingGoals) (Rm Xm VVC0_pF VVC1_pF : float)
      (m0 m1 : option MotorController) (Rpm Xpm : float) (useOutputForRC : bool) :
  let g := calculateMatchingGoals goals Rm Xm VVC0_pF VVC1_pF m0 m1 Rpm Xpm useOutputForRC in
  (discriminantOf (RC_calculated g) <? 0)%float = true ->
  valid0 g = false /\ valid1 g = false /\
  VVC0Goal0 g = 0%float /\ VVC0Goal1 g = 0%float /\
  VVC1Goal0 g = 0%float /\ VVC1Goal1 g = 0%float /\
  XBGoal0 g = 0%float /\ XBGoal1 g = 0%float /\
  step0Goal0 g = 0 /\ step0Goal1 g = 0 /\ step1Goal0 g = 0 /\ step1Goal1 g = 0 /\
  XDGoal0 g = XDGoal0 goals /\ XDGoal1 g = XDGoal1 goals.
Proof.
  intros g Hneg.
  pose proof (calculateMatchingGoals_working_values goals Rm Xm VVC0_pF VVC1_pF
                m0 m1 Rpm Xpm useOutputForRC) as Hw.
  cbv zeta in Hw. fold g in Hw.
  destruct (selectRCXCXD _ _ _ _ _) as [[RC XC] XD] eqn:Hsel.
  injection Hw as H1 _ _. rewrite H1 in Hneg.
  unfold g, calculateMatchingGoals. rewrite Hsel, Hneg.
  cbn. repeat split; reflexivity.
Qed.

(** C5 (the code departs from the claim).  For the measured impedance
    100 + 0j with both capacitors at 50 pF the discriminant is negative; the
    goals come back invalid with the capacitance goals, the steps and the two
    B reactance goals at zero, but the two D reactance goals [XDGoal0] and
    [XDGoal1] are never stored to: they hold whatever the uninitialised local
    held, here NaN. *)
Theorem C5_negative_discriminant_leaves_XDGoal_unset :
  let g := calculateMatchingGoals staleGoals 100 0 50 50
             (Some motor1) (Some motor2) 0 0 false in
  (discriminantOf (RC_calculated g) <? 0)%float = true /\
  valid0 g = false /\ valid1 g = false /\
  VVC0Goal0 g = 0%float /\ VVC1Goal0 g = 0%float /\
  XBGoal0 g = 0%float /\ XBGoal1 g = 0%float /\
  step0Goal0 g = 0 /\ step1Goal0 g = 0 /\
  is_nan64 (XDGoal0 g) = true /\ is_nan64 (XDGoal1 g) = true.
Proof. cbv zeta. vm_compute. repeat split; reflexivity. Qed.

(** Unless [useOutputForRC] is set and one of [Rpm], [Xpm] is nonzero, the
    output-sensor arguments do not enter the result. *)
Lemma calculateMatchingGoals_input_path
      (goals : MatchingGoals) (Rm Xm VVC0_pF VVC1_pF : float)
      (m0 m1 : option MotorController) (Rpm Xpm : float) (useOutputForRC : bool) :
  useOutputForRC && ((Rpm !=? 0) || (Xpm !=? 0))%float = false ->
  calculateMatchingGoals goals Rm Xm VVC0_pF VVC1_pF m0 m1 Rpm Xpm useOutputForRC =
  calculateMatchingGoals goals Rm Xm VVC0_pF VVC1_pF m0 m1 0 0 false.
Proof.
  intros Hc. unfold calculateMatchingGoals, selectRCXCXD. rewrite Hc.
  cbn [andb]. reflexivity.
Qed.

(** C10.  [calculateMatchingGoals] works on the values of [RC], [XC], [XD]
    walked back from the output sensor exactly when [useOutputForRC] is set
    and at least one of [Rpm], [Xpm] is nonzero; otherwise (in particular
    when the output sensor reports (0, 0), also when the AMS has set
    [useOutputForRC] because VSWR > 2) the whole result is the one computed
    from the input-derived impedances. *)
Theorem C10_output_sensor_path_needs_nonzero_reading :
  forall (goals : MatchingGoals) (Rm Xm VVC0_pF VVC1_pF : float)
         (m0 m1 : option MotorController) (Rpm Xpm : float) (useOutputForRC : bool),
    let g := calculateMatchingGoals goals Rm Xm VVC0_pF VVC1_pF m0 m1 Rpm Xpm useOutputForRC in
    let pts := calculateImpedances Rm Xm VVC0_pF VVC1_pF in
    let zcOut := calculateZCFromOutput Rpm Xpm VVC1_pF in
    if useOutputForRC && ((Rpm !=? 0) || (Xpm !=? 0))%float
    then
      RC_calculated g = ZCFromOutput.RC zcOut /\
      XC_calculated g = ZCFromOutput.XC zcOut /\
      XD_calculated g = snd (calculateZD (ZCFromOutput.RC zcOut) (ZCFromOutput.XC zcOut))
    else
      RC_calculated g = ImpedancePoints.RC pts /\
      XC_calculated g = ImpedancePoints.XC pts /\
      XD_calculated g = ImpedancePoints.XD pts /\
      g = calculateMatchingGoals goals Rm Xm VVC0_pF VVC1_pF m0 m1 0 0 false.
Proof.
  intros. subst g pts zcOut.
  pose proof (calculateMatchingGoals_working_values goals Rm Xm VVC0_pF VVC1_pF
                m0 m1 Rpm Xpm useOutputForRC) as Hw.
  cbv zeta in Hw.
  destruct (useOutputForRC && ((Rpm !=? 0) || (Xpm !=? 0))%float) eqn:Hc.
  - unfold selectRCXCXD in Hw. rewrite Hc in Hw.
    destruct (calculateZD _ _) as [RD_out XD_out]. cbn [snd].
    injection Hw as -> -> ->. auto.
  - unfold selectRCXCXD in Hw. rewrite Hc in Hw.
    injection Hw as H1 H2 H3. repeat split; auto.
    apply calculateMatchingGoals_input_path. exact Hc.
Qed.

(** The same at the AMS: whatever the VSWR, a reading of (0, 0) from the
    output sensor gives the goals of the input path. *)
Lemma amsMatchStep_zero_output_reading
      (b : Board) (env : DebugMode.TickEnv) (Rm Xm vswr : float) (shouldLog : bool) :
  fst (fst (fst (DebugMode.amsMatchStep b env Rm Xm 0 0 vswr shouldLog))) =
  calculateMatchingGoals (DebugMode.goalsStack env) Rm Xm
    (F64.of_int (getCapacitance (M1 b)) / 100)%float
    (F64.of_int (getCapacitance (M2 b)) / 100)%float
    (Some (M1 b)) (Some (M2 b)) 0 0 false.
Proof.
  unfold DebugMode.amsMatchStep. cbv zeta.
  match goal with |- context [if ?c then (0, _, _) else _] => destruct c end;
    [|match goal with |- context [if ?c then (1, _, _) else _] => destruct c end];
    cbn [fst];
    apply calculateMatchingGoals_input_path;
    destruct (vswr >? 2)%float; reflexivity.
Qed.

(** Case analysis on the conditions the solve branches on. *)
Ltac crunch :=
  repeat (cbv beta iota;
    match goal with
    | |- context [match (if ?c then _ else _) with pair _ _ => _ end] => destruct c eqn:?
    | |- context [match ?e with pair _ _ => _ end] => destruct e
    | |- context [if ?c then false else _] => destruct c eqn:?
    end).

Ltac finish_bool :=
  cbn [valid0 valid1 VVC0Goal0 VVC0Goal1 VVC1Goal0 VVC1Goal1
       XBGoal0 XBGoal1 XDGoal0 XDGoal1 RC_calculated XD_calculated];
  repeat match goal with
         | H : _ = true |- _ => rewrite H; clear H
         | H : _ = false |- _ => rewrite H; clear H
         end;
  cbn [negb andb]; rewrite ?andb_true_r, ?andb_false_r;
  try reflexivity;
  match goal with |- context [F64.gtb ?x ?y] => destruct (F64.gtb x y) end; reflexivity.

(** *** The valid flags *)

(** C1, as stated, fails.  With the measured impedance 10 + 40j and both
    capacitors at 500 pF, solution 1 is returned valid although its VVC0
    target, 1403.29 pF (140329 in pF x 100), is above the band
    [0, 100000] of motor 1: the AMS band check rejects it. *)
Lemma C1_valid_flag_set_outside_band :
  let g := calculateMatchingGoals staleGoals 10 40 500 500
             (Some motor1) (Some motor2) 0 0 false in
  valid1 g = true /\
  F64.to_int32 (VVC0Goal1 g * 100)%float = 140329 /\
  minCap motor1 = 0 /\ maxCap motor1 = 100000 /\
  DebugMode.goalInBand (valid1 g)
    (F64.to_int32 (VVC0Goal1 g * 100)%float)
    (F64.to_int32 (VVC1Goal1 g * 100)%float) board0 = false.
Proof. cbv zeta. vm_compute. repeat split; reflexivity. Qed.

(** C1, amended.  A returned solution's valid flag is true if and only if
    the discriminant is not negative, both of its capacitance goals were
    computed (their denominators exceed 1e-20 in magnitude), its VVC0 goal
    is > 0 and its VVC1 goal is not < 0: the flag does not look at the
    motors' capacitance bands.  The band is checked by the AMS, which accepts
    a solution if and only if its valid flag is set and both goals
    (pF x 100) lie in [minCap, maxCap] of their motor. *)
Theorem C1_valid_flag_positive_goals_band_checked_by_AMS :
  forall (goals : MatchingGoals) (Rm Xm VVC0_pF VVC1_pF : float)
         (m0 m1 : option MotorController) (Rpm Xpm : float) (useOutputForRC : bool)
         (b : Board) (env : DebugMode.TickEnv) (vswr : float) (shouldLog : bool),
    let g := calculateMatchingGoals goals Rm Xm VVC0_pF VVC1_pF m0 m1 Rpm Xpm useOutputForRC in
    let VVC0 := (VVC0_pF * MatchingConst.pF)%float in
    let VVC1 := (VVC1_pF * MatchingConst.pF)%float in
    let XB := ImpedancePoints.XB (calculateImpedances Rm Xm VVC0_pF VVC1_pF) in
    let XD := XD_calculated g in
    let r := DebugMode.amsMatchStep b env Rm Xm Rpm Xpm vswr shouldLog in
    let ga := fst (fst (fst r)) in
    valid0 g =
      (negb (discriminantOf (RC_calculated g) <? 0) &&
       (F64.fabs (denomVVC VVC0 XB (XBGoal0 g)) >? 1e-20) && (VVC0Goal0 g >? 0) &&
       (F64.fabs (denomVVC VVC1 XD (XDGoal0 g)) >? 1e-20) && negb (VVC1Goal0 g <? 0))%float /\
    valid1 g =
      (negb (discriminantOf (RC_calculated g) <? 0) &&
       (F64.fabs (denomVVC VVC0 XB (XBGoal1 g)) >? 1e-20) && (VVC0Goal1 g >? 0) &&
       (F64.fabs (denomVVC VVC1 XD (XDGoal1 g)) >? 1e-20) && negb (VVC1Goal1 g <? 0))%float /\
    snd (fst (fst r)) =
      (valid0 ga &&
       (minCap (M1 b) <=? F64.to_int32 (VVC0Goal0 ga * 100)%float) &&
       (F64.to_int32 (VVC0Goal0 ga * 100)%float <=? maxCap (M1 b)) &&
       (minCap (M2 b) <=? F64.to_int32 (VVC1Goal0 ga * 100)%float) &&
       (F64.to_int32 (VVC1Goal0 ga * 100)%float <=? maxCap (M2 b))) /\
    snd (fst r) =
      (valid1 ga &&
       (minCap (M1 b) <=? F64.to_int32 (VVC0Goal1 ga * 100)%float) &&
       (F64.to_int32 (VVC0Goal1 ga * 100)%float <=? maxCap (M1 b)) &&
       (minCap (M2 b) <=? F64.to_int32 (VVC1Goal1 ga * 100)%float) &&
       (F64.to_int32 (VVC1Goal1 ga * 100)%float <=? maxCap (M2 b))).
Proof.
  intros.
  assert (Hams : snd (fst (fst r)) =
      (valid0 ga &&
       (minCap (M1 b) <=? F64.to_int32 (VVC0Goal0 ga * 100)%float) &&
       (F64.to_int32 (VVC0Goal0 ga * 100)%float <=? maxCap (M1 b)) &&
       (minCap (M2 b) <=? F64.to_int32 (VVC1Goal0 ga * 100)%float) &&
       (F64.to_int32 (VVC1Goal0 ga * 100)%float <=? maxCap (M2 b))) /\
    snd (fst r) =
      (valid1 ga &&
       (minCap (M1 b) <=? F64.to_int32 (VVC0Goal1 ga * 100)%float) &&
       (F64.to_int32 (VVC0Goal1 ga * 100)%float <=? maxCap (M1 b)) &&
       (minCap (M2 b) <=? F64.to_int32 (VVC1Goal1 ga * 100)%float) &&
       (F64.to_int32 (VVC1Goal1 ga * 100)%float <=? maxCap (M2 b)))).
  { subst ga r. unfold DebugMode.amsMatchStep. cbv zeta.
    match goal with
    | |- context [match ?e with pair _ _ => _ end] => destruct e as [[? ?] ?]
    end.
    cbn [fst snd]. unfold DebugMode.goalInBand. rewrite !Z.geb_leb.
    split; reflexivity. }
  destruct Hams as [Ha0 Ha1].
  split; [|split; [|split; assumption]].
  - subst XD.
    pose proof (calculateMatchingGoals_working_values goals Rm Xm VVC0_pF VVC1_pF
                  m0 m1 Rpm Xpm useOutputForRC) as Hw.
    cbv zeta in Hw. fold g in Hw.
    destruct (selectRCXCXD _ _ _ _ _) as [[RC XC] XD] eqn:Hsel.
    injection Hw as -> _ ->.
    subst g XB VVC0 VVC1. unfold calculateMatchingGoals. rewrite Hsel.
    destruct (discriminantOf RC <? 0)%float eqn:Hd; [reflexivity|].
    cbn [negb andb]. crunch; finish_bool.
  - subst XD.
    pose proof (calculateMatchingGoals_working_values goals Rm Xm VVC0_pF VVC1_pF
                  m0 m1 Rpm Xpm useOutputForRC) as Hw.
    cbv zeta in Hw. fold g in Hw.
    destruct (selectRCXCXD _ _ _ _ _) as [[RC XC] XD] eqn:Hsel.
    injection Hw as -> _ ->.
    subst g XB VVC0 VVC1. unfold calculateMatchingGoals. rewrite Hsel.
    destruct (discriminantOf RC <? 0)%float eqn:Hd; [reflexivity|].
    cbn [negb andb]. crunch; finish_bool.
Qed.

(** ** Order and NaN on binary64 *)

Lemma SFcompare_antisym (x y : spec_float) :
  SFcompare y x = option_map CompOpp (SFcompare x y).
Proof.
  destruct x as [sx|sx| |sx mx ex], y as [sy|sy| |sy my ey];
    try destruct sx; try destruct sy; try reflexivity;
    cbn [SFcompare option_map];
    rewrite (Z.compare_antisym ex ey);
    destruct (ex ?= ey) eqn:E; cbn [CompOpp]; try reflexivity;
    rewrite (Pos.compare_cont_antisym mx my Eq); cbn [CompOpp];
    rewrite ?CompOpp_involutive; reflexivity.
Qed.

Lemma SFcompare_None (x y : spec_float) :
  SFcompare x y = None -> x = S754_nan \/ y = S754_nan.
Proof.
  destruct x as [sx|sx| |sx mx ex], y as [sy|sy| |sy my ey]; cbn; auto;
    try destruct sx; try destruct sy; discriminate.
Qed.

Lemma SFcompare_refl (x : spec_float) :
  x <> S754_nan -> SFcompare x x = Some Eq.
Proof.
  destruct x as [sx|sx| |sx mx ex]; cbn; intros H; try congruence.
  - destruct sx; reflexivity.
  - rewrite Z.compare_refl, Pos.compare_cont_refl. destruct sx; reflexivity.
Qed.

Lemma is_nan_Prim2SF (x : float) :
  PrimFloat.is_nan x = true <-> Prim2SF x = S754_nan.
Proof.
  unfold PrimFloat.is_nan. rewrite FloatAxioms.eqb_spec. unfold SFeqb. split.
  - intros H. destruct (Prim2SF x) eqn:E; try reflexivity;
      rewrite SFcompare_refl in H by discriminate; discriminate.
  - intros ->. reflexivity.
Qed.

(** [a <= b] excludes [b < a]. *)
Lemma leb_not_ltb (a b : float) : (a <=? b)%float = true -> (b <? a)%float = false.
Proof.
  rewrite FloatAxioms.leb_spec, FloatAxioms.ltb_spec. unfold SFleb, SFltb.
  rewrite (SFcompare_antisym (Prim2SF a) (Prim2SF b)).
  destruct (SFcompare (Prim2SF a) (Prim2SF b)) as [[| |]|]; cbn; congruence.
Qed.

(** [a < b] excludes [b <= a]. *)
Lemma ltb_not_leb (a b : float) : (a <? b)%float = true -> (b <=? a)%float = false.
Proof.
  rewrite FloatAxioms.leb_spec, FloatAxioms.ltb_spec. unfold SFleb, SFltb.
  rewrite (SFcompare_antisym (Prim2SF a) (Prim2SF b)).
  destruct (SFcompare (Prim2SF a) (Prim2SF b)) as [[| |]|]; cbn; congruence.
Qed.

(** Two values that are not ordered either way: one of them is NaN. *)
Lemma unordered_nan (a b : float) :
  (a <=? b)%float = false -> (b <? a)%float = false ->
  PrimFloat.is_nan a = true \/ PrimFloat.is_nan b = true.
Proof.
  rewrite FloatAxioms.leb_spec, FloatAxioms.ltb_spec. unfold SFleb, SFltb.
  rewrite (SFcompare_antisym (Prim2SF a) (Prim2SF b)).
  destruct (SFcompare (Prim2SF a) (Prim2SF b)) as [[| |]|] eqn:E; cbn; try congruence.
  intros _ _. rewrite !is_nan_Prim2SF. apply SFcompare_None. exact E.
Qed.

Lemma nan_add_r (a b : float) : PrimFloat.is_nan b = true -> PrimFloat.is_nan (a + b) = true.
Proof.
  rewrite !is_nan_Prim2SF, FloatAxioms.add_spec. intros ->.
  unfold SF64add, SFadd. destruct (Prim2SF a); reflexivity.
Qed.

Lemma nan_div_l (a b : float) : PrimFloat.is_nan a = true -> PrimFloat.is_nan (a / b) = true.
Proof.
  rewrite !is_nan_Prim2SF, FloatAxioms.div_spec. intros ->. reflexivity.
Qed.

Lemma nan_div_r (a b : float) : PrimFloat.is_nan b = true -> PrimFloat.is_nan (a / b) = true.
Proof.
  rewrite !is_nan_Prim2SF, FloatAxioms.div_spec. intros ->.
  unfold SF64div, SFdiv. destruct (Prim2SF a); reflexivity.
Qed.

Lemma nan_sqrt (a : float) : PrimFloat.is_nan a = true -> PrimFloat.is_nan (sqrt a) = true.
Proof.
  rewrite !is_nan_Prim2SF, FloatAxioms.sqrt_spec. intros ->. reflexivity.
Qed.

(** ** calculateVSWR *)

(** C4, as stated, fails: when the reflection coefficient cannot be ordered
    against 1 the function returns neither the formula on a G below 1 nor
    999.  For R = 1e200 the denominator overflows to infinity (so it is at
    least 1e-12), G = sqrt(inf/inf) is NaN (so G < 1 does not hold), and the
    result is NaN, not 999; so it is for a NaN resistance, which is what the
    sensor hands over when its FFT buffers hold zeros. *)
Lemma C4_calculateVSWR_returns_nan :
  let R := 1e200%float in
  let denom := ((R + 50) * (R + 50) + 0 * 0)%float in
  let numer := ((R - 50) * (R - 50) + 0 * 0)%float in
  let G := sqrt (numer / denom) in
  (1e-12 <=? denom)%float = true /\ (G <? 1)%float = false /\
  PrimFloat.is_nan (calculateVSWR R 0) = true /\
  (calculateVSWR R 0 =? 999)%float = false /\
  PrimFloat.is_nan (calculateVSWR nan 0) = true.
Proof. cbv zeta. vm_compute. repeat split; reflexivity. Qed.

(** C4, amended.  With G = sqrt(((R - 50)^2 + X^2) / ((R + 50)^2 + X^2)):
    [calculateVSWR] returns (1 + G)/(1 - G) whenever the denominator is at
    least 1e-12 and G < 1; it returns 999 whenever the denominator is below
    1e-12 or G >= 1; in the remaining cases (the denominator or G is NaN,
    which no comparison catches) it returns NaN.  [calculateVSWR 50 0] is
    exactly 1. *)
Theorem C4_calculateVSWR_formula_999_or_nan :
  forall R X : float,
    let denom := ((R + 50) * (R + 50) + X * X)%float in
    let numer := ((R - 50) * (R - 50) + X * X)%float in
    let G := sqrt (numer / denom) in
    (if (1e-12 <=? denom)%float && (G <? 1)%float
     then calculateVSWR R X = ((1 + G) / (1 - G))%float
     else if (denom <? 1e-12)%float || (G >=? 1)%float
          then calculateVSWR R X = 999%float
          else PrimFloat.is_nan (calculateVSWR R X) = true) /\
    calculateVSWR 50 0 = 1%float.
Proof.
  intros R X denom numer G. split; [|vm_compute; reflexivity].
  unfold calculateVSWR, calculateVSWR_Z0. fold denom numer G.
  destruct (1e-12 <=? denom)%float eqn:Hd1; cbn [andb].
  - rewrite (leb_not_ltb _ _ Hd1). cbn [orb].
    destruct (G <? 1)%float eqn:Hg.
    + unfold F64.geb. rewrite (ltb_not_leb _ _ Hg). reflexivity.
    + destruct (G >=? 1)%float eqn:Hg1; [reflexivity|].
      unfold F64.geb in Hg1.
      destruct (unordered_nan _ _ Hg1 Hg) as [H|H]; [vm_compute in H; discriminate|].
      apply nan_div_l, nan_add_r, H.
  - destruct (denom <? 1e-12)%float eqn:Hd2; cbn [orb]; [reflexivity|].
    destruct (G >=? 1)%float eqn:Hg1; [reflexivity|].
    destruct (unordered_nan _ _ Hd1 Hd2) as [H|H]; [vm_compute in H; discriminate|].
    apply nan_div_l, nan_add_r. unfold G. apply nan_sqrt, nan_div_r, H.
Qed.

(** ** RFSensor::calculateAveragedImpedance *)

Import RFSensor.

(** When the hold is not acknowledged within the 100 polls the result is the
    zeroed one, which is finite. *)
Lemma zeroResult_finite : all_finite zeroResult = true.
Proof. reflexivity. Qed.

(** The guarded division of the single-bin path: a zero current is replaced
    by the floor 1e-12 and the quotient is finite. *)
Lemma divideSafe_zero_current :
  divideSafe (flt 1.0, flt 0.0) (flt 0.0, flt 0.0) = (S754_zero false, S754_zero false) /\
  F32.is_finite (F32.div (flt 1.0) (flt 1e-12)) = true.
Proof. vm_compute. split; reflexivity. Qed.

(** C2 (the code departs from the claim).  The averaged measurement divides
    the averaged voltage magnitude squared by the averaged current magnitude
    squared without any floor.  With FFT buffers holding zeros the quotient
    is 0/0: for each of the average counts 0, 1, N and N + 1 (N = 1024) the
    impedance magnitude, the resistance and the reactance come back NaN,
    whatever the C library computes for atan2, cosf and sinf. *)
Theorem C2_zero_buffers_give_nan :
  forall lm : Libm,
    let r (avgCount : Z) := fst (calculateAveragedImpedance lm quietSensor avgCount) in
    (F32.is_nan (impedanceMagnitude (r 0)) = true /\
     F32.is_nan (resistanceR (r 0)) = true /\
     F32.is_nan (reactanceX (r 0)) = true /\ all_finite (r 0) = false) /\
    (F32.is_nan (impedanceMagnitude (r 1)) = true /\
     F32.is_nan (resistanceR (r 1)) = true /\
     F32.is_nan (reactanceX (r 1)) = true /\ all_finite (r 1) = false) /\
    (F32.is_nan (impedanceMagnitude (r 1024)) = true /\
     F32.is_nan (resistanceR (r 1024)) = true /\
     F32.is_nan (reactanceX (r 1024)) = true /\ all_finite (r 1024) = false) /\
    (F32.is_nan (impedanceMagnitude (r 1025)) = true /\
     F32.is_nan (resistanceR (r 1025)) = true /\
     F32.is_nan (reactanceX (r 1025)) = true /\ all_finite (r 1025) = false).
Proof.
  intros lm r. subst r. cbv beta.
  repeat split; vm_compute; reflexivity.
Qed.

(** ** The AMS state machine *)

Import DebugMode.

(** Case analysis on the condition at the head of an equation [H]. *)
Ltac head_cases H :=
  repeat match type of H with
         | (if ?c then _ else _) = _ => destruct c eqn:?
         | (match ?o with Some _ => _ | None => _ end) = _ => destruct o eqn:?
         | (let '(_, _) := ?e in _) = _ => destruct e
         end.

(** The AMS block keeps the verbose flag and the timeout, and it never
    enables the AMS or leaves the mode set without the enable. *)
Lemma amsBlock_fields (d : State) (env : TickEnv) (currentTime : Z) :
  let a' := fst (amsBlock d env currentTime) in
  amsVerbose_ a' = amsVerbose_ (ams d) /\
  amsTimeout_ a' = amsTimeout_ (ams d) /\
  (amsEnabled_ a' = true -> amsEnabled_ (ams d) = true) /\
  (amsMatching_ a' = true -> amsEnabled_ a' = true \/ amsMatching_ (ams d) = true).
Proof.
  cbv zeta. destruct (amsBlock d env currentTime) as [a' tr] eqn:E.
  unfold amsBlock in E. cbv zeta in E. head_cases E;
    injection E as <- _; cbn [fst amsVerbose_ amsTimeout_ amsEnabled_ amsMatching_];
    repeat split; auto;
    match goal with
    | H : negb (amsEnabled_ _ && _ && _) = false |- _ =>
        apply negb_false_iff in H; apply andb_prop in H; destruct H as [H _];
        apply andb_prop in H; destruct H as [H _]; auto
    | _ => idtac
    end.
Qed.

Lemma handleStreaming_fields (d : State) (env : TickEnv) :
  let d' := fst (handleStreaming d env) in
  iSensor_ d' = iSensor_ d /\ oSensor_ d' = oSensor_ d /\ mBoard_ d' = mBoard_ d /\
  ams d' = fst (amsBlock d env (to_u32 (to_u32 (loopCounter_ d + 1) * 10))).
Proof.
  cbv zeta. unfold handleStreaming. cbv zeta.
  destruct (streamBlocks _ _ _) as [st tr1].
  destruct (amsBlock _ _ _) as [a' tr2]. cbn. auto.
Qed.

Lemma amsCommand_invariant (d : State) (args : AmsArgs) :
  amsInvariant d -> amsInvariant (fst (amsCommand d args)).
Proof.
  unfold amsInvariant. intros (Hm & He & Hv & Ht).
  destruct (amsCommand d args) as [d' tr] eqn:E.
  unfold amsCommand in E. cbv zeta in E. head_cases E; injection E as <- _;
    cbn [fst ams iSensor_ oSensor_ mBoard_ amsEnabled_ amsMatching_ amsVerbose_ amsTimeout_];
    repeat split; auto; try discriminate; try congruence; try lia;
    try (match goal with
         | H : amsEnabled_ (ams d) = true |- _ =>
             destruct (He H) as (? & ? & ?); solve [auto | congruence]
         end);
    try (match goal with
         | H : negb (iSensor_ d) || negb (oSensor_ d) = false |- _ =>
             apply orb_false_elim in H; destruct H as [H1 H2];
             apply negb_false_iff in H1; apply negb_false_iff in H2; auto
         end);
    repeat match goal with
           | |- context [if ?c then _ else _] => destruct c eqn:?
           end;
    repeat match goal with
           | H : (_ >? _) = true |- _ => apply Z.gtb_lt in H
           | H : (_ >? _) = false |- _ => rewrite Z.gtb_ltb in H; apply Z.ltb_ge in H
           | H : (_ <? _) = true |- _ => apply Z.ltb_lt in H
           | H : (_ <? _) = false |- _ => apply Z.ltb_ge in H
           | H : negb _ && _ = false |- _ => apply andb_false_elim in H; destruct H as [H|H]
           | H : negb _ = false |- _ => apply negb_false_iff in H
           | H : (_ =? _) = true |- _ => apply Z.eqb_eq in H
           end; try lia.
Qed.

(** The invariant of the AMS fields holds in every reachable state. *)
Lemma reachable_amsInvariant (d : State) : reachable d -> amsInvariant d.
Proof.
  induction 1 as [i o b|d env Hr IH|d args Hr IH|d st b Hr IH Hb].
  - unfold amsInvariant. cbn. repeat split; try discriminate; lia.
  - destruct IH as (Hm & He & Hv & Ht).
    destruct (handleStreaming_fields d env) as (Hi & Ho & Hb & Ha). cbv zeta in *.
    destruct (amsBlock_fields d env (to_u32 (to_u32 (loopCounter_ d + 1) * 10)))
      as (Fv & Ft & Fe & Fm). cbv zeta in *.
    unfold amsInvariant. rewrite Hi, Ho, Hb, Ha, Fv, Ft.
    repeat split; auto; try lia; try (apply He; auto).
    intros H. destruct (Fm H) as [H'|H']; auto.
    (* the mode was set before and the block left the enable alone *)
    specialize (Hm H').
    revert H. clear - Hm. 
    destruct (amsBlock d env _) as [a' tr] eqn:E.
    unfold amsBlock in E. cbv zeta in E. head_cases E; injection E as <- _;
      cbn [fst amsEnabled_ amsMatching_]; auto; discriminate.
  - apply amsCommand_invariant, IH.
  - destruct IH as (Hm & He & Hv & Ht). unfold amsInvariant. cbn.
    repeat split; auto; try lia; try (apply He; auto).
    intros Hn. destruct (He H) as (_ & _ & Hd). apply Hd, Hb, Hn.
Qed.

Lemma reachable_runTicks (n : nat) (env : TickEnv) (d : State) :
  reachable d -> reachable (runTicks n env d).
Proof.
  revert d. induction n as [|n IH]; intros d Hr; cbn [runTicks]; auto.
  apply IH, reach_tick, Hr.
Qed.

Lemma reachable_afterStart (timeout : Z) (n : nat) : reachable (afterStart timeout n).
Proof.
  unfold afterStart. apply reachable_runTicks, reach_ams, reach_init.
Qed.

(** C7, as stated, fails in its last part.  After [ams 10 1010] and 100
    passes of the loop the state is reachable, the AMS is enabled and the
    next pass finds the timeout of 1010 ms reached; that pass is the 101st
    of the debug counter, so the first thing it emits is the periodic
    [AMS DEBUG] Loop line, and only then the TIMEOUT frame and the ACK. *)
Lemma C7_debug_line_precedes_timeout_frame :
  reachable (afterStart 1010 100) /\
  amsEnabled_ (ams (afterStart 1010 100)) = true /\
  amsTimeout_ (ams (afterStart 1010 100)) = 1010 /\
  to_u32 (to_u32 (to_u32 (loopCounter_ (afterStart 1010 100) + 1) * 10)
          - amsStartTime_ (ams (afterStart 1010 100))) = 1010 /\
  snd (handleStreaming (afterStart 1010 100) matchedEnv) =
    [Printf "[AMS DEBUG] Loop: mode=%s, elapsed=%lu, timeout=%d"
       [AStr "MONITORING"; AInt 1010; AInt 1010];
     Printf "AMS,TIMEOUT,%lu,EN" [AInt 1010];
     SendAck "ams" "TIMEOUT"].
Proof.
  split; [apply reachable_afterStart|].
  vm_compute. repeat split; reflexivity.
Qed.

(** C7, amended.  In every reachable state, mode = Matching implies
    enabled = true.  On any pass of the loop where the AMS is enabled,
    timeout > 0 and the time elapsed since the start has reached the timeout,
    the AMS block sets enabled = false and the mode off, leaves its interval
    bookkeeping alone, and emits the TIMEOUT frame followed by the ACK frame
    and nothing after them: no sensor is sampled and no motor commanded.  The
    only thing the block may emit before the two frames is the [AMS DEBUG]
    Loop line, on the passes where its debug counter is 1 modulo 100 (the
    stream blocks of the pass run before the AMS block). *)
Theorem C7_mode_implies_enabled_and_timeout_stops :
  forall (d : State) (env : TickEnv),
    reachable d ->
    (amsMatching_ (ams d) = true -> amsEnabled_ (ams d) = true) /\
    (let currentTime := to_u32 (to_u32 (loopCounter_ d + 1) * 10) in
     let elapsed := to_u32 (currentTime - amsStartTime_ (ams d)) in
     let r := handleStreaming d env in
     amsEnabled_ (ams d) = true ->
     0 < amsTimeout_ (ams d) ->
     amsTimeout_ (ams d) <= elapsed ->
     amsEnabled_ (ams (fst r)) = false /\
     amsMatching_ (ams (fst r)) = false /\
     lastAmsTime_ (ams (fst r)) = lastAmsTime_ (ams d) /\
     amsLogCounter_ (ams (fst r)) = amsLogCounter_ (ams d) /\
     snd r =
       snd (streamBlocks d env currentTime) ++
       (if Z.rem (to_u32 (amsDebugCounter (ams d) + 1)) 100 =? 1
        then [Printf "[AMS DEBUG] Loop: mode=%s, elapsed=%lu, timeout=%d"
                [AStr (modeName (amsMatching_ (ams d))); AInt elapsed;
                 AInt (amsTimeout_ (ams d))]]
        else []) ++
       [Printf "AMS,TIMEOUT,%lu,EN" [AInt elapsed]; SendAck "ams" "TIMEOUT"]).
Proof.
  intros d env Hr.
  destruct (reachable_amsInvariant d Hr) as (Hm & He & Hv & Ht).
  split; [exact Hm|].
  intros currentTime elapsed r Hen Hpos Hdue.
  destruct (He Hen) as (Hi & Ho & Hb).
  destruct (mBoard_ d) as [b|] eqn:Eb; [|congruence].
  assert (Hto : to_u32 (amsTimeout_ (ams d)) = amsTimeout_ (ams d)).
  { unfold to_u32. apply Z.mod_small. lia. }
  subst r. unfold handleStreaming. cbv zeta. fold currentTime.
  destruct (streamBlocks d env currentTime) as [st tr1].
  unfold amsBlock. cbv zeta. rewrite Eb, Hen, Hi, Ho, Hv, Hto.
  fold elapsed. cbn [andb negb].
  replace (amsTimeout_ (ams d) >? 0) with true
    by (symmetry; apply Z.gtb_lt; lia).
  replace (elapsed >=? amsTimeout_ (ams d)) with true
    by (symmetry; rewrite Z.geb_leb; apply Z.leb_le; lia).
  cbn [andb fst snd ams amsEnabled_ amsMatching_ lastAmsTime_ amsLogCounter_ app].
  repeat split; reflexivity.
Qed.

Lemma C7_timeout_witness :
  let d := afterStart 100 9 in
  let elapsed := to_u32 (to_u32 (to_u32 (loopCounter_ d + 1) * 10) - amsStartTime_ (ams d)) in
  reachable d /\
  amsEnabled_ (ams d) = true /\
  0 < amsTimeout_ (ams d) /\
  amsTimeout_ (ams d) <= elapsed /\
  amsEnabled_ (ams (fst (handleStreaming d matchedEnv))) = false /\
  amsMatching_ (ams (fst (handleStreaming d matchedEnv))) = false /\
  snd (handleStreaming d matchedEnv) =
    [Printf "AMS,TIMEOUT,%lu,EN" [AInt 100]; SendAck "ams" "TIMEOUT"].
Proof.
  cbv zeta.
  destruct (C7_mode_implies_enabled_and_timeout_stops (afterStart 100 9) matchedEnv
              (reachable_afterStart 100 9)) as [_ H].
  cbv zeta in H.
  assert (Hen : amsEnabled_ (ams (afterStart 100 9)) = true)
    by (vm_compute; reflexivity).
  assert (Hpos : 0 < amsTimeout_ (ams (afterStart 100 9)))
    by (vm_compute; reflexivity).
  assert (Hdue : amsTimeout_ (ams (afterStart 100 9)) <=
                 to_u32 (to_u32 (to_u32 (loopCounter_ (afterStart 100 9) + 1) * 10)
                         - amsStartTime_ (ams (afterStart 100 9))))
    by (vm_compute; discriminate).
  destruct (H Hen Hpos Hdue) as (H1 & H2 & _ & _ & H5).
  split; [apply reachable_afterStart|].
  split; [exact Hen|]. split; [exact Hpos|]. split; [exact Hdue|].
  split; [exact H1|]. split; [exact H2|].
  rewrite H5. vm_compute. reflexivity.
Defined.

(** ** Capacitance to position and back *)

(** C8, as stated, fails.  The reference motor is calibrated and has
    min < max; the step 16003 lies in its window, its capacitance is
    truncated to 2500 (25.00 pF) and the inverse map returns 16000, three
    steps away; at 32063, where the capacitance is within the Newton
    tolerance of the initial guess, it returns 32000, 63 steps away. *)
Lemma C8_round_trip_off_by_more_than_one :
  isFittingCalibrated refMotor = true /\
  minValue refMotor < maxValue refMotor /\
  lowerLimit refMotor <= 16003 <= upperLimit refMotor /\
  getCapacitanceAt refMotor 16003 = 2500 /\
  getPositionFromCap refMotor (getCapacitanceAt refMotor 16003) = 16000 /\
  getPositionFromCap refMotor (getCapacitanceAt refMotor 32063) = 32000.
Proof. vm_compute. repeat split; try reflexivity; discriminate. Qed.

Lemma roundTrip_unfold (m : MotorController) (s : Z) :
  roundTrip m s = getPositionFromCap m (getCapacitanceAt m s).
Proof. reflexivity. Qed.

Lemma roundTripWithin_spec (m : MotorController) (tol : Z) (n : nat) :
  forall (lo : Z) (cache : Z * Z) (s : Z),
    snd cache = getPositionFromCap m (fst cache) ->
    roundTripWithin m tol n lo cache = true ->
    lo <= s < lo + Z.of_nat n ->
    Z.abs (roundTrip m s - s) <= tol.
Proof.
  induction n as [|n IH]; intros lo cache s Hc H Hs; [lia|].
  cbn [roundTripWithin] in H. apply andb_prop in H. destruct H as [H1 H2].
  assert (Hp : (if getCapacitanceAt m lo =? fst cache then snd cache
                else getPositionFromCap m (getCapacitanceAt m lo)) =
               getPositionFromCap m (getCapacitanceAt m lo)).
  { destruct (Z.eqb_spec (getCapacitanceAt m lo) (fst cache)) as [E|E]; [|reflexivity].
    rewrite E. exact Hc. }
  rewrite Hp in H1, H2.
  destruct (Z.eq_dec s lo) as [->|Hne].
  - rewrite roundTrip_unfold. apply Z.leb_le, H1.
  - apply (IH (lo + 1) _ s) in H2; [exact H2|reflexivity|lia].
Qed.

(** The loop body breaks only on a residual below the tolerance or on a
    vanishing derivative. *)
Lemma newtonStep_None (m : MotorController) (targetCapPf xNormLower xNormUpper x : f32) :
  newtonStep m targetCapPf xNormLower xNormUpper x = None ->
  (F32.fabsf (cubic m x - targetCapPf) <? flt 0.1)%f32 = true \/
  (F32.fabsf (cubicDeriv m x) <? flt 1e-10)%f32 = true.
Proof.
  unfold newtonStep. cbv zeta.
  destruct (F32.fabsf (cubic m x - targetCapPf) <? flt 0.1)%f32; [left; reflexivity|].
  destruct (F32.fabsf (cubicDeriv m x) <? flt 1e-10)%f32; [right; reflexivity|].
  discriminate.
Qed.

(** When the loop is left through a [break], the body breaks at the value
    it returns. *)
Lemma newtonLoop_break (m : MotorController) (targetCapPf xNormLower xNormUpper : f32)
      (iters : nat) :
  forall x : f32,
    newtonBreak m targetCapPf xNormLower xNormUpper iters x = true ->
    newtonStep m targetCapPf xNormLower xNormUpper
      (newtonLoop m targetCapPf xNormLower xNormUpper iters x) = None.
Proof.
  induction iters as [|iters IH]; intros x Hb; cbn [newtonBreak newtonLoop] in *.
  - discriminate.
  - destruct (newtonStep m targetCapPf xNormLower xNormUpper x) as [x'|] eqn:E.
    + apply IH, Hb.
    + exact E.
Qed.

Lemma refMotor_window : lowerLimit refMotor = 4000 /\ upperLimit refMotor = 60000.
Proof. split; reflexivity. Qed.

(** The whole window, step by step. *)
Lemma refMotor_round_trip_checked :
  roundTripWithin refMotor 70 (Z.to_nat 56001) 4000
    (0, getPositionFromCap refMotor 0) = true.
Proof. vm_cast_no_check (eq_refl true). Qed.

(** C8, amended.  For every calibrated motor the inverse map returns the
    rounding of the normalised position at which the Newton iteration
    stopped, and when it stopped before its 20 passes were used the fitted
    capacitance there is within the tolerance of 0.1 pF of the target (or
    the derivative vanished): the round trip agrees in capacitance, up to
    the tolerance, not in steps.  For the reference calibration (fit
    coefficients (0, 100, 0, 0), travel 0..64000, window 4000..60000) and
    every step s of the window, [getPositionFromCap (getCapacitanceAt s)] is
    within 70 steps of s: 0.1 pF are 64 steps on this slope and the
    capacitance is truncated to 0.01 pF (up to 7 steps more); at s = 16000
    the round trip is exact.  A bound of 1 step does not hold. *)
Theorem C8_round_trip_within_tolerance_of_reference_fit :
  (forall (m : MotorController) (s : Z),
     let xRange := F32.of_int (wrap32 (maxValue m - minValue m)) in
     let target := (F32.of_int (getCapacitanceAt m s) / flt 100.0)%f32 in
     let lo := ((F32.of_int (lowerLimit m) - F32.of_int (minValue m)) / xRange)%f32 in
     let hi := ((F32.of_int (upperLimit m) - F32.of_int (minValue m)) / xRange)%f32 in
     let x0 := ((lo + hi) / flt 2.0)%f32 in
     let x := newtonLoop m target lo hi maxIterations x0 in
     isFittingCalibrated m = true ->
     (xRange >? flt 0.0)%f32 = true ->
     getPositionFromCap m (getCapacitanceAt m s) =
       F32.to_int32 (x * xRange + F32.of_int (minValue m) + flt 0.5)%f32 /\
     (newtonBreak m target lo hi maxIterations x0 = true ->
      (F32.fabsf (cubic m x - target) <? flt 0.1)%f32 = true \/
      (F32.fabsf (cubicDeriv m x) <? flt 1e-10)%f32 = true)) /\
  (forall s : Z,
     lowerLimit refMotor <= s <= upperLimit refMotor ->
     Z.abs (getPositionFromCap refMotor (getCapacitanceAt refMotor s) - s) <= 70) /\
  getPositionFromCap refMotor (getCapacitanceAt refMotor 16000) = 16000.
Proof.
  split; [|split; [|vm_compute; reflexivity]].
  - intros m s xRange target lo hi x0 x Hcal Hrange. split.
    + unfold getPositionFromCap. fold xRange. rewrite Hcal, Hrange.
      reflexivity.
    + intros Hb. apply newtonStep_None with (xNormLower := lo) (xNormUpper := hi).
      apply newtonLoop_break, Hb.
  - intros s Hs.
    destruct refMotor_window as [Hl Hu]. rewrite Hl, Hu in Hs.
    rewrite <- (roundTrip_unfold refMotor s).
    apply (roundTripWithin_spec refMotor 70 (Z.to_nat 56001) 4000
             (0, getPositionFromCap refMotor 0) s (eq_refl _)
             refMotor_round_trip_checked).
    rewrite Z2Nat.id by lia. lia.
Qed.

Lemma C8_round_trip_witness :
  let m := refMotor in
  let xRange := F32.of_int (wrap32 (maxValue m - minValue m)) in
  let target := (F32.of_int (getCapacitanceAt m 16003) / flt 100.0)%f32 in
  let lo := ((F32.of_int (lowerLimit m) - F32.of_int (minValue m)) / xRange)%f32 in
  let hi := ((F32.of_int (upperLimit m) - F32.of_int (minValue m)) / xRange)%f32 in
  let x0 := ((lo + hi) / flt 2.0)%f32 in
  let x := newtonLoop m target lo hi maxIterations x0 in
  isFittingCalibrated m = true /\
  (xRange >? flt 0.0)%f32 = true /\
  newtonBreak m target lo hi maxIterations x0 = true /\
  getPositionFromCap m (getCapacitanceAt m 16003) =
    F32.to_int32 (x * xRange + F32.of_int (minValue m) + flt 0.5)%f32 /\
  ((F32.fabsf (cubic m x - target) <? flt 0.1)%f32 = true \/
   (F32.fabsf (cubicDeriv m x) <? flt 1e-10)%f32 = true) /\
  lowerLimit m <= 16000 <= upperLimit m /\
  Z.abs (getPositionFromCap m (getCapacitanceAt m 16000) - 16000) <= 70 /\
  getPositionFromCap m (getCapacitanceAt m 16000) = 16000.
Proof.
  cbv zeta.
  destruct C8_round_trip_within_tolerance_of_reference_fit as (Hgen & Href & Hexact).
  assert (Hcal : isFittingCalibrated refMotor = true) by (vm_compute; reflexivity).
  assert (Hrange : (F32.of_int (wrap32 (maxValue refMotor - minValue refMotor))
                    >? flt 0.0)%f32 = true) by (vm_compute; reflexivity).
  destruct (Hgen refMotor 16003 Hcal Hrange) as [Hpos Hres].
  assert (Hb : newtonBreak refMotor
                 (F32.of_int (getCapacitanceAt refMotor 16003) / flt 100.0)%f32
                 ((F32.of_int (lowerLimit refMotor) - F32.of_int (minValue refMotor)) /
                  F32.of_int (wrap32 (maxValue refMotor - minValue refMotor)))%f32
                 ((F32.of_int (upperLimit refMotor) - F32.of_int (minValue refMotor)) /
                  F32.of_int (wrap32 (maxValue refMotor - minValue refMotor)))%f32
                 maxIterations
                 (((F32.of_int (lowerLimit refMotor) - F32.of_int (minValue refMotor)) /
                   F32.of_int (wrap32 (maxValue refMotor - minValue refMotor)) +
                   (F32.of_int (upperLimit refMotor) - F32.of_int (minValue refMotor)) /
                   F32.of_int (wrap32 (maxValue refMotor - minValue refMotor))) /
                  flt 2.0)%f32 = true) by (vm_compute; reflexivity).
  assert (H : lowerLimit refMotor <= 16000 <= upperLimit refMotor).
  { destruct refMotor_window as [Hl Hu]. rewrite Hl, Hu. lia. }
  split; [exact Hcal|]. split; [exact Hrange|]. split; [exact Hb|].
  split; [exact Hpos|]. split; [exact (Hres Hb)|]. split; [exact H|].
  split; [exact (Href 16000 H)|exact Hexact].
Defined.
(* ========================================================================= *)
(** * Further properties: the rest of MotorController *)

Import MotorGpio.

(** ** Bit fields of 32-bit words *)

Lemma land_disjoint_add (a b : Z) : Z.land a b = 0 -> Z.lor a b = a + b.
Proof.
  intros H. rewrite (Z.add_nocarry_lxor a b H). symmetry. apply Z.lxor_lor, H.
Qed.

Lemma land_mul4_low (k t : Z) : 0 <= t < 4 -> Z.land (4 * k) t = 0.
Proof.
  intros Ht. apply Z.bits_inj'. intros n Hn.
  rewrite Z.land_spec, Z.bits_0.
  destruct (Z.ltb_spec n 2) as [Hlt|Hge].
  - replace (4 * k) with (k * 2 ^ 2) by lia.
    rewrite Z.mul_pow2_bits_low by lia. reflexivity.
  - rewrite (Z.bits_above_log2 t n); [apply andb_false_r|lia|].
    destruct (Z.eq_dec t 0) as [->|Hne]; [cbn; lia|].
    assert (Z.log2 t < 2) by (apply Z.log2_lt_pow2; lia). lia.
Qed.

Lemma lor_mul4_low (k t : Z) : 0 <= t < 4 -> Z.lor (4 * k) t = 4 * k + t.
Proof. intros Ht. apply land_disjoint_add, land_mul4_low, Ht. Qed.

(** A 32-bit word is its bit 31 plus its low 31 bits. *)
Lemma land_bit31 (raw : Z) :
  0 <= raw < 2 ^ 32 ->
  Z.land raw 2147483648 = 2147483648 * (raw / 2147483648) /\
  Z.land raw 2147483647 = raw mod 2147483648.
Proof.
  intros Hr.
  assert (Hlow : Z.land raw 2147483647 = raw mod 2147483648).
  { change 2147483647 with (Z.ones 31). rewrite Z.land_ones by lia. reflexivity. }
  split; [|exact Hlow].
  assert (Hall : Z.land raw 4294967295 = raw).
  { change 4294967295 with (Z.ones 32). rewrite Z.land_ones by lia.
    apply Z.mod_small. lia. }
  assert (Hsplit : Z.land raw 4294967295 =
                   Z.lor (Z.land raw 2147483648) (Z.land raw 2147483647)).
  { rewrite <- Z.land_lor_distr_r. reflexivity. }
  rewrite land_disjoint_add in Hsplit.
  - rewrite Hall, Hlow in Hsplit.
    pose proof (Z.div_mod raw 2147483648 ltac:(lia)). lia.
  - rewrite Z.land_assoc, (Z.land_comm (Z.land raw 2147483648) raw), Z.land_assoc,
      Z.land_diag, <- Z.land_assoc.
    change (Z.land 2147483648 2147483647) with 0. apply Z.land_0_r.
Qed.

Lemma originBase_eq (position : Z) : originBase position = 4 * (position mod 2 ^ 30).
Proof.
  unfold originBase, to_u32. rewrite Z.shiftl_mul_pow2 by lia.
  change (2 ^ 2) with 4. change (2 ^ 32) with (4 * 2 ^ 30).
  rewrite (Z.mul_comm (position mod (4 * 2 ^ 30)) 4).
  rewrite Z.mul_mod_distr_l by lia. f_equal.
  apply Z.mod_mod_divide. exists 4. lia.
Qed.

(** ** RunMotorForce *)

(** X1.  [RunMotorForce] stores the target itself in the target-position
    register, inside or outside the soft window, and it always logs the
    forced move first: the first thing it does is print the FORCE MOVE line
    with the target and the two limits it passes by.  It stores nothing,
    prints nothing and fails when the GPIO block is not ready.  For a target
    inside the window [RunMotor] stores the same word. *)
Theorem RunMotorForce_stores_target_unclamped :
  forall (m : MotorController) (target : Z) (printStatus : bool) (afterDelayMs : Z),
    let ready := gpioInitialized m && negb (gpioOutBase m =? 0) in
    let r := RunMotorForce m target printStatus afterDelayMs in
    tarPosWrites (gpioOutBase m) (snd r) = (if ready then [to_u32 target] else []) /\
    fst r = (if ready then XST_SUCCESS else XST_FAILURE) /\
    hd_error (snd r) =
      (if ready
       then Some (Printf "[MOTOR] FORCE MOVE to %d (bypassing limits %d~%d)"
                    [AInt target; AInt (lowerLimit m); AInt (upperLimit m)])
       else None) /\
    (lowerLimit m <= target <= upperLimit m ->
     tarPosWrites (gpioOutBase m) (snd (RunMotor m target printStatus afterDelayMs)) =
     tarPosWrites (gpioOutBase m) (snd r)).
Proof.
  intros m target printStatus afterDelayMs ready r. subst ready r.
  unfold RunMotorForce, RunMotor.
  destruct (gpioInitialized m); cbn [negb orb andb]; [|repeat split; auto].
  destruct (gpioOutBase m =? 0) eqn:Hb; cbn [negb]; [repeat split; auto|].
  split; [|split; [reflexivity|split; [reflexivity|]]].
  - destruct printStatus; cbn -[Z.eqb to_u32 Z.mul]; rewrite ?Z.eqb_refl; reflexivity.
  - intros [Hlo Hhi].
    replace (target <? lowerLimit m) with false by (symmetry; apply Z.ltb_ge; lia).
    replace (target >? upperLimit m) with false
      by (symmetry; rewrite Z.gtb_ltb; apply Z.ltb_ge; lia).
    destruct printStatus; cbn -[Z.eqb to_u32 Z.mul]; rewrite ?Z.eqb_refl; reflexivity.
Qed.

Lemma RunMotorForce_witness :
  lowerLimit motor1 <= 5000 <= upperLimit motor1 /\
  tarPosWrites (gpioOutBase motor1) (snd (RunMotor motor1 5000 false 0)) = [5000] /\
  tarPosWrites (gpioOutBase motor1) (snd (RunMotorForce motor1 (-100000) false 0)) =
    [4294867296].
Proof.
  assert (H : lowerLimit motor1 <= 5000 <= upperLimit motor1) by (cbn; lia).
  destruct (RunMotorForce_stores_target_unclamped motor1 5000 false 0)
    as (H1 & _ & _ & H3).
  destruct (RunMotorForce_stores_target_unclamped motor1 (-100000) false 0)
    as (H4 & _ & _ & _).
  split; [exact H|]. split.
  - rewrite (H3 H). exact H1.
  - exact H4.
Defined.

(** ** SetMotorOrigin and SetMotorOriginOnIndex *)

(** X2.  With the GPIO block ready, both origin commands put
    [4 * (position mod 2^30)] on the set-origin word (bits 31..2 carry the
    position, the two trigger bits are clear), raise one trigger bit (bit 0
    for the immediate origin, bit 1 for the origin on index) and clear it
    again.  [SetMotorOrigin] first stores the position in the
    target-position register; [SetMotorOriginOnIndex] never stores to it. *)
Theorem SetMotorOrigin_trigger_sequence :
  forall (m : MotorController) (position : Z),
    gpioInitialized m = true -> gpioOutBase m <> 0 ->
    let base := 4 * (position mod 2 ^ 30) in
    storesTo (gpioOutBase m) 2 (snd (SetMotorOrigin m position)) =
      [base; base + 1; base] /\
    hd_error (snd (SetMotorOrigin m position)) =
      Some (GpioStore (gpioOutBase m) 0 (to_u32 position)) /\
    storesTo (gpioOutBase m) 2 (snd (SetMotorOriginOnIndex m position)) =
      [base; base + 2; base] /\
    storesTo (gpioOutBase m) 0 (snd (SetMotorOriginOnIndex m position)) = [] /\
    Z.shiftr base 2 = position mod 2 ^ 30 /\ 0 <= base < 2 ^ 32.
Proof.
  intros m position Hinit Hbase base.
  assert (Hb : (gpioOutBase m =? 0) = false) by (apply Z.eqb_neq; exact Hbase).
  unfold SetMotorOrigin, SetMotorOriginOnIndex. rewrite Hinit, Hb. cbn [negb orb snd].
  rewrite originBase_eq.
  rewrite (lor_mul4_low (position mod 2 ^ 30) 1) by lia.
  rewrite (lor_mul4_low (position mod 2 ^ 30) 2) by lia. fold base.
  pose proof (Z.mod_pos_bound position (2 ^ 30) ltac:(lia)) as Hm.
  cbn [storesTo hd_error]. rewrite !Z.eqb_refl. cbn [andb].
  change (2 =? 0) with false. change (0 =? 2) with false.
  rewrite ?andb_false_r. cbn [andb].
  repeat split; try reflexivity; try (unfold base; lia).
  unfold base. rewrite Z.shiftr_div_pow2 by lia. change (2 ^ 2) with 4.
  rewrite Z.mul_comm, Z.div_mul by lia. reflexivity.
Qed.

Lemma SetMotorOrigin_witness :
  gpioInitialized motor1 = true /\ gpioOutBase motor1 <> 0 /\
  storesTo (gpioOutBase motor1) 2 (snd (SetMotorOriginOnIndex motor1 3)) = [12; 14; 12] /\
  storesTo (gpioOutBase motor1) 2 (snd (SetMotorOrigin motor1 (-1))) =
    [4294967292; 4294967293; 4294967292].
Proof.
  assert (Hi : gpioInitialized motor1 = true) by reflexivity.
  assert (Hb : gpioOutBase motor1 <> 0) by (cbn; lia).
  destruct (SetMotorOrigin_trigger_sequence motor1 3 Hi Hb) as (_ & _ & H3 & _).
  destruct (SetMotorOrigin_trigger_sequence motor1 (-1) Hi Hb) as (H1 & _).
  split; [exact Hi|]. split; [exact Hb|]. split; [exact H3 | exact H1].
Defined.

(** ** The encoder index word *)

(** X3.  The word of the extended block splits into the stall flag (bit 31)
    and the index position (bits 30..0): for every 32-bit word,
    [raw = readIndexPos + 2^31 * stall] with [0 <= readIndexPos < 2^31];
    before the block is initialised both report nothing (0 and false). *)
Theorem readIndexPos_isStallDetected_split :
  forall (x : ExtGpio) (raw : Z),
    0 <= raw < 2 ^ 32 ->
    let ready := extGpioInitialized x && negb (extGpioBase x =? 0) in
    if ready then
      raw = readIndexPos x raw + (if isStallDetected x raw then 2 ^ 31 else 0) /\
      0 <= readIndexPos x raw < 2 ^ 31 /\
      isStallDetected x raw = (2 ^ 31 <=? raw)
    else readIndexPos x raw = 0 /\ isStallDetected x raw = false.
Proof.
  intros x raw Hr ready. subst ready. unfold readIndexPos, isStallDetected.
  destruct (extGpioInitialized x); cbn [negb orb andb]; [|auto].
  destruct (extGpioBase x =? 0); cbn [negb]; [auto|].
  destruct (land_bit31 raw Hr) as [Hhi Hlo]. rewrite Hhi, Hlo.
  pose proof (Z.mod_pos_bound raw 2147483648 ltac:(lia)) as Hm.
  pose proof (Z.div_mod raw 2147483648 ltac:(lia)) as Hdm.
  change (2 ^ 31) with 2147483648.
  rewrite wrap32_id by (unfold in_int32, INT32_MIN, INT32_MAX; lia).
  assert (Hq : 0 <= raw / 2147483648 < 2).
  { split; [apply Z.div_pos; lia|apply Z.div_lt_upper_bound; lia]. }
  destruct (Z.leb_spec 2147483648 raw) as [Hge|Hlt].
  - assert (raw / 2147483648 = 1) by (assert (0 < raw / 2147483648)
      by (apply Z.div_str_pos; lia); lia).
    replace (2147483648 * (raw / 2147483648) =? 0) with false
      by (symmetry; apply Z.eqb_neq; lia).
    cbn [negb]. repeat split; lia.
  - assert (raw / 2147483648 = 0) by (apply Z.div_small; lia).
    replace (2147483648 * (raw / 2147483648) =? 0) with true
      by (symmetry; apply Z.eqb_eq; lia).
    cbn [negb]. repeat split; lia.
Qed.

Lemma readIndexPos_witness :
  0 <= 2147484648 < 2 ^ 32 /\
  readIndexPos {| extGpioBase := 4096; extGpioInitialized := true; overrideRpmValue := 0 |}
    2147484648 = 1000 /\
  isStallDetected {| extGpioBase := 4096; extGpioInitialized := true; overrideRpmValue := 0 |}
    2147484648 = true.
Proof.
  assert (H : 0 <= 2147484648 < 2 ^ 32) by lia.
  pose proof (readIndexPos_isStallDetected_split
                {| extGpioBase := 4096; extGpioInitialized := true; overrideRpmValue := 0 |}
                2147484648 H) as H0.
  cbv zeta in H0. cbn [extGpioInitialized extGpioBase andb negb Z.eqb] in H0.
  destruct H0 as (H1 & H2 & H3).
  split; [exact H|]. split; [reflexivity|exact H3].
Defined.

(** ** rewindMotor *)

Lemma storesTo_app (base w : Z) (tr1 tr2 : list Effect) :
  storesTo base w (tr1 ++ tr2) = storesTo base w tr1 ++ storesTo base w tr2.
Proof.
  induction tr1 as [|e tr1 IH]; [reflexivity|].
  destruct e; cbn [app storesTo]; auto.
  destruct ((base0 =? base) && (word =? w)); cbn [app]; rewrite IH; reflexivity.
Qed.

(** One pass of the polling loop, in terms of the reads. *)
Lemma rewindLoop_step (m : MotorController) (raw : nat -> Z) (fuel i : nat)
      (elapsedMs printCounter stallCount currentPos : Z) :
  rewindLoop m raw (S fuel) elapsedMs printCounter stallCount
             (polled m raw i) currentPos (S i) =
  if negb (elapsedMs <? MOTOR_REWIND_TIMEOUT_MS) then (false, currentPos, S i, [])
  else
    let elapsedMs := wrap32 (elapsedMs + MOTOR_REWIND_POLL_MS) in
    let pc1 := wrap32 (printCounter + 1) in
    let cur := polled m raw (S i) in
    let diff := wrap32 (polled m raw i - cur) in
    let doPrint := pc1 >=? MOTOR_REWIND_PRINT_INTERVAL in
    let trPoll :=
      Usleep (MOTOR_REWIND_POLL_MS * 1000) ::
      (if doPrint
       then [Printf "[%d] P=%d D=%d" [AInt elapsedMs; AInt cur; AInt diff]]
       else []) in
    let pc2 := if doPrint then 0 else pc1 in
    if slow m raw i then
      let sc := wrap32 (stallCount + 1) in
      let trStall :=
        [Printf "Stall? D=%d %d/%d" [AInt diff; AInt sc; AInt MOTOR_REWIND_STALL_COUNT]] in
      if sc >=? MOTOR_REWIND_STALL_COUNT then
        (true, cur, S (S i),
         trPoll ++ trStall ++
         [GpioStore (gpioOutBase m) 0 (to_u32 (wrap32 (cur + MOTOR_REWIND_OFFSET)));
          Printf "STALL! P=%d" [AInt cur]])
      else
        let '(c, p, k', tr) :=
          rewindLoop m raw fuel elapsedMs pc2 sc cur cur (S (S i)) in
        (c, p, k', trPoll ++ trStall ++ tr)
    else
      let '(c, p, k', tr) :=
        rewindLoop m raw fuel elapsedMs pc2 0 cur cur (S (S i)) in
      (c, p, k', trPoll ++ tr).
Proof. cbn [rewindLoop]. unfold slow, polled. cbv zeta. reflexivity. Qed.

(** The polling loop, started before poll [i] (polls are counted from 1)
    with [stallCount] 1 exactly when the poll before was slow: it stops at
    the first poll [n >= i] that is slow right after a slow one, storing
    the stop position, or runs to poll 2500 without a store. *)
Lemma rewindLoop_spec (m : MotorController) (raw : nat -> Z) :
  gpioOutBase m <> 0 ->
  forall (fuel i : nat) (printCounter stallCount : Z),
    (1 <= i)%nat -> Z.of_nat fuel + Z.of_nat i = 2501 ->
    stallCount = 0 \/ stallCount = 1 ->
    let r := rewindLoop m raw fuel (10 * (Z.of_nat i - 1)) printCounter stallCount
               (polled m raw i) (polled m raw i) (S i) in
    let c := fst (fst (fst r)) in
    let p := snd (fst (fst r)) in
    let k' := snd (fst r) in
    let tr := snd r in
    (c = true ->
     exists n : nat,
       (i <= n)%nat /\ Z.of_nat n <= 2500 /\ k' = S (S n) /\ p = polled m raw (S n) /\
       slow m raw n = true /\
       (if (n =? i)%nat then stallCount = 1 else slow m raw (n - 1) = true) /\
       storesTo (gpioOutBase m) 0 tr = [to_u32 (wrap32 (p + MOTOR_REWIND_OFFSET))]) /\
    (c = false ->
     Z.of_nat k' = 2502 /\ storesTo (gpioOutBase m) 0 tr = [] /\
     forall n : nat,
       (i <= n)%nat -> Z.of_nat n <= 2500 -> slow m raw n = true ->
       (if (n =? i)%nat then stallCount = 1 else slow m raw (n - 1) = true) -> False).
Proof.
  intros Hbase fuel.
  assert (Hb : (gpioOutBase m =? gpioOutBase m) = true) by apply Z.eqb_refl.
  induction fuel as [|fuel IH]; intros i printCounter stallCount Hi Hfuel Hsc.
  - (* the timeout: i = 2501 *)
    cbn [rewindLoop fst snd storesTo]. split; [discriminate|]. intros _.
    repeat split; [lia|]. intros n Hn Hn'. lia.
  - rewrite rewindLoop_step.
    assert (Hel : (10 * (Z.of_nat i - 1) <? MOTOR_REWIND_TIMEOUT_MS) = true)
      by (apply Z.ltb_lt; unfold MOTOR_REWIND_TIMEOUT_MS; lia).
    rewrite Hel. cbn [negb]. cbv zeta.
    rewrite (wrap32_id (10 * (Z.of_nat i - 1) + MOTOR_REWIND_POLL_MS))
      by (unfold in_int32, INT32_MIN, INT32_MAX, MOTOR_REWIND_POLL_MS; lia).
    replace (10 * (Z.of_nat i - 1) + MOTOR_REWIND_POLL_MS)
      with (10 * (Z.of_nat (S i) - 1)) by (unfold MOTOR_REWIND_POLL_MS; lia).
    set (pc1 := wrap32 (printCounter + 1)).
    set (doPrint := pc1 >=? MOTOR_REWIND_PRINT_INTERVAL).
    set (pc2 := if doPrint then 0 else pc1).
    set (trPoll := Usleep _ :: _).
    assert (HtrPoll : storesTo (gpioOutBase m) 0 trPoll = []).
    { unfold trPoll. destruct doPrint; reflexivity. }
    destruct (slow m raw i) eqn:Hs.
    + (* a slow poll *)
      destruct Hsc as [-> | ->].
      * (* first slow poll: the loop goes on with stallCount 1 *)
        change (wrap32 (0 + 1)) with 1.
        change (1 >=? MOTOR_REWIND_STALL_COUNT) with false. cbv iota.
        specialize (IH (S i) pc2 1 ltac:(lia) ltac:(lia) ltac:(right; reflexivity)).
        cbv zeta in IH.
        destruct (rewindLoop m raw fuel (10 * (Z.of_nat (S i) - 1)) pc2 1
                    (polled m raw (S i)) (polled m raw (S i)) (S (S i)))
          as [[[c p] k'] tr] eqn:E.
        cbn [fst snd] in IH |- *. destruct IH as [IHt IHf].
        split.
        -- intros Hc. destruct (IHt Hc) as (n & Hn & Hn' & Hk & Hp & Hsn & Hprev & Hst).
           exists n. repeat split; try lia; auto.
           ++ destruct (Nat.eqb_spec n i) as [->|Hne]; [lia|].
              destruct (Nat.eqb_spec n (S i)) as [->|Hne2]; [|exact Hprev].
              replace (S i - 1)%nat with i by lia. exact Hs.
           ++ rewrite !storesTo_app, HtrPoll. cbn [storesTo app]. exact Hst.
        -- intros Hc. destruct (IHf Hc) as (Hk & Hst & Hno).
           repeat split; auto.
           ++ rewrite !storesTo_app, HtrPoll. cbn [storesTo app]. exact Hst.
           ++ intros n Hn Hn' Hsn Hprev.
              destruct (Nat.eqb_spec n i) as [->|Hne]; [discriminate|].
              apply (Hno n ltac:(lia) Hn' Hsn).
              destruct (Nat.eqb_spec n (S i)) as [->|Hne2]; [reflexivity|exact Hprev].
      * (* second slow poll in a row: the stop *)
        change (wrap32 (1 + 1)) with 2.
        change (2 >=? MOTOR_REWIND_STALL_COUNT) with true. cbv iota.
        cbn [fst snd]. split; [|discriminate]. intros _.
        exists i. rewrite Nat.eqb_refl. repeat split; try lia; auto.
        rewrite !storesTo_app, HtrPoll. cbn [storesTo app]. rewrite Hb.
        reflexivity.
    + (* normal movement: stallCount back to 0 *)
      specialize (IH (S i) pc2 0 ltac:(lia) ltac:(lia) ltac:(left; reflexivity)).
      cbv zeta in IH.
      destruct (rewindLoop m raw fuel (10 * (Z.of_nat (S i) - 1)) pc2 0
                  (polled m raw (S i)) (polled m raw (S i)) (S (S i)))
        as [[[c p] k'] tr] eqn:E.
      cbn [fst snd] in IH |- *. destruct IH as [IHt IHf].
      split.
      * intros Hc. destruct (IHt Hc) as (n & Hn & Hn' & Hk & Hp & Hsn & Hprev & Hst).
        destruct (Nat.eqb_spec n (S i)) as [->|Hne2]; [discriminate|].
        exists n. repeat split; try lia; auto.
        -- destruct (Nat.eqb_spec n i) as [->|Hne]; [lia|exact Hprev].
        -- rewrite !storesTo_app, HtrPoll. cbn [storesTo app]. exact Hst.
      * intros Hc. destruct (IHf Hc) as (Hk & Hst & Hno).
        repeat split; auto.
        -- rewrite !storesTo_app, HtrPoll. cbn [storesTo app]. exact Hst.
        -- intros n Hn Hn' Hsn Hprev.
           destruct (Nat.eqb_spec n i) as [->|Hne]; [congruence|].
           apply (Hno n ltac:(lia) Hn' Hsn).
           destruct (Nat.eqb_spec n (S i)) as [->|Hne2]; [|exact Hprev].
           replace (S i - 1)%nat with i in Hprev by lia. congruence.
Qed.

(** The loop never needs more than its 2500 passes: more fuel changes
    nothing. *)
Lemma rewindLoop_fuel (m : MotorController) (raw : nat -> Z) (extra : nat) :
  forall (fuel : nat) (elapsedMs printCounter stallCount prevPos currentPos : Z) (k : nat),
    0 <= elapsedMs ->
    MOTOR_REWIND_TIMEOUT_MS <= elapsedMs + 10 * Z.of_nat fuel ->
    rewindLoop m raw (fuel + extra) elapsedMs printCounter stallCount prevPos currentPos k =
    rewindLoop m raw fuel elapsedMs printCounter stallCount prevPos currentPos k.
Proof.
  unfold MOTOR_REWIND_TIMEOUT_MS.
  induction fuel as [|fuel IH]; intros e pc sc prev cur k He Hf.
  - cbn [Nat.add]. destruct extra as [|extra]; [reflexivity|].
    cbn [rewindLoop]. unfold MOTOR_REWIND_TIMEOUT_MS.
    replace (e <? 25000) with false by (symmetry; apply Z.ltb_ge; lia).
    reflexivity.
  - cbn [Nat.add rewindLoop]. unfold MOTOR_REWIND_TIMEOUT_MS.
    destruct (Z.ltb_spec e 25000) as [Hlt|Hge]; cbn [negb]; [|reflexivity].
    assert (Hw : wrap32 (e + MOTOR_REWIND_POLL_MS) = e + 10)
      by (apply wrap32_id; unfold in_int32, INT32_MIN, INT32_MAX, MOTOR_REWIND_POLL_MS; lia).
    rewrite Hw. rewrite !IH by lia. reflexivity.
Qed.

(** The loop stores to the target-position word only. *)
Lemma rewindLoop_word2 (m : MotorController) (raw : nat -> Z) (base : Z) :
  forall (fuel : nat) (elapsedMs printCounter stallCount prevPos currentPos : Z) (k : nat),
    storesTo base 2
      (snd (rewindLoop m raw fuel elapsedMs printCounter stallCount prevPos currentPos k)) = [].
Proof.
  induction fuel as [|fuel IH]; intros e pc sc prev cur k; [reflexivity|].
  cbn [rewindLoop].
  destruct (negb (e <? MOTOR_REWIND_TIMEOUT_MS)); [reflexivity|]. cbv zeta.
  set (trPrint := if _ >=? MOTOR_REWIND_PRINT_INTERVAL then _ else []).
  assert (Hp : storesTo base 2 (Usleep (MOTOR_REWIND_POLL_MS * 1000) :: trPrint) = []).
  { unfold trPrint. destruct (_ >=? MOTOR_REWIND_PRINT_INTERVAL); reflexivity. }
  destruct (_ <? MOTOR_REWIND_THRESHOLD).
  - destruct (_ >=? MOTOR_REWIND_STALL_COUNT).
    + cbn [snd]. rewrite !storesTo_app, Hp. cbn [storesTo app].
      change (0 =? 2) with false. rewrite andb_false_r. reflexivity.
    + match goal with
      | |- context [rewindLoop m raw fuel ?a ?b ?c ?d ?f ?g] =>
          specialize (IH a b c d f g);
          destruct (rewindLoop m raw fuel a b c d f g) as [[[c0 p0] k0] tr0]
      end.
      cbn [snd] in IH |- *. rewrite !storesTo_app, Hp, IH. reflexivity.
  - match goal with
    | |- context [rewindLoop m raw fuel ?a ?b ?c ?d ?f ?g] =>
        specialize (IH a b c d f g);
        destruct (rewindLoop m raw fuel a b c d f g) as [[[c0 p0] k0] tr0]
    end.
    cbn [snd] in IH |- *. rewrite !storesTo_app, Hp, IH. reflexivity.
Qed.

Lemma setOverrideRpm_ready (x : ExtGpio) (rpm : Z) :
  extGpioInitialized x && negb (extGpioBase x =? 0) = true ->
  setOverrideRpm x rpm =
  ({| extGpioBase := extGpioBase x; extGpioInitialized := extGpioInitialized x;
      overrideRpmValue := rpm |}, [GpioStore (extGpioBase x) 2 rpm]).
Proof.
  intros H. unfold setOverrideRpm.
  destruct (extGpioInitialized x); [|discriminate].
  destruct (extGpioBase x =? 0); [discriminate|]. reflexivity.
Qed.

Lemma setOverrideRpm_not_ready (x : ExtGpio) (rpm : Z) :
  extGpioInitialized x && negb (extGpioBase x =? 0) = false ->
  setOverrideRpm x rpm = (x, []).
Proof.
  intros H. unfold setOverrideRpm.
  destruct (extGpioInitialized x); [|reflexivity].
  destruct (extGpioBase x =? 0); [reflexivity|discriminate].
Qed.



(* ========================================================================= *)
(** * Further properties: the UART receive path and the command console *)

Import CStr.

Lemma streq_eq (a b : list Z) : streq a b = true <-> a = b.
Proof.
  revert b. induction a as [|x a IH]; intros [|y b]; cbn [streq];
    try (split; [discriminate|discriminate]); try (split; reflexivity).
  rewrite andb_true_iff, Z.eqb_eq, IH. split.
  - intros [-> ->]. reflexivity.
  - intros H. injection H as -> ->. auto.
Qed.

Lemma store_app (pre post : list Z) (x v : Z) :
  store (pre ++ x :: post) (Z.of_nat (List.length pre)) v = pre ++ v :: post.
Proof.
  unfold store. rewrite Nat2Z.id.
  rewrite firstn_app, firstn_all, Nat.sub_diag. cbn [firstn]. rewrite app_nil_r.
  f_equal. f_equal.
  replace (S (List.length pre)) with (List.length (pre ++ [x])) by (rewrite length_app; cbn [List.length]; lia).
  rewrite (app_assoc pre [x] post : pre ++ x :: post = (pre ++ [x]) ++ post).
  rewrite skipn_app, skipn_all, Nat.sub_diag. reflexivity.
Qed.

(** ** handler_uart_impl *)

Import Communication.

Lemma receive_holds (s : RxState) (pre : list Z) (w : Z) :
  holds s pre ->
  holds (receive s w) (firstn 1023 (pre ++ payload [w])) /\
  Recv_Complete (receive s w) = Recv_Complete s || (w =? 13) /\
  Rx_buf_copy (receive s w) = Rx_buf_copy s.
Proof.
  intros (Hbuf & Hidx & Hlen). unfold receive, payload. cbn [filter map].
  destruct (w =? 13) eqn:Hcr; cbn [negb andb app].
  - rewrite app_nil_r, firstn_all2 by lia. rewrite orb_true_r. repeat split; auto.
  - destruct (w =? 10) eqn:Hlf; cbn [negb andb map app].
    + rewrite app_nil_r, firstn_all2 by lia. rewrite orb_false_r. repeat split; auto.
    + change ((UART_RX_BUF_SIZE - 1) mod 65536) with 1023.
      destruct (Z.ltb_spec (bUart0_BufIndex s) 1023) as [Hlt|Hge];
        cbn [Rx_buf bUart0_BufIndex Recv_Complete Rx_buf_copy];
        rewrite orb_false_r.
      * assert (Hn : (List.length pre < 1023)%nat) by lia.
        rewrite firstn_all2 by (rewrite length_app; cbn [List.length]; lia).
        repeat split; auto.
        -- rewrite Hbuf, Hidx.
           replace (1024 - List.length pre)%nat with (S (1024 - List.length (pre ++ [w mod 256])))
             by (rewrite length_app; cbn [List.length]; lia).
           cbn [repeat]. rewrite store_app, <- app_assoc. reflexivity.
        -- rewrite Hidx, length_app. cbn [List.length].
           rewrite Nat2Z.inj_add. change (Z.of_nat 1) with 1.
           apply Z.mod_small. lia.
        -- rewrite length_app. cbn [List.length]. lia.
      * assert (Hn : List.length pre = 1023%nat) by lia.
        rewrite firstn_app, firstn_all2 by lia.
        rewrite Hn, Nat.sub_diag. cbn [firstn]. rewrite app_nil_r.
        repeat split; auto.
Qed.

Lemma payload_app (a b : list Z) : payload (a ++ b) = payload a ++ payload b.
Proof. unfold payload. rewrite filter_app, map_app. reflexivity. Qed.

Lemma firstn_firstn_app (n : nat) (a b : list Z) :
  firstn n (firstn n a ++ b) = firstn n (a ++ b).
Proof.
  destruct (Nat.le_gt_cases (List.length a) n) as [Hle|Hgt].
  - rewrite (@firstn_all2 _ n a) by lia. reflexivity.
  - rewrite !firstn_app, firstn_firstn, Nat.min_id.
    rewrite length_firstn, Nat.min_l by lia.
    replace (n - List.length a)%nat with 0%nat by lia.
    rewrite Nat.sub_diag. reflexivity.
Qed.

Lemma fold_receive_holds (fifo : list Z) :
  forall (s : RxState) (pre : list Z),
    holds s pre ->
    holds (fold_left receive fifo s) (firstn 1023 (pre ++ payload fifo)) /\
    Recv_Complete (fold_left receive fifo s) =
      Recv_Complete s || existsb (fun w => w =? 13) fifo /\
    Rx_buf_copy (fold_left receive fifo s) = Rx_buf_copy s.
Proof.
  induction fifo as [|w fifo IH]; intros s pre H.
  - cbn [fold_left payload filter map existsb]. rewrite app_nil_r, orb_false_r.
    destruct H as (? & ? & ?). rewrite firstn_all2 by lia. repeat split; auto.
  - cbn [fold_left existsb].
    destruct (receive_holds s pre w H) as (H1 & H2 & H3).
    destruct (IH _ _ H1) as (H4 & H5 & H6).
    rewrite firstn_firstn_app in H4.
    change (w :: fifo) with ([w] ++ fifo). rewrite payload_app, app_assoc.
    repeat split; try apply H4.
    + rewrite H5, H2. symmetry. apply orb_assoc.
    + congruence.
Qed.

Lemma cstring_app_nul (a b : list Z) : cstring (a ++ 0 :: b) = cstring a.
Proof.
  induction a as [|c a IH]; cbn [app cstring]; [reflexivity|].
  destruct (c =? 0); [reflexivity|]. rewrite IH. reflexivity.
Qed.

Lemma cstring_clean (l : list Z) : Forall (fun c => c <> 0) l -> cstring l = l.
Proof.
  induction 1 as [|c l Hc _ IH]; cbn [cstring]; [reflexivity|].
  replace (c =? 0) with false by (symmetry; apply Z.eqb_neq; exact Hc).
  rewrite IH. reflexivity.
Qed.

(** X5.  After [resetCommandState], whatever words the FIFO delivers, the
    receive buffer holds the first 1023 of the characters received that are
    neither CR nor LF (the low byte of each word), followed by zeros: the
    index never passes 1023, the last cell is never written and the buffer
    stays NUL-terminated.  [Recv_Complete] is set exactly when a CR was
    among the words, and the command [runCommandLoop] then reads is the
    string of the first 255 of those characters. *)
Theorem handler_uart_impl_fills_buffer :
  forall (s0 : RxState) (raw_isr_status imr : Z) (fifo : list Z),
    let s := fst (handler_uart_impl (resetCommandState s0) raw_isr_status imr fifo) in
    let received := firstn 1023 (payload fifo) in
    Rx_buf s = received ++ repeat 0 (1024 - List.length received) /\
    List.length (Rx_buf s) = 1024%nat /\
    bUart0_BufIndex s = Z.of_nat (List.length received) /\
    nth 1023 (Rx_buf s) 1 = 0 /\
    Recv_Complete s = existsb (fun w => w =? 13) fifo /\
    cstring (Console.commandBuffer s) = cstring (firstn 255 (payload fifo)).
Proof.
  intros s0 isr imr fifo s received.
  assert (H0 : holds (resetCommandState s0) []).
  { unfold holds, resetCommandState. cbn. repeat split; lia. }
  destruct (fold_receive_holds fifo _ _ H0) as ((Hbuf & Hidx & Hlen) & Hc & _).
  cbn [app] in Hbuf, Hidx, Hlen. fold received in Hbuf, Hidx, Hlen.
  unfold handler_uart_impl in s. cbn [fst] in s. fold s in Hbuf, Hidx, Hc.
  assert (Hl : List.length (Rx_buf s) = 1024%nat).
  { rewrite Hbuf, length_app, repeat_length. lia. }
  repeat split; auto.
  - rewrite Hbuf, app_nth2 by lia.
    rewrite (nth_indep _ 1 0) by (rewrite repeat_length; lia). apply nth_repeat.
  - unfold Console.commandBuffer, getRxBufferIndex, getRxBuffer.
    rewrite cstring_app_nul, Hidx, Hbuf.
    destruct (Z.ltb_spec (Z.of_nat (List.length received)) 255) as [Hlt|Hge].
    + rewrite Nat2Z.id, firstn_app, firstn_all, Nat.sub_diag, firstn_O.
      rewrite app_nil_r. unfold received in *.
      rewrite length_firstn in Hlt.
      rewrite (@firstn_all2 _ 255) by lia.
      rewrite firstn_all2 by lia. reflexivity.
    + change (Z.to_nat 255) with 255%nat.
      rewrite firstn_app. replace (255 - List.length received)%nat with 0%nat by lia.
      rewrite firstn_O, app_nil_r. unfold received.
      rewrite firstn_firstn. reflexivity.
Qed.

(** ** processCommand: the tokenizer *)

Import Console.

Lemma tokenizeLoop_tokens (p : list Z) :
  forall (tokens : list (list Z)) (cur : list Z),
    (List.length tokens <= 16)%nat -> Forall isToken tokens ->
    (List.length cur <= 63)%nat -> Forall isTokenChar cur ->
    (List.length tokens = 16%nat -> cur = []) ->
    let r := tokenizeLoop p tokens cur in
    (List.length (fst r) <= 16)%nat /\ Forall isToken (fst r) /\
    (List.length (snd r) <= 63)%nat /\ Forall isTokenChar (snd r) /\
    (List.length (fst r) = 16%nat -> snd r = []).
Proof.
  induction p as [|c p IH]; intros tokens cur Hn Htok Hc Hcur Hfull;
    cbn [tokenizeLoop]; [cbn [fst snd]; auto|].
  destruct (Z.eqb_spec c 0) as [Hz|Hz]; cbn [orb]; [cbn [fst snd]; auto|].
  destruct (Z.ltb_spec (Z.of_nat (List.length tokens)) 16) as [Hlt|Hge];
    cbn [negb]; [|cbn [fst snd]; auto].
  destruct (isBlank c) eqn:Hb.
  - destruct (Z.ltb_spec 0 (Z.of_nat (List.length cur))) as [Hpos|Hemp].
    + apply IH; auto.
      * rewrite length_app. cbn [List.length]. lia.
      * apply Forall_app. split; [exact Htok|].
        constructor; [|constructor]. split; [lia|exact Hcur].
      * cbn. lia.
    + apply IH; auto.
  - destruct (Z.ltb_spec (Z.of_nat (List.length cur)) 63) as [Hroom|Hfullrow].
    + apply IH; auto.
      * rewrite length_app. cbn [List.length]. lia.
      * apply Forall_app. split; [exact Hcur|].
        constructor; [|constructor]. split; assumption.
      * intros H16. lia.
    + apply IH; auto.
Qed.

Lemma lowerChar_spec (c : Z) :
  isTokenChar c -> isTokenChar (lowerChar c) /\ ~ (65 <= lowerChar c <= 90).
Proof.
  intros [Hz Hb]. unfold lowerChar.
  destruct (Z.geb_spec c 65) as [Hge|Hlt]; cbn [andb].
  - destruct (Z.leb_spec c 90) as [Hle|Hgt].
    + rewrite Z.mod_small by lia. split; [|lia]. split; [lia|].
      unfold isBlank.
      repeat match goal with
             | |- context [?a =? ?b] => destruct (Z.eqb_spec a b); [lia|]
             end. reflexivity.
    + split; [split; assumption|lia].
  - split; [split; assumption|lia].
Qed.

(** The arguments [processCommand] builds from a command buffer. *)
Lemma argv_shape :
  forall cmd : list Z,
    let argv := expandAbbreviations (tokenize cmd) in
    (List.length argv <= 16)%nat /\
    Forall (fun arg =>
              (1 <= List.length arg <= 63)%nat /\
              Forall (fun c => isTokenChar c /\ ~ (65 <= c <= 90)) arg) argv /\
    (forall r, snd (processCommand cmd) = Some r ->
               fst r = argv /\ argv <> [] /\ snd r = executeCommand argv).
Proof.
  intros cmd argv.
  assert (Htok : (List.length (tokenize cmd) <= 16)%nat /\ Forall isToken (tokenize cmd)).
  { unfold tokenize.
    pose proof (tokenizeLoop_tokens cmd [] [] ltac:(cbn; lia) ltac:(constructor)
                  ltac:(cbn; lia) ltac:(constructor) ltac:(discriminate)) as H.
    cbv zeta in H. destruct (tokenizeLoop cmd [] []) as [tokens cur].
    cbn [fst snd] in H. destruct H as (Hn & Htok & Hc & Hcur & Hfull).
    destruct (Z.ltb_spec 0 (Z.of_nat (List.length cur))) as [Hpos|Hemp]; [|auto].
    split.
    - rewrite length_app. cbn [List.length].
      destruct (Nat.eq_dec (List.length tokens) 16) as [E|E]; [|lia].
      rewrite (Hfull E) in Hpos. cbn in Hpos. lia.
    - apply Forall_app. split; [exact Htok|].
      constructor; [|constructor]. split; [lia|exact Hcur]. }
  destruct Htok as [Hn Htok].
  split; [|split].
  - subst argv. unfold expandAbbreviations. rewrite length_map. exact Hn.
  - subst argv. unfold expandAbbreviations. apply Forall_map.
    eapply Forall_impl; [|exact Htok].
    intros t [Hlen Hch].
    rewrite (@firstn_all2 _ 63 t) by lia.
    rewrite skipn_all2 by lia. rewrite app_nil_r, length_map.
    split; [exact Hlen|].
    apply Forall_map. eapply Forall_impl; [|exact Hch].
    intros c Hc. apply lowerChar_spec, Hc.
  - intros r. unfold processCommand.
    destruct (Z.of_nat (List.length (cstring cmd)) =? 0); [discriminate|].
    destruct (Z.eqb_spec (Z.of_nat (List.length (tokenize cmd))) 0) as [E|E];
      cbn [snd]; [discriminate|].
    intros H. injection H as <-. cbn [fst snd]. repeat split.
    subst argv. unfold expandAbbreviations. intros Hnil.
    apply map_eq_nil in Hnil. rewrite Hnil in E. cbn in E. lia.
Qed.

(** X6.  For every command buffer, [processCommand] hands
    [executeCommand] at most 16 arguments, each of 1 to 63 characters (so
    every row of [tokens[16][64]] has room for its terminator), none of them
    NUL, blank or an upper-case letter. *)
Theorem processCommand_argv_shape :
  forall cmd : list Z,
    let argv := expandAbbreviations (tokenize cmd) in
    (List.length argv <= 16)%nat /\
    Forall (fun arg =>
              (1 <= List.length arg <= 63)%nat /\
              Forall (fun c => isTokenChar c /\ ~ (65 <= c <= 90)) arg) argv /\
    (forall r, snd (processCommand cmd) = Some r ->
               fst r = argv /\ argv <> [] /\ snd r = executeCommand argv).
Proof. exact argv_shape. Qed.

(** The loop takes a word into the current row. *)
Lemma tokenizeLoop_word (w : list Z) :
  forall (p : list Z) (tokens : list (list Z)) (cur : list Z),
    Forall isTokenChar w ->
    (List.length tokens < 16)%nat -> (List.length cur + List.length w <= 63)%nat ->
    tokenizeLoop (w ++ p) tokens cur = tokenizeLoop p tokens (cur ++ w).
Proof.
  induction w as [|c w IH]; intros p tokens cur Hw Hn Hlen.
  - rewrite app_nil_r. reflexivity.
  - inversion Hw as [|c' w' [Hz Hb] Hw']; subst.
    cbn [app tokenizeLoop]. cbn [List.length] in Hlen.
    replace (c =? 0) with false by (symmetry; apply Z.eqb_neq; exact Hz).
    replace (Z.of_nat (List.length tokens) <? 16) with true
      by (symmetry; apply Z.ltb_lt; lia).
    cbn [orb negb]. rewrite Hb.
    replace (Z.of_nat (List.length cur) <? 63) with true
      by (symmetry; apply Z.ltb_lt; lia).
    rewrite IH; auto.
    + rewrite <- app_assoc. reflexivity.
    + rewrite length_app. cbn [List.length]. lia.
Qed.

Lemma tokenizeLoop_words (ws : list (list Z)) :
  forall (tokens : list (list Z)) (cur : list Z),
    Forall isToken ws -> isToken cur ->
    (List.length tokens + 1 + List.length ws <= 16)%nat ->
    tokenizeLoop (flat_map (fun w' => 32 :: w') ws) tokens cur =
    (tokens ++ removelast (cur :: ws), last (cur :: ws) []).
Proof.
  induction ws as [|w ws IH]; intros tokens cur Hws Hcur Hn.
  - cbn. rewrite app_nil_r. reflexivity.
  - inversion Hws as [|w' ws' [Hlen Hw] Hws']; subst.
    destruct Hcur as [Hclen Hcch].
    cbn [flat_map app tokenizeLoop List.length] in *.
    change (32 =? 0) with false.
    replace (Z.of_nat (List.length tokens) <? 16) with true
      by (symmetry; apply Z.ltb_lt; lia).
    cbn [orb negb]. change (isBlank 32) with true. cbv iota.
    replace (0 <? Z.of_nat (List.length cur)) with true
      by (symmetry; apply Z.ltb_lt; lia).
    rewrite tokenizeLoop_word; auto.
    + cbn [app]. rewrite IH; auto.
      * rewrite <- app_assoc. reflexivity.
      * split; assumption.
      * rewrite length_app. cbn [List.length]. lia.
    + rewrite length_app. cbn [List.length]. lia.
    + cbn [List.length]. lia.
Qed.

(** X7.  A line of at most 16 words, each of 1 to 63 characters that are
    neither NUL nor blank, separated by single spaces, is split back into
    exactly those words, put in lower case. *)
Theorem processCommand_splits_words :
  forall words : list (list Z),
    words <> [] -> (List.length words <= 16)%nat -> Forall isToken words ->
    tokenize (joinWords words) = words /\
    snd (processCommand (joinWords words)) =
      Some (map (map lowerChar) words, executeCommand (map (map lowerChar) words)).
Proof.
  intros words Hne Hn Hw.
  assert (Htok : tokenize (joinWords words) = words).
  { destruct words as [|w ws]; [congruence|].
    inversion Hw as [|w' ws' Hw0 Hws]; subst.
    unfold tokenize, joinWords.
    rewrite tokenizeLoop_word
      by (first [apply Hw0 | cbn; lia | destruct Hw0 as [Hl _]; cbn [List.length]; lia]).
    cbn [app].
    rewrite tokenizeLoop_words by (auto; cbn [List.length] in *; lia).
    cbn [app].
    assert (Hlast : (0 <? Z.of_nat (List.length (last (w :: ws) []))) = true).
    { apply Z.ltb_lt.
      assert (Hin : In (last (w :: ws) []) (w :: ws)).
      { destruct (@exists_last _ (w :: ws) ltac:(discriminate)) as (l' & a & E).
        rewrite E, last_last. apply in_or_app. right. left. reflexivity. }
      rewrite Forall_forall in Hw. destruct (Hw _ Hin) as [Hl _]. lia. }
    rewrite Hlast. symmetry. apply app_removelast_last. discriminate. }
  split; [exact Htok|].
  unfold processCommand. rewrite Htok.
  assert (Hexp : expandAbbreviations words = map (map lowerChar) words).
  { unfold expandAbbreviations. apply map_ext_in. intros t Ht.
    rewrite Forall_forall in Hw. destruct (Hw t Ht) as [Hl _].
    rewrite (@firstn_all2 _ 63 t) by lia. rewrite skipn_all2 by lia.
    apply app_nil_r. }
  rewrite Hexp.
  destruct words as [|w ws]; [congruence|].
  inversion Hw as [|w' ws' [Hl Hch] Hws]; subst.
  destruct w as [|c w]; [cbn in Hl; lia|].
  inversion Hch as [|c' w' [Hz Hb] Hch']; subst.
  cbn [joinWords app cstring].
  replace (c =? 0) with false by (symmetry; apply Z.eqb_neq; exact Hz).
  cbn [List.length].
  replace (Z.of_nat (S _) =? 0) with false by (symmetry; apply Z.eqb_neq; lia).
  replace (Z.of_nat (S _) =? 0) with false by (symmetry; apply Z.eqb_neq; lia).
  reflexivity.
Qed.

Lemma processCommand_splits_words_witness :
  [str "AMS"; str "10"] <> [] /\
  (List.length [str "AMS"; str "10"] <= 16)%nat /\
  tokenize (joinWords [str "AMS"; str "10"]) = [str "AMS"; str "10"] /\
  snd (processCommand (joinWords [str "AMS"; str "10"])) =
    Some ([str "ams"; str "10"], RAutoMatch).
Proof.
  assert (Hne : [str "AMS"; str "10"] <> []) by discriminate.
  assert (Hn : (List.length [str "AMS"; str "10"] <= 16)%nat) by (cbn; lia).
  assert (Hw : Forall isToken [str "AMS"; str "10"]).
  { repeat constructor; cbn; try lia; try discriminate. }
  split; [exact Hne|]. split; [exact Hn|].
  exact (processCommand_splits_words [str "AMS"; str "10"] Hne Hn Hw).
Defined.

(** ** executeCommand and the four handlers *)

(** Settles the tests [named cmd n] of the goal one after the other: where
    one holds the command is that name and the rest is computed. *)
Ltac by_name cmd :=
  repeat match goal with
         | |- context [named cmd ?n] =>
             let H := fresh "H" in
             destruct (named cmd n) eqn:H;
             [apply streq_eq in H; subst cmd; vm_compute;
              first [ solve [repeat split; try discriminate; auto]
                    | solve [eexists; repeat split;
                             first [reflexivity | intro; discriminate]]
                    | solve [repeat split; auto 6] ]|]
         end.

(** X8.  [executeCommand] and the handlers agree on every command name but
    two: a command sent to a handler always has a branch there (the
    handlers' closing "Unknown ... command" lines are never reached), and
    the only branches no command reaches are ass and ags of
    [handleAutoMatchCommand], which [executeCommand] answers with
    "Unknown command". *)
Theorem executeCommand_reaches_handler_branches :
  forall (cmd : list Z) (rest : list (list Z)),
    match executeCommand (cmd :: rest) with
    | RDevice => handleDeviceCommand_branch cmd <> None
    | RRf => handleRfCommand_branch cmd <> None
    | RMotor => handleMotorCommand_branch cmd <> None
    | RAutoMatch =>
        exists n, handleAutoMatchCommand_branch cmd = Some n /\
                  n <> "ass"%string /\ n <> "ags"%string
    | RUnknown =>
        handleDeviceCommand_branch cmd = None /\
        handleRfCommand_branch cmd = None /\
        handleMotorCommand_branch cmd = None /\
        (handleAutoMatchCommand_branch cmd = None \/
         handleAutoMatchCommand_branch cmd = Some "ass"%string \/
         handleAutoMatchCommand_branch cmd = Some "ags"%string)
    | _ => True
    end /\
    executeCommand (str "ass" :: rest) = RUnknown /\
    executeCommand (str "ags" :: rest) = RUnknown /\
    handleAutoMatchCommand_branch (str "ass") = Some "ass"%string /\
    handleAutoMatchCommand_branch (str "ags") = Some "ags"%string.
Proof.
  intros cmd rest. split; [|repeat split; reflexivity].
  unfold executeCommand.
  unfold handleDeviceCommand_branch, handleRfCommand_branch,
    handleMotorCommand_branch, handleAutoMatchCommand_branch.
  cbn [branchOf].
  by_name cmd.
  cbn [orb]. repeat split; auto.
Qed.

(** ** The hexadecimal arguments of dfr and dfw *)

Lemma forall_bytes (P : Z -> bool) :
  forallb P (map Z.of_nat (seq 0 256)) = true ->
  forall b : Z, 0 <= b < 256 -> P b = true.
Proof.
  intros H b Hb. rewrite forallb_forall in H. apply H.
  apply in_map_iff. exists (Z.to_nat b). split; [lia|].
  apply in_seq. lia.
Qed.

(** X9.  The hexadecimal digits of dfr and dfw are read correctly as
    ["%02X"] prints them, in upper case; but the console puts every
    argument in lower case first, and a lower-case a..f is decoded by the
    upper-case branch as 42..47: in the low digit that sets bit 5 of the
    byte.  So a byte whose low digit is A..F and whose bit 5 is clear (0x0A,
    0x1B, 0x4C, ...) does not survive a dfb backup followed by dfr. *)
Theorem hexByte_lower_case_sets_bit5 :
  forall b : Z,
    0 <= b < 256 ->
    hexByte (hexDigit (b / 16)) (hexDigit (b mod 16)) = b /\
    hexByte (lowerChar (hexDigit (b / 16))) (lowerChar (hexDigit (b mod 16))) =
      (if 10 <=? b mod 16 then Z.lor b 32 else b) /\
    hexByte (lowerChar (hexDigit 0)) (lowerChar (hexDigit 10)) = 42.
Proof.
  intros b Hb.
  assert (H : hexReadBack b = true).
  { apply forall_bytes; [vm_compute; reflexivity|exact Hb]. }
  unfold hexReadBack in H. apply andb_prop in H. destruct H as [H1 H2].
  apply Z.eqb_eq in H1, H2. repeat split; auto.
Qed.

Lemma hexByte_witness :
  0 <= 26 < 256 /\
  hexByte (lowerChar (hexDigit 1)) (lowerChar (hexDigit 10)) = 58.
Proof.
  assert (H : 0 <= 26 < 256) by lia.
  destruct (hexByte_lower_case_sets_bit5 26 H) as (_ & H2 & _).
  split; [exact H|]. exact H2.
Defined.

(** The inner loop of dfr takes every remaining pair of characters when
    they fit the chunk. *)
Lemma dfrChunk_all (hexData : list Z) (k : nat) :
  forall (room hexIdx : nat),
    List.length hexData = (hexIdx + 2 * k)%nat -> (k <= room)%nat ->
    exists bytes,
      dfrChunk hexData hexIdx room = (bytes, List.length hexData) /\
      List.length bytes = k.
Proof.
  induction k as [|k IH]; intros room idx Hlen Hroom.
  - exists []. split; [|reflexivity].
    destruct room as [|room]; cbn [dfrChunk]; [f_equal; lia|].
    replace (Z.of_nat idx <? Z.of_nat (List.length hexData)) with false
      by (symmetry; apply Z.ltb_ge; lia).
    f_equal. lia.
  - destruct room as [|room]; [lia|]. cbn [dfrChunk].
    replace (Z.of_nat idx <? Z.of_nat (List.length hexData)) with true
      by (symmetry; apply Z.ltb_lt; lia).
    destruct (IH room (S (S idx)) ltac:(lia) ltac:(lia)) as (bytes & E & Hb).
    rewrite E. eexists. split; [reflexivity|]. cbn [List.length]. lia.
Qed.

(** X10.  Whatever line is typed, the data argument of dfr reaches the
    handler cut to at most 63 characters, so a dfr that passes its checks
    makes exactly one write, at address 0, of 1 to 31 bytes: the 512-byte
    limit of the handler is never reached, a hexadecimal string of more
    than 63 characters is cut to 63 and refused as odd, and a backup longer
    than 31 bytes cannot be restored. *)
Theorem dfr_writes_at_most_31_bytes :
  forall (cmd : list Z) (argv : list (list Z)) (route : Route),
    snd (processCommand cmd) = Some (argv, route) ->
    (List.length (nth 2 argv []) <= 63)%nat /\
    forall writes,
      dfr argv = Some writes ->
      exists bytes,
        writes = [(0, bytes)] /\ (1 <= List.length bytes <= 31)%nat /\
        (2 * List.length bytes = List.length (nth 2 argv []))%nat.
Proof.
  intros cmd argv route Hp.
  destruct (argv_shape cmd) as (Hn & Hshape & Hr).
  destruct (Hr _ Hp) as (Hargv & _ & _). cbn [fst] in Hargv. subst argv.
  set (argv := expandAbbreviations (tokenize cmd)) in *.
  assert (Hlen3 : (3 <= List.length argv)%nat ->
                  (1 <= List.length (nth 2 argv []) <= 63)%nat).
  { intros H3. rewrite Forall_forall in Hshape.
    apply (Hshape (nth 2 argv [])). apply nth_In. lia. }
  split.
  - destruct (Nat.le_gt_cases 3 (List.length argv)) as [H3|H3]; [apply Hlen3, H3|].
    rewrite nth_overflow by lia. cbn. lia.
  - intros writes. unfold dfr.
    destruct (Z.ltb_spec (Z.of_nat (List.length argv)) 3) as [Hlt|Hge]; [discriminate|].
    specialize (Hlen3 ltac:(lia)).
    set (hexData := nth 2 argv []) in *.
    destruct (Z.eqb_spec (Z.rem (Z.of_nat (List.length hexData)) 2) 0) as [Hev|Hodd];
      cbn [negb]; [|discriminate].
    destruct (Z.of_nat (List.length hexData) ÷ 2 >? 512); [discriminate|].
    intros H. injection H as <-.
    rewrite Z.rem_mod_nonneg in Hev by lia.
    assert (Hk : exists k : nat, List.length hexData = (2 * k)%nat /\ (1 <= k <= 31)%nat).
    { exists (Z.to_nat (Z.of_nat (List.length hexData) / 2)).
      pose proof (Z.div_mod (Z.of_nat (List.length hexData)) 2 ltac:(lia)). lia. }
    destruct Hk as (k & Hk & Hk31).
    destruct (dfrChunk_all hexData k 32 0 ltac:(lia) ltac:(lia)) as (bytes & E & Hb).
    exists bytes. split; [|lia].
    destruct (List.length hexData) as [|[|fuel]] eqn:El; [lia|lia|].
    cbn [dfrWrites]. rewrite El.
    replace (Z.of_nat 0 <? Z.of_nat (S (S fuel))) with true
      by (symmetry; apply Z.ltb_lt; lia).
    unfold CHUNK_SIZE. rewrite E.
    replace (Z.of_nat (S (S fuel)) <? Z.of_nat (S (S fuel))) with false
      by (symmetry; apply Z.ltb_ge; lia).
    reflexivity.
Qed.

Lemma dfr_witness :
  snd (processCommand (str "dfr 2 0A1B")) =
    Some ([str "dfr"; str "2"; str "0a1b"], RDevice) /\
  (List.length (str "0a1b") <= 63)%nat.
Proof.
  assert (Hp : snd (processCommand (str "dfr 2 0A1B")) =
               Some ([str "dfr"; str "2"; str "0a1b"], RDevice))
    by (vm_compute; reflexivity).
  split; [exact Hp|].
  exact (proj1 (dfr_writes_at_most_31_bytes (str "dfr 2 0A1B")
                  [str "dfr"; str "2"; str "0a1b"] RDevice Hp)).
Defined.

(* ========================================================================= *)
(** * Further properties: capacitance of an uncalibrated motor *)

(** A configuration whose limits and capacitances are within 10^9 in size,
    so that their differences fit 32 bits. *)
Lemma wrap32_small (z : Z) : - 2000000000 <= z <= 2000000000 -> wrap32 z = z.
Proof. intros H. apply wrap32_id. unfold in_int32, INT32_MIN, INT32_MAX. lia. Qed.

(** X11.  Take a motor without fit coefficients whose travel and
    capacitance band are in order ([minValue < maxValue], [minCap < maxCap];
    the firmware stores both as they are given and does not check this) and
    whose limits, capacitances and argument are at most 10^9 in size, so
    that no 32-bit difference wraps.  Then the capacitance is interpolated
    linearly between [minCap] at [minValue] and [maxCap] at [maxValue]: at
    such a position it lies in [minCap, maxCap], and it is [minCap] below
    the travel and [maxCap] above it; the inverse map returns a step in
    [minValue, maxValue] for such a capacitance; and when the capacitance
    range is at least as wide as the travel, a step of the travel mapped to
    a capacitance and back comes out the same or one step lower. *)
Theorem linear_interpolation_round_trip :
  forall (m : MotorController) (pos : Z),
    isFittingCalibrated m = false ->
    Z.abs (minValue m) <= 1000000000 -> Z.abs (maxValue m) <= 1000000000 ->
    Z.abs (minCap m) <= 1000000000 -> Z.abs (maxCap m) <= 1000000000 ->
    Z.abs pos <= 1000000000 ->
    minValue m < maxValue m -> minCap m < maxCap m ->
    minCap m <= getCapacitanceAt m pos <= maxCap m /\
    (pos <= minValue m -> getCapacitanceAt m pos = minCap m) /\
    (maxValue m <= pos -> getCapacitanceAt m pos = maxCap m) /\
    (forall cap : Z, Z.abs cap <= 1000000000 ->
       minValue m <= getPositionFromCap m cap <= maxValue m) /\
    (maxValue m - minValue m <= maxCap m - minCap m ->
     minValue m <= pos <= maxValue m ->
     pos - 1 <= getPositionFromCap m (getCapacitanceAt m pos) <= pos).
Proof.
  intros m pos Hcal Hmin Hmax Hcmin Hcmax Hpos Hlt Hclt.
  set (P := maxValue m - minValue m). set (R := maxCap m - minCap m).
  assert (HP : 0 < P) by (unfold P; lia). assert (HR : 0 < R) by (unfold R; lia).
  (* the forward map *)
  assert (Hfwd : forall p, Z.abs p <= 1000000000 ->
            getCapacitanceAt m p =
            minCap m + (R * Z.max 0 (Z.min P (p - minValue m))) / P).
  { intros p Hp. unfold getCapacitanceAt. rewrite Hcal. cbn [andb].
    replace (maxValue m <=? minValue m) with false by (symmetry; apply Z.leb_gt; lia).
    fold P R. rewrite (wrap32_small R), (wrap32_small P), (wrap32_small (p - minValue m))
      by (unfold P, R; lia).
    set (o := Z.max 0 (Z.min P (p - minValue m))).
    assert (Ho : (if (if p - minValue m <? 0 then 0 else p - minValue m) >? P then P
                  else (if p - minValue m <? 0 then 0 else p - minValue m)) = o).
    { unfold o. destruct (Z.ltb_spec (p - minValue m) 0);
        [replace (0 >? P) with false by (symmetry; rewrite Z.gtb_ltb; apply Z.ltb_ge; lia); lia|].
      rewrite Z.gtb_ltb. destruct (Z.ltb_spec P (p - minValue m)); lia. }
    rewrite Ho.
    assert (Hq : 0 <= (R * o) / P <= R).
    { split; [apply Z.div_pos; unfold o; nia|].
      apply Z.div_le_upper_bound; [lia|unfold o; nia]. }
    rewrite Z.quot_div_nonneg by (unfold o; nia).
    rewrite (wrap32_small ((R * o) / P)) by (unfold R in *; lia).
    apply wrap32_small. unfold R in *. lia. }
  (* the inverse map *)
  assert (Hinv : forall c, Z.abs c <= 1000000000 ->
            getPositionFromCap m c =
            minValue m + (P * Z.max 0 (Z.min R (c - minCap m))) / R).
  { intros c Hc. unfold getPositionFromCap. rewrite Hcal. cbn [andb].
    replace (maxCap m <=? minCap m) with false by (symmetry; apply Z.leb_gt; lia).
    fold P R. rewrite (wrap32_small R), (wrap32_small P), (wrap32_small (c - minCap m))
      by (unfold P, R; lia).
    set (o := Z.max 0 (Z.min R (c - minCap m))).
    assert (Ho : (if (if c - minCap m <? 0 then 0 else c - minCap m) >? R then R
                  else (if c - minCap m <? 0 then 0 else c - minCap m)) = o).
    { unfold o. destruct (Z.ltb_spec (c - minCap m) 0);
        [replace (0 >? R) with false by (symmetry; rewrite Z.gtb_ltb; apply Z.ltb_ge; lia); lia|].
      rewrite Z.gtb_ltb. destruct (Z.ltb_spec R (c - minCap m)); lia. }
    rewrite Ho.
    assert (Hq : 0 <= (P * o) / R <= P).
    { split; [apply Z.div_pos; unfold o; nia|].
      apply Z.div_le_upper_bound; [lia|unfold o; nia]. }
    rewrite Z.quot_div_nonneg by (unfold o; nia).
    rewrite (wrap32_small ((P * o) / R)) by (unfold P in *; lia).
    apply wrap32_small. unfold P in *. lia. }
  assert (Hrange : forall p, Z.abs p <= 1000000000 ->
            0 <= (R * Z.max 0 (Z.min P (p - minValue m))) / P <= R).
  { intros p Hp. split; [apply Z.div_pos; nia|].
    apply Z.div_le_upper_bound; [lia|nia]. }
  rewrite (Hfwd pos Hpos). pose proof (Hrange pos Hpos) as Hq.
  split; [unfold R in *; lia|]. split; [|split; [|split]].
  - intros Hle. replace (Z.max 0 (Z.min P (pos - minValue m))) with 0 by lia.
    rewrite Z.mul_0_r, Z.div_0_l by lia. lia.
  - intros Hge. replace (Z.max 0 (Z.min P (pos - minValue m))) with P by lia.
    rewrite Z.div_mul by lia. unfold R. lia.
  - intros cap Hcap. rewrite (Hinv cap Hcap).
    assert (0 <= (P * Z.max 0 (Z.min R (cap - minCap m))) / R <= P).
    { split; [apply Z.div_pos; nia|]. apply Z.div_le_upper_bound; [lia|nia]. }
    unfold P in *. lia.
  - intros HPR Hin.
    replace (Z.max 0 (Z.min P (pos - minValue m))) with (pos - minValue m) in * by lia.
    set (o := pos - minValue m) in *. set (q := (R * o) / P) in *.
    rewrite Hinv by (unfold R in *; lia).
    replace (minCap m + q - minCap m) with q by lia.
    replace (Z.max 0 (Z.min R q)) with q by lia.
    assert (Hq1 : P * q <= R * o) by (unfold q; apply Z.mul_div_le; lia).
    assert (Hq2 : R * o < P * q + P).
    { unfold q. pose proof (Z.mod_pos_bound (R * o) P HP).
      pose proof (Z.div_mod (R * o) P ltac:(lia)). lia. }
    assert (Hup : (P * q) / R <= o) by (apply Z.div_le_upper_bound; lia).
    assert (Hlo : o - 1 <= (P * q) / R).
    { apply Z.div_le_lower_bound; [lia|]. nia. }
    unfold o in *. lia.
Qed.

Lemma linear_interpolation_witness :
  isFittingCalibrated motor1 = false /\
  minValue motor1 < maxValue motor1 /\ minCap motor1 < maxCap motor1 /\
  maxValue motor1 - minValue motor1 <= maxCap motor1 - minCap motor1 /\
  minValue motor1 <= 16003 <= maxValue motor1 /\
  16003 - 1 <= getPositionFromCap motor1 (getCapacitanceAt motor1 16003) <= 16003.
Proof.
  assert (Hcal : isFittingCalibrated motor1 = false) by (vm_compute; reflexivity).
  assert (H1 : minValue motor1 < maxValue motor1) by (cbn; lia).
  assert (H2 : minCap motor1 < maxCap motor1) by (cbn; lia).
  assert (H3 : maxValue motor1 - minValue motor1 <= maxCap motor1 - minCap motor1)
    by (cbn; lia).
  assert (H4 : minValue motor1 <= 16003 <= maxValue motor1) by (cbn; lia).
  destruct (linear_interpolation_round_trip motor1 16003 Hcal
              ltac:(cbn; lia) ltac:(cbn; lia) ltac:(cbn; lia) ltac:(cbn; lia)
              ltac:(lia) H1 H2) as (_ & _ & _ & _ & H5).
  repeat split; auto; apply (H5 H3 H4).
Defined.
(* ========================================================================= *)
(** * Further properties: the motion board protocol and the FRAM map *)

Import Teensy.

Lemma land_high_low (n a b : Z) : 0 <= n -> 0 <= a < 2 ^ n -> Z.land a (b * 2 ^ n) = 0.
Proof.
  intros Hn Ha. apply Z.bits_inj'. intros k Hk.
  rewrite Z.land_spec, Z.bits_0.
  destruct (Z.ltb_spec k n) as [Hlt|Hge].
  - rewrite Z.mul_pow2_bits_low by lia. apply andb_false_r.
  - destruct (Z.eq_dec a 0) as [->|Hne]; [rewrite Z.bits_0; reflexivity|].
    rewrite (Z.bits_above_log2 a k); [reflexivity|lia|].
    assert (Z.log2 a < n) by (apply Z.log2_lt_pow2; lia). lia.
Qed.

(** The low byte, and the high byte moved up, give back a 16-bit value. *)
Lemma bytes_of_word16 (v : Z) :
  0 <= v < 65536 ->
  Z.lor (Z.land v 255) (Z.shiftl (Z.land (Z.shiftr v 8) 255) 8) = v /\
  0 <= Z.land v 255 < 256 /\ 0 <= Z.land (Z.shiftr v 8) 255 < 256 /\
  256 * Z.land (Z.shiftr v 8) 255 + Z.land v 255 = v.
Proof.
  intros Hv.
  change 255 with (Z.ones 8). rewrite !Z.land_ones by lia.
  rewrite Z.shiftr_div_pow2, Z.shiftl_mul_pow2 by lia.
  change (2 ^ 8) with 256.
  assert (Hq : 0 <= v / 256 < 256).
  { split; [apply Z.div_pos; lia | apply Z.div_lt_upper_bound; lia]. }
  rewrite (Z.mod_small (v / 256)) by lia.
  pose proof (Z.mod_pos_bound v 256 ltac:(lia)) as Hm.
  pose proof (Z.div_mod v 256 ltac:(lia)) as Hd.
  repeat split; try lia.
  rewrite land_disjoint_add; [lia|].
  change 256 with (2 ^ 8). apply land_high_low; [lia|]. change (2 ^ 8) with 256. lia.
Qed.

(** X12.  The motion board protocol carries 16-bit values intact.  A
    register value goes out low byte first in bytes 3 and 4 of the frame of
    [writeReg], and [readReg] puts a reply of these two bytes together to the
    same value; every byte of the frame is a byte.  The header of a FRAM
    command carries the address high byte first. *)
Theorem writeReg_readReg_little_endian :
  forall (boardAddr spi reg val : Z) (r : Reply),
    0 <= spi < 256 -> 0 <= reg < 256 -> 0 <= val < 65536 ->
    sendStatus r = 0 -> recvStatus r = 0 ->
    rx r = skipn 3 (writeRegFrame spi reg val) ->
    readReg boardAddr spi reg r =
      (0, Some val, [Send boardAddr [CMD_READ_REG; spi; reg]; Recv boardAddr 2]) /\
    Forall (fun b => 0 <= b < 256) (writeRegFrame spi reg val) /\
    (forall cmd len : Z,
       256 * nth 1 (framHeader cmd val len) 0 + nth 2 (framHeader cmd val len) 0 = val).
Proof.
  intros boardAddr spi reg val r Hspi Hreg Hval Hs Hr Hrx.
  destruct (bytes_of_word16 val Hval) as (Hlor & Hlo & Hhi & Hsum).
  split; [|split].
  - unfold readReg. rewrite Hs, Hr. cbn [Z.eqb negb].
    unfold word16, rxBuf. rewrite Hrx. cbn [writeRegFrame skipn nth].
    rewrite Hlor. rewrite Z.mod_small by lia. reflexivity.
  - unfold writeRegFrame, CMD_WRITE_REG.
    repeat (apply Forall_cons; [lia|]). apply Forall_nil.
  - intros cmd len. cbn [framHeader nth]. exact Hsum.
Qed.

Lemma writeReg_readReg_witness :
  (0 <= 1 < 256 /\ 0 <= 3 < 256 /\ 0 <= 4660 < 65536) /\
  readReg 8 1 3 {| sendStatus := 0; recvStatus := 0; rx := [52; 18] |} =
    (0, Some 4660, [Send 8 [1; 1; 3]; Recv 8 2]).
Proof.
  split; [lia|].
  apply (writeReg_readReg_little_endian 8 1 3 4660
           {| sendStatus := 0; recvStatus := 0; rx := [52; 18] |});
    first [lia | reflexivity].
Defined.

Import Fram.

Lemma forallb_In_Forall {A : Type} (f : A -> bool) (l : list A) :
  forallb f l = true -> forall x, In x l -> f x = true.
Proof. intros H x Hx. rewrite forallb_forall in H. apply H, Hx. Qed.

(** X13.  The records of the FRAM map do not overlap: the bytes any save
    function writes are disjoint from the bytes of every other record, and
    every write fits the 256-byte transmit buffer behind its header.  This
    also holds when a write fails (the function then stops early) and for
    the write of one index position: [saveFirstIndexPos(motorIdx, pos)]
    refuses an index outside 0..31 and otherwise writes the four bytes of
    that entry, inside the table of index positions. *)
Theorem fram_records_do_not_overlap :
  laidOut records = true /\
  (forall (ok : nat -> bool) (w : WriteCall),
     (In w (saveCalibrationInfo ok) -> In w (saveCalibrationInfo (fun _ => true))) /\
     (In w (saveMotorLimits ok) -> In w (saveMotorLimits (fun _ => true))) /\
     (In w (saveMotorFitCoeffs ok) -> In w (saveMotorFitCoeffs (fun _ => true)))) /\
  (forall motorIdx : Z,
     match saveFirstIndexPosAt motorIdx with
     | None => motorIdx < 0 \/ 32 <= motorIdx
     | Some (addr, len) =>
         0 <= motorIdx < 32 /\ len = 4 /\
         addr = FRAM_ADDR_INDEX_POS + 4 * motorIdx /\
         FRAM_ADDR_INDEX_POS <= addr /\
         addr + len <= FRAM_ADDR_INDEX_POS + sizeof_firstIndexPos /\
         FRAM_ADDR_INDEX_POS + sizeof_firstIndexPos = FRAM_ADDR_MOTOR_LIMITS
     end).
Proof.
  split; [vm_compute; reflexivity|split].
  - intros ok w.
    unfold saveCalibrationInfo, saveMotorLimits, saveMotorFitCoeffs.
    destruct (ok 0%nat); cbn [In]; tauto.
  - intros motorIdx. unfold saveFirstIndexPosAt.
    destruct (Z.ltb_spec motorIdx 0) as [Hlt|Hge]; cbn [orb]; [lia|].
    rewrite Z.geb_leb.
    destruct (Z.leb_spec 32 motorIdx) as [Hhi|Hlo]; [lia|].
    unfold FRAM_ADDR_INDEX_POS, sizeof_firstIndexPos, FRAM_ADDR_MOTOR_LIMITS.
    rewrite Z.mod_small by lia. lia.
Qed.

(* ========================================================================= *)
(** * Further properties: the stream rates *)

Import StreamControl.

Lemma rateOk_inRange (rate : Z) : rateOk rate = true -> inRange rate.
Proof. unfold rateOk, inRange. intros H. apply andb_prop in H. lia. Qed.

Lemma validated_inRange (v : Z) :
  inRange (if (v >=? 10) && (v <=? 5000) then v else 100).
Proof.
  destruct ((v >=? 10) && (v <=? 5000)) eqn:E; [apply rateOk_inRange, E|].
  unfold inRange. lia.
Qed.

Lemma pick_inRange (rate cur : Z) :
  inRange cur -> inRange (if rateOk rate then rate else cur).
Proof.
  intros H. destruct (rateOk rate) eqn:E; [apply rateOk_inRange, E|exact H].
Qed.

Ltac split_rates := repeat match goal with |- _ /\ _ => split end.

(** X14.  Every stream rate stays within 10..5000 ms.  From the state the
    constructors build, no sequence of the rrs, rrv, mrp and mss commands
    (whatever their arguments), of loads from FRAM (whatever the FRAM
    holds, or when the read fails), of applications of the board settings,
    of stream passes and of exits from the command loop brings one of the
    five rates of the console or one of the three rates of the board out of
    this range. *)
Theorem stream_rates_stay_in_range :
  forall c : Config, reachableConfig c -> ratesInRange c.
Proof.
  intros c Hc. induction Hc as
    [ hasBoard
    | st b isInput run rate _ IH
    | st b isInput run rate _ IH
    | st b run rate _ IH
    | st b saved impRate viRate posRate _ IH
    | st mi ret settings _ IH
    | st b _ IH
    | d env currentTime b _ IH
    | st b _ IH ].
  - unfold ratesInRange, inRange. destruct hasBoard; cbn; lia.
  - destruct IH as (H1 & H2 & H3 & H4 & H5 & H6); cbn [fst snd] in *.
    unfold rrs, ratesInRange. cbn [fst snd].
    destruct rate as [rate|]; [destruct run; cbn [andb]; [destruct (rateOk rate) eqn:E|]|];
      destruct isInput; cbn; split_rates; auto using rateOk_inRange.
  - destruct IH as (H1 & H2 & H3 & H4 & H5 & H6); cbn [fst snd] in *.
    unfold rrv, ratesInRange. cbn [fst snd].
    destruct rate as [rate|]; [destruct run; cbn [andb]; [destruct (rateOk rate) eqn:E|]|];
      destruct isInput; cbn; split_rates; auto using rateOk_inRange.
  - destruct IH as (H1 & H2 & H3 & H4 & H5 & H6); cbn [fst snd] in *.
    unfold mrp, ratesInRange. cbn [fst snd].
    destruct rate as [rate|]; [destruct run; cbn [andb]; [destruct (rateOk rate) eqn:E|]|];
      cbn; split_rates; auto using rateOk_inRange.
  - destruct IH as (H1 & H2 & H3 & H4 & H5 & H6); cbn [fst snd] in *.
    unfold mss, ratesInRange. cbn [fst snd] in *.
    destruct b as [mi|]; cbn; split_rates; auto using pick_inRange.
  - destruct IH as (H1 & H2 & H3 & H4 & H5 & H6); cbn [fst snd] in *.
    unfold ratesInRange. cbn [fst snd] in *.
    split_rates; auto.
    + unfold loadStreamSettings. destruct (negb (ret =? 0)); cbn;
        [unfold inRange; lia | apply validated_inRange].
    + unfold loadStreamSettings. destruct (negb (ret =? 0)); cbn;
        [unfold inRange; lia | apply validated_inRange].
    + unfold loadStreamSettings. destruct (negb (ret =? 0)); cbn;
        [unfold inRange; lia | apply validated_inRange].
  - destruct IH as (H1 & H2 & H3 & H4 & H5 & H6); cbn [fst snd] in *.
    unfold applyStreamSettingsFromBoard, ratesInRange. cbn [fst snd] in *.
    destruct b as [mi|]; cbn [fst snd]; [|split_rates; auto].
    destruct H6 as (B1 & B2 & B3). cbn. split_rates; auto.
  - destruct IH as (H1 & H2 & H3 & H4 & H5 & H6); cbn [fst snd] in *.
    unfold ratesInRange, DebugMode.streamBlocks. cbn [fst snd] in *.
    split_rates; auto.
  - destruct IH as (H1 & H2 & H3 & H4 & H5 & H6); cbn [fst snd] in *.
    unfold ratesInRange. cbn [fst snd] in *. cbn. split_rates; auto.
Qed.

Lemma stream_rates_witness :
  reachableConfig Probe2.afterMss /\ ratesInRange Probe2.afterMss.
Proof.
  assert (H : reachableConfig Probe2.afterMss).
  { unfold Probe2.afterMss. cbv zeta. apply cfg_mss. apply cfg_rrs. apply (cfg_init true). }
  split; [exact H|]. exact (stream_rates_stay_in_range Probe2.afterMss H).
Defined.
(* ========================================================================= *)
(** * Further properties: the block RAM readers of RFSensor *)

Import SensorIO.

Lemma checkFftHoldStatus_withBram (s : Sensor) (v_re' v_im' i_re' i_im' : Z -> f32)
      (k : nat) (index : Z) :
  checkFftHoldStatus (withBram s v_re' v_im' i_re' i_im') k index =
  checkFftHoldStatus s k index.
Proof. reflexivity. Qed.

Lemma waitHold_withBram (s : Sensor) (v_re' v_im' i_re' i_im' : Z -> f32)
      (timeout k : nat) (st : bool * bool * Z * Z) :
  waitHold (withBram s v_re' v_im' i_re' i_im') timeout k st = waitHold s timeout k st.
Proof.
  revert k st. induction timeout as [|t IH]; intros k st; [reflexivity|].
  cbn [waitHold]. destruct st as [[[a b] hv] hi].
  rewrite !checkFftHoldStatus_withBram.
  destruct (checkFftHoldStatus s k hv) as [okv hv1].
  destruct (checkFftHoldStatus s (S k) hi) as [oki hi1].
  destruct (okv && oki); [reflexivity|apply IH].
Qed.

(** The index a status word carries stays what it was or is the low 31
    bits of a status word. *)
Lemma checkFftHoldStatus_index (s : Sensor) (P : Z -> Prop) (k : nat) (index : Z) :
  P index -> (forall j, P (Z.land (gate_status s j) 2147483647)) ->
  P (snd (checkFftHoldStatus s k index)).
Proof.
  intros H0 H. unfold checkFftHoldStatus.
  destruct (gate_gpio_base_ s =? 0); cbn [snd]; auto.
Qed.

Lemma waitHold_index (s : Sensor) (P : Z -> Prop) (timeout k : nat)
      (a b : bool) (hv hi : Z) :
  P hv -> P hi -> (forall j, P (Z.land (gate_status s j) 2147483647)) ->
  P (snd (fst (waitHold s timeout k (a, b, hv, hi)))) /\
  P (snd (waitHold s timeout k (a, b, hv, hi))).
Proof.
  intros Hv Hi H. revert k a b hv hi Hv Hi.
  induction timeout as [|t IH]; intros k a b hv hi Hv Hi; [cbn; auto|].
  cbn [waitHold].
  pose proof (checkFftHoldStatus_index s P k hv Hv H) as H1.
  pose proof (checkFftHoldStatus_index s P (S k) hi Hi H) as H2.
  destruct (checkFftHoldStatus s k hv) as [okv hv1].
  destruct (checkFftHoldStatus s (S k) hi) as [oki hi1].
  cbn [snd] in H1, H2.
  destruct (okv && oki); [cbn; auto|apply IH; assumption].
Qed.

Lemma accumulate_withBram (s : Sensor) (v_re' v_im' i_re' i_im' : Z -> f32)
      (start_addr_v start_addr_i idx : Z) (acc : Sums) :
  0 < fftLength s ->
  (forall a, 0 <= a < fftLength s ->
     v_re' a = v_re s a /\ v_im' a = v_im s a /\
     i_re' a = i_re s a /\ i_im' a = i_im s a) ->
  0 <= start_addr_v -> 0 <= start_addr_i -> 0 <= idx ->
  accumulate (withBram s v_re' v_im' i_re' i_im') start_addr_v start_addr_i acc idx =
  accumulate s start_addr_v start_addr_i acc idx.
Proof.
  intros HL Hsame Hv Hi Hidx. unfold accumulate.
  cbn [withBram fftLength v_re v_im i_re i_im].
  destruct (Hsame (Z.rem (start_addr_v + idx) (fftLength s))) as (E1 & E2 & _);
    [apply Z.rem_bound_pos; lia|].
  destruct (Hsame (Z.rem (start_addr_i + idx) (fftLength s))) as (_ & _ & E3 & E4);
    [apply Z.rem_bound_pos; lia|].
  rewrite E1, E2, E3, E4. reflexivity.
Qed.

Lemma accumulateLoop_withBram (s : Sensor) (v_re' v_im' i_re' i_im' : Z -> f32)
      (start_addr_v start_addr_i : Z) (n : nat) (idx : Z) (acc : Sums) :
  0 < fftLength s ->
  (forall a, 0 <= a < fftLength s ->
     v_re' a = v_re s a /\ v_im' a = v_im s a /\
     i_re' a = i_re s a /\ i_im' a = i_im s a) ->
  0 <= start_addr_v -> 0 <= start_addr_i -> 0 <= idx ->
  accumulateLoop (withBram s v_re' v_im' i_re' i_im') start_addr_v start_addr_i n idx acc =
  accumulateLoop s start_addr_v start_addr_i n idx acc.
Proof.
  intros HL Hsame Hv Hi. revert idx acc.
  induction n as [|n IH]; intros idx acc Hidx; [reflexivity|].
  cbn [accumulateLoop]. rewrite accumulate_withBram by assumption.
  apply IH. lia.
Qed.

(** The start address of the averaged measurement is not negative. *)
Lemma start_addr_nonneg (hold_index avgCount L : Z) :
  0 < L -> 1 <= avgCount <= L -> 0 <= hold_index -> hold_index + L <= 2 ^ 31 ->
  0 <= Z.rem (wrap32 (wrap32 (wrap32 hold_index - avgCount) + L)) L.
Proof.
  intros HL Ha H0 H1.
  assert (E1 : wrap32 hold_index = hold_index)
    by (apply wrap32_id; unfold in_int32, INT32_MIN, INT32_MAX; lia).
  assert (E2 : wrap32 (hold_index - avgCount) = hold_index - avgCount)
    by (apply wrap32_id; unfold in_int32, INT32_MIN, INT32_MAX; lia).
  assert (E3 : wrap32 (hold_index - avgCount + L) = hold_index - avgCount + L)
    by (apply wrap32_id; unfold in_int32, INT32_MIN, INT32_MAX; lia).
  rewrite E1, E2, E3. apply Z.rem_nonneg; lia.
Qed.

(** X15.  The averaged measurement reads the block RAM only inside the
    arrays.  When the index the hold status reports leaves room for one
    array length below 2^31 (an index into the array does), the result of
    [calculateAveragedImpedance] depends on the four arrays only through
    their entries 0 .. fftLength - 1, whatever [avgCount] is asked for. *)
Theorem calculateAveragedImpedance_reads_inside_bram :
  forall (lm : Libm) (s : Sensor) (v_re' v_im' i_re' i_im' : Z -> f32) (avgCount : Z),
    0 < fftLength s ->
    (forall k, Z.land (gate_status s k) 2147483647 + fftLength s <= 2 ^ 31) ->
    (forall a, 0 <= a < fftLength s ->
       v_re' a = v_re s a /\ v_im' a = v_im s a /\
       i_re' a = i_re s a /\ i_im' a = i_im s a) ->
    calculateAveragedImpedance lm (withBram s v_re' v_im' i_re' i_im') avgCount =
    calculateAveragedImpedance lm s avgCount.
Proof.
  intros lm s v_re' v_im' i_re' i_im' avgCount HL Hidx Hsame.
  unfold calculateAveragedImpedance.
  rewrite waitHold_withBram.
  cbn [withBram fftLength avgCount_ cal_].
  set (P := fun h : Z => 0 <= h /\ h + fftLength s <= 2 ^ 31).
  assert (HP : forall j, P (Z.land (gate_status s j) 2147483647)).
  { intros j. split; [apply Z.land_nonneg; lia|apply Hidx]. }
  assert (HP0 : P 0).
  { destruct (HP 0%nat) as [Hn0 Hn1]. unfold P. lia. }
  destruct (waitHold_index s P 100 0 false false 0 0 HP0 HP0 HP) as [Hhv Hhi].
  destruct (waitHold s 100 0 (false, false, 0, 0)) as [[[okv oki] hv] hi].
  cbn [fst snd] in Hhv, Hhi. destruct Hhv as [Hv0 Hv1], Hhi as [Hi0 Hi1].
  destruct (negb okv || negb oki); [reflexivity|].
  set (n0 := if avgCount =? -1 then avgCount_ s else avgCount).
  set (n1 := if n0 <=? 0 then 1 else n0).
  set (n := if n1 >? fftLength s then fftLength s else n1).
  assert (Hn : 1 <= n <= fftLength s).
  { unfold n, n1. destruct (Z.leb_spec n0 0).
    - destruct (1 >? fftLength s) eqn:E; [apply Z.gtb_lt in E|]; lia.
    - destruct (n0 >? fftLength s) eqn:E; [lia|].
      rewrite Z.gtb_ltb in E. apply Z.ltb_ge in E. lia. }
  rewrite accumulateLoop_withBram;
    [reflexivity|assumption|assumption| | |lia];
    apply start_addr_nonneg; assumption.
Qed.

Lemma calculateAveragedImpedance_reads_witness :
  0 < fftLength quietSensor /\
  (forall k, Z.land (gate_status quietSensor k) 2147483647 + fftLength quietSensor
             <= 2 ^ 31) /\
  calculateAveragedImpedance Probe2.flatLibm
    (withBram quietSensor Probe2.zeroInside Probe2.zeroInside
              Probe2.zeroInside Probe2.zeroInside) (-1) =
  calculateAveragedImpedance Probe2.flatLibm quietSensor (-1).
Proof.
  split; [cbn; lia|]. split; [intros k; cbn; lia|].
  apply (calculateAveragedImpedance_reads_inside_bram Probe2.flatLibm quietSensor).
  - cbn; lia.
  - intros k; cbn; lia.
  - intros a Ha. cbn [fftLength quietSensor] in Ha.
    unfold Probe2.zeroInside. cbn [v_re v_im i_re i_im quietSensor].
    destruct (Z.leb_spec 0 a); [|lia]. destruct (Z.ltb_spec a 1024); [|lia].
    cbn [andb]. repeat split.
Defined.

(** ** Magnitudes: getFftData and measureDcValue *)

(** Rounding keeps the sign it is given. *)
Lemma binary_round_aux_signPlus (m e : Z) (l : location) :
  signPlus (binary_round_aux F32.prec F32.emax false m e l) = true.
Proof.
  unfold binary_round_aux.
  destruct (shr_fexp F32.prec F32.emax m e l) as [mrs' e'].
  destruct (shr_fexp F32.prec F32.emax
              (round_nearest_even (shr_m mrs') (loc_of_shr_record mrs')) e' loc_Exact)
    as [mrs'' e''].
  destruct (shr_m mrs''); [reflexivity| |reflexivity].
  destruct (e'' <=? F32.emax - F32.prec); reflexivity.
Qed.

Lemma signPlus_notNegative (x : f32) : signPlus x = true -> notNegative x = true.
Proof. destruct x as [s|s| |s m e]; try reflexivity; destruct s; auto. Qed.

Lemma binary_round_aux_notNegative (m e : Z) (l : location) :
  notNegative (binary_round_aux F32.prec F32.emax false m e l) = true.
Proof. apply signPlus_notNegative, binary_round_aux_signPlus. Qed.

Lemma sqrtf_notNegative (x : f32) : notNegative (sqrtf x) = true.
Proof.
  unfold sqrtf, SFsqrt. destruct x as [s|s| |s m e]; try reflexivity.
  - destruct s; reflexivity.
  - destruct s; [reflexivity|].
    destruct (SFsqrt_core_binary F32.prec F32.emax (Z.pos m) e) as [[mz ez] lz].
    apply binary_round_aux_notNegative.
Qed.

Lemma of_int_signPlus (z : Z) : 0 < z -> signPlus (F32.of_int z) = true.
Proof.
  intros Hz. unfold F32.of_int, binary_normalize.
  destruct z as [|p|p]; try lia.
  unfold binary_round.
  destruct (shl_align p 0 _) as [mz ez].
  apply binary_round_aux_signPlus.
Qed.

Lemma one_is_positive : exists m e, flt 1.0 = S754_finite false m e.
Proof. eexists; eexists. vm_compute. reflexivity. Qed.

Lemma inverse_notNegative (x : f32) :
  signPlus x = true -> notNegative (flt 1.0 / x)%f32 = true.
Proof.
  intros Hx. destruct one_is_positive as (m1 & e1 & ->).
  unfold F32.div, SFdiv.
  destruct x as [s|s| |s m e]; try reflexivity;
    (destruct s; [discriminate|]); try reflexivity.
  cbn [xorb].
  destruct (SFdiv_core_binary F32.prec F32.emax (Z.pos m1) e1 (Z.pos m) e)
    as [[mz ez] lz].
  apply binary_round_aux_notNegative.
Qed.

Lemma mul_notNegative (a b : f32) :
  notNegative a = true -> notNegative b = true -> notNegative (a * b)%f32 = true.
Proof.
  intros Ha Hb. unfold F32.mul, SFmul.
  destruct a as [sa|sa| |sa ma ea], b as [sb|sb| |sb mb eb]; try reflexivity;
    repeat match goal with
           | s : bool |- _ => destruct s
           end; try discriminate; try reflexivity;
    cbn [xorb]; apply binary_round_aux_notNegative.
Qed.

Lemma scaledMagnitude_notNegative (L : Z) (r i : f32) :
  0 < L -> notNegative (scaledMagnitude L r i) = true.
Proof.
  intros HL. unfold scaledMagnitude.
  apply mul_notNegative; [apply sqrtf_notNegative|].
  apply inverse_notNegative, of_int_signPlus, HL.
Qed.

(** A magnitude that passes the test is a finite number. *)
Lemma usable_clean (mag : f32) :
  notNegative mag = true -> unusable mag = false -> clean mag.
Proof.
  intros Hn Hu. unfold unusable in Hu.
  apply orb_false_elim in Hu. destruct Hu as [He Hl].
  apply negb_false_iff in He. apply negb_false_iff in Hl.
  unfold clean. split; [|split; assumption].
  destruct mag as [s|s| |s m e]; try reflexivity.
  - destruct s; [discriminate|]. vm_compute in Hl. discriminate.
  - vm_compute in He. discriminate.
Qed.

Lemma zero_clean : clean (flt 0.0).
Proof. unfold clean. repeat split; vm_compute; reflexivity. Qed.

Lemma magnitudes_clean (L : Z) (re_vals im_vals : Z -> f32) (n : nat) (index : Z) :
  0 < L ->
  List.length (magnitudes L re_vals im_vals n index) = n /\
  Forall clean (magnitudes L re_vals im_vals n index).
Proof.
  intros HL. revert index. induction n as [|n IH]; intros index.
  - split; [reflexivity|apply Forall_nil].
  - cbn [magnitudes List.length]. destruct (IH (index + 1)) as [IH1 IH2].
    split; [rewrite IH1; reflexivity|].
    apply Forall_cons; [|exact IH2].
    destruct (unusable (scaledMagnitude L (re_vals index) (im_vals index))) eqn:E;
      [apply zero_clean|].
    apply usable_clean; [apply scaledMagnitude_notNegative, HL|exact E].
Qed.

(** X16.  The magnitudes [getFftData] and [getFftDataCurrent] put in the
    buffer are clean whatever the block RAM holds (NaN and infinities
    included): each of the [fftLength] entries is a finite number, not
    negative and below 1e38.  [measureDcValue] returns such a number or -1. *)
Theorem getFftData_buffer_is_clean :
  forall (s : Sensor) (gpio4 bram_re bram_im : Z) (re_vals im_vals : Z -> f32)
         (current0 current1 : Z),
    0 < fftLength s ->
    match fst (getFftData s gpio4 bram_re bram_im re_vals im_vals current0 current1) with
    | Some buffer =>
        bram_re <> 0 /\ bram_im <> 0 /\
        List.length buffer = Z.to_nat (fftLength s) /\ Forall clean buffer
    | None => bram_re = 0 \/ bram_im = 0
    end /\
    (fst (measureDcValue s bram_re bram_im re_vals im_vals) = flt (-1.0) \/
     clean (fst (measureDcValue s bram_re bram_im re_vals im_vals))).
Proof.
  intros s gpio4 bram_re bram_im re_vals im_vals current0 current1 HL.
  unfold getFftData, measureDcValue.
  destruct (Z.eqb_spec bram_re 0) as [Hr|Hr]; cbn [orb fst]; [auto|].
  destruct (Z.eqb_spec bram_im 0) as [Hi|Hi]; cbn [fst]; [auto|].
  destruct (magnitudes_clean (fftLength s) re_vals im_vals
              (Z.to_nat (fftLength s)) 0 HL) as [H1 H2].
  split; [auto|].
  destruct (unusable (scaledMagnitude (fftLength s) (re_vals 0) (im_vals 0))) eqn:E;
    [left; reflexivity|right].
  apply usable_clean; [apply scaledMagnitude_notNegative, HL|exact E].
Qed.

Lemma getFftData_witness :
  0 < fftLength quietSensor /\
  (fst (measureDcValue quietSensor 4096 8192 (fun _ => S754_nan) (fun _ => flt 0.0))
     = flt (-1.0) \/
   clean (fst (measureDcValue quietSensor 4096 8192 (fun _ => S754_nan) (fun _ => flt 0.0)))).
Proof.
  split; [cbn; lia|].
  apply (getFftData_buffer_is_clean quietSensor 0 4096 8192
           (fun _ => S754_nan) (fun _ => flt 0.0) 0 0).
  cbn; lia.
Defined.

(** ** Time samples: dumpTimeChannel *)

Lemma land_bit13 (r : Z) :
  0 <= r < 16384 -> Z.land r 8192 = if r <? 8192 then 0 else 8192.
Proof.
  intros Hr.
  assert (Hsplit : Z.land r 16383 = Z.lor (Z.land r 8192) (Z.land r 8191)).
  { rewrite <- Z.land_lor_distr_r. reflexivity. }
  assert (Hall : Z.land r 16383 = r).
  { change 16383 with (Z.ones 14). rewrite Z.land_ones by lia. apply Z.mod_small. lia. }
  assert (Hlow : Z.land r 8191 = r mod 8192).
  { change 8191 with (Z.ones 13). rewrite Z.land_ones by lia. reflexivity. }
  rewrite land_disjoint_add in Hsplit.
  - rewrite Hall, Hlow in Hsplit.
    assert (Hhi : Z.land r 8192 = 0 \/ Z.land r 8192 = 8192).
    { destruct (Z.testbit r 13) eqn:Hb.
      - right. apply Z.bits_inj'. intros k Hk. rewrite Z.land_spec.
        change 8192 with (2 ^ 13). rewrite Z.pow2_bits_eqb by lia.
        destruct (Z.eqb_spec 13 k) as [<-|Hne]; [rewrite Hb; reflexivity|apply andb_false_r].
      - left. apply Z.bits_inj'. intros k Hk. rewrite Z.land_spec, Z.bits_0.
        change 8192 with (2 ^ 13). rewrite Z.pow2_bits_eqb by lia.
        destruct (Z.eqb_spec 13 k) as [<-|Hne]; [rewrite Hb; reflexivity|apply andb_false_r]. }
    pose proof (Z.mod_pos_bound r 8192 ltac:(lia)) as Hm.
    destruct (Z.ltb_spec r 8192) as [Hlt|Hge].
    + rewrite Z.mod_small in Hsplit by lia. lia.
    + destruct Hhi as [Hhi|Hhi]; [|exact Hhi].
      rewrite Hhi in Hsplit. lia.
  - rewrite Z.land_assoc, (Z.land_comm (Z.land r 8192) r), Z.land_assoc,
      Z.land_diag, <- Z.land_assoc.
    change (Z.land 8192 8191) with 0. apply Z.land_0_r.
Qed.

(** The two's complement reading of the low 14 bits of a word. *)
Lemma raw14_spec (packed : Z) :
  -8192 <= raw14 packed <= 8191 /\ (raw14 packed) mod 16384 = packed mod 16384.
Proof.
  unfold raw14. change 16383 with (Z.ones 14). rewrite Z.land_ones by lia.
  change (2 ^ 14) with 16384. change (Z.shiftl 1 14) with 16384.
  pose proof (Z.mod_pos_bound packed 16384 ltac:(lia)) as Hr.
  rewrite land_bit13 by lia.
  destruct (Z.ltb_spec (packed mod 16384) 8192) as [Hlt|Hge]; cbn [Z.eqb negb].
  - split; [lia|]. apply Z.mod_mod. lia.
  - rewrite wrap32_id by (unfold in_int32, INT32_MIN, INT32_MAX; lia).
    split; [lia|].
    replace (packed mod 16384 - 16384) with (packed mod 16384 + (-1) * 16384) by lia.
    rewrite Z.mod_add by lia. apply Z.mod_mod. lia.
Qed.

Lemma timeSamples_nth (words : Z -> Z) (lo_mean : f32) (n : nat) (index : Z) (k : nat) :
  (k < n)%nat ->
  nth k (timeSamples words lo_mean n index) 0 =
  wrap32 (raw14 (words (index + Z.of_nat k)) - F32.to_int32 lo_mean).
Proof.
  revert index k. induction n as [|n IH]; intros index k Hk; [lia|].
  cbn [timeSamples]. destruct k as [|k].
  - cbn [nth]. rewrite Z.add_0_r. reflexivity.
  - cbn [nth]. rewrite IH by lia.
    replace (index + 1 + Z.of_nat k) with (index + Z.of_nat (S k)) by lia. reflexivity.
Qed.

Lemma timeSamples_length (words : Z -> Z) (lo_mean : f32) (n : nat) (index : Z) :
  List.length (timeSamples words lo_mean n index) = n.
Proof.
  revert index. induction n as [|n IH]; intros index; [reflexivity|].
  cbn [timeSamples List.length]. rewrite IH. reflexivity.
Qed.

(** X17.  The time samples of [dumpTimeChannel] are the low 14 bits of the
    block RAM words read as two's complement numbers: without DC removal
    entry [index] of the buffer lies in -8192 .. 8191 and is congruent to the
    word modulo 2^14, whatever the upper 18 bits of the word hold.  With DC
    removal one common integer is subtracted from every sample. *)
Theorem dumpTimeChannel_samples_are_signed_14_bit :
  forall (s : Sensor) (dcRemove : bool) (bram_base_re : Z) (words : Z -> Z),
    match dumpTimeChannel s dcRemove bram_base_re words with
    | None => bram_base_re = 0
    | Some timeBuffer =>
        bram_base_re <> 0 /\
        List.length timeBuffer = Z.to_nat (fftLength s) /\
        exists lo_mean : Z,
          (dcRemove = false -> lo_mean = 0) /\
          forall index : Z, 0 <= index < fftLength s ->
            nth (Z.to_nat index) timeBuffer 0 = wrap32 (raw14 (words index) - lo_mean) /\
            (dcRemove = false ->
             -8192 <= nth (Z.to_nat index) timeBuffer 0 <= 8191 /\
             (nth (Z.to_nat index) timeBuffer 0) mod 16384 = (words index) mod 16384)
    end.
Proof.
  intros s dcRemove bram_base_re words. unfold dumpTimeChannel.
  destruct (Z.eqb_spec bram_base_re 0) as [Hb|Hb]; [exact Hb|].
  split; [exact Hb|]. split; [apply timeSamples_length|].
  set (lo_mean := if dcRemove then _ else _).
  exists (F32.to_int32 lo_mean). split.
  - intros ->. unfold lo_mean. vm_compute. reflexivity.
  - intros index Hidx.
    rewrite timeSamples_nth by lia.
    rewrite Z.add_0_l, Z2Nat.id by lia.
    split; [reflexivity|].
    intros ->. unfold lo_mean.
    replace (F32.to_int32 (flt 0.0)) with 0 by (vm_compute; reflexivity).
    rewrite Z.sub_0_r.
    destruct (raw14_spec (words index)) as [Hr Hm].
    rewrite wrap32_id by (unfold in_int32, INT32_MIN, INT32_MAX; lia).
    split; assumption.
Qed.
(* ========================================================================= *)
(** * Further properties: what a pass of handleStreaming stores *)

Import Stores.

Lemma gpioStores_app (sampling : bool -> list Store) (tr1 tr2 : list Effect) :
  gpioStores sampling (tr1 ++ tr2) = gpioStores sampling tr1 ++ gpioStores sampling tr2.
Proof.
  induction tr1 as [|e tr1 IH]; [reflexivity|].
  destruct e; cbn [gpioStores app]; rewrite IH; try reflexivity.
  apply app_assoc.
Qed.

(** The averaged measurement stores the hold of the gate and its release,
    on every path. *)
Lemma calculateAveragedImpedance_trace (lm : Libm) (s : Sensor) (avgCount : Z) :
  snd (calculateAveragedImpedance lm s avgCount) = setFftHold s true ++ setFftHold s false.
Proof.
  unfold calculateAveragedImpedance. cbv zeta.
  destruct (waitHold s 100 0 (false, false, 0, 0)) as [[[okv oki] hv] hi].
  destruct (negb okv || negb oki); reflexivity.
Qed.

Lemma samplingStores_gate (lm : Libm) (s : Sensor) :
  Forall (gateStore s) (samplingStores lm s).
Proof.
  unfold samplingStores. rewrite calculateAveragedImpedance_trace.
  unfold setFftHold. destruct (gate_gpio_base_ s =? 0); cbn [app gpioStores];
    [apply Forall_nil|].
  repeat apply Forall_cons; try apply Forall_nil; unfold gateStore; auto.
Qed.

Lemma Forall_or_l {A : Type} (P Q : A -> Prop) (l : list A) :
  Forall P l -> Forall (fun x => P x \/ Q x) l.
Proof. intros H. eapply Forall_impl; [|exact H]. intros x Hx. left. exact Hx. Qed.

Lemma Forall_or_r {A : Type} (P Q : A -> Prop) (l : list A) :
  Forall Q l -> Forall (fun x => P x \/ Q x) l.
Proof. intros H. eapply Forall_impl; [|exact H]. intros x Hx. right. exact Hx. Qed.

(** [RunMotor] stores nothing or one target position, inside the window. *)
Lemma RunMotor_stores (sampling : bool -> list Store) (m : MotorController) (target : Z)
      (printStatus : bool) (afterDelayMs : Z) :
  lowerLimit m <= upperLimit m ->
  Forall (targetInWindow m)
         (gpioStores sampling (snd (RunMotor m target printStatus afterDelayMs))).
Proof.
  intros Hw. unfold RunMotor.
  destruct (negb (gpioInitialized m) || (gpioOutBase m =? 0)); [apply Forall_nil|].
  assert (Hone : forall c pre post,
             lowerLimit m <= c <= upperLimit m ->
             gpioStores sampling pre = [] -> gpioStores sampling post = [] ->
             Forall (targetInWindow m)
                    (gpioStores sampling
                       (pre ++ [GpioStore (gpioOutBase m) 0 (to_u32 c)] ++ post))).
  { intros c pre post Hc Hpre Hpost.
    rewrite !gpioStores_app, Hpre, Hpost. cbn [gpioStores app].
    apply Forall_cons; [|apply Forall_nil].
    unfold targetInWindow. repeat split. exists c. split; [exact Hc|reflexivity]. }
  destruct (Z.ltb_spec target (lowerLimit m)) as [Hlt|Hge].
  - cbn [snd]. rewrite app_assoc. apply Hone; [lia| |];
      destruct printStatus; reflexivity.
  - destruct (target >? upperLimit m) eqn:Hgt.
    + cbn [snd]. rewrite app_assoc. apply Hone; [lia| |];
        destruct printStatus; reflexivity.
    + rewrite Z.gtb_ltb in Hgt. apply Z.ltb_ge in Hgt.
      cbn [snd]. rewrite app_assoc. apply Hone; [lia| |];
        destruct printStatus; reflexivity.
Qed.

(** Splits a goal about the stores of a trace along the parts of the trace;
    what is left are the stores of the samplings and of the motor moves. *)
Ltac split_stores :=
  repeat first
    [ rewrite gpioStores_app
    | apply Forall_app; split
    | match goal with
      | |- Forall _ (gpioStores _ (if ?c then _ else _)) => destruct c
      | |- Forall _ (gpioStores _ (match ?c with Some _ => _ | None => _ end)) => destruct c
      end
    | progress cbn [gpioStores app sendImpedanceOf]
    | apply Forall_nil ].

(** The stream blocks store what their samplings store. *)
Lemma streamBlocks_stores (sampling : bool -> list Store) (G : Store -> Prop)
      (d : State) (env : TickEnv) (currentTime : Z) :
  (forall isInput, Forall G (sampling isInput)) ->
  Forall G (gpioStores sampling (snd (streamBlocks d env currentTime))).
Proof.
  intros HG. unfold streamBlocks. cbv zeta. cbn [snd].
  split_stores; apply HG.
Qed.

Lemma amsMatchStep_stores (sampling : bool -> list Store) (b : Board) (env : TickEnv)
      (Rm Xm Rpm Xpm vswr : float) (shouldLog : bool) :
  lowerLimit (M1 b) <= upperLimit (M1 b) ->
  lowerLimit (M2 b) <= upperLimit (M2 b) ->
  Forall (inWindowOf b)
         (gpioStores sampling (snd (amsMatchStep b env Rm Xm Rpm Xpm vswr shouldLog))).
Proof.
  intros H1 H2. unfold amsMatchStep. cbv zeta.
  set (goals := MatchingAlgorithm.calculateMatchingGoals _ _ _ _ _ _ _ _ _ _).
  assert (Hrun : forall t0 t1 post,
             gpioStores sampling post = [] ->
             Forall (inWindowOf b)
                    (gpioStores sampling (snd (RunMotor (M1 b) t0 true 0) ++
                                          snd (RunMotor (M2 b) t1 true 0) ++ post))).
  { intros t0 t1 post Hpost. rewrite !gpioStores_app, Hpost, app_nil_r.
    apply Forall_app. split.
    - apply Forall_or_l, RunMotor_stores, H1.
    - apply Forall_or_r, RunMotor_stores, H2. }
  destruct (goalInBand (valid0 goals) _ _ b);
    [|destruct (goalInBand (valid1 goals) _ _ b)];
    cbn [snd]; rewrite gpioStores_app;
    (replace (gpioStores sampling (if shouldLog then _ else [])) with (@nil Store)
      by (destruct shouldLog; reflexivity));
    cbn [app].
  - change (0 >=? 0) with true. cbv iota. apply Hrun. destruct shouldLog; reflexivity.
  - change (1 >=? 0) with true. cbv iota. apply Hrun. destruct shouldLog; reflexivity.
  - change (-1 >=? 0) with false. cbv iota. destruct shouldLog; apply Forall_nil.
Qed.

Lemma amsBlock_stores (sampling : bool -> list Store) (G : Store -> Prop)
      (d : State) (env : TickEnv) (currentTime : Z) (b : Board) :
  (forall isInput, Forall G (sampling isInput)) ->
  mBoard_ d = Some b ->
  lowerLimit (M1 b) <= upperLimit (M1 b) ->
  lowerLimit (M2 b) <= upperLimit (M2 b) ->
  Forall (fun st => G st \/ inWindowOf b st)
         (gpioStores sampling (snd (amsBlock d env currentTime))) /\
  (amsEnabled_ (ams d) = false \/ amsMatching_ (ams d) = false ->
   Forall G (gpioStores sampling (snd (amsBlock d env currentTime)))).
Proof.
  intros HG Hb H1 H2. unfold amsBlock. rewrite Hb. cbv zeta.
  destruct (amsEnabled_ (ams d)) eqn:Hen; cbn [andb negb];
    [|split; [apply Forall_nil|intros _; apply Forall_nil]].
  destruct (iSensor_ d && oSensor_ d); cbn [negb];
    [|split; [apply Forall_nil|intros _; apply Forall_nil]].
  destruct ((amsTimeout_ (ams d) >? 0) && _).
  { cbn [snd]. split; [|intros _]; split_stores. }
  destruct (negb _).
  { cbn [snd]. split; [|intros _]; split_stores. }
  set (shouldLog := amsVerbose_ (ams d) && _).
  set (vswr := calculateVSWR _ _).
  destruct (amsMatching_ (ams d)) eqn:Hma.
  - destruct (vswr <=? _)%float.
    + cbn [snd]. split; [|intros [Hc|Hc]; discriminate].
      split_stores; apply Forall_or_l, HG.
    + cbn [snd]. split; [|intros [Hc|Hc]; discriminate].
      rewrite !gpioStores_app.
      apply Forall_app; split; [split_stores|].
      apply Forall_app; split;
        [split_stores; apply Forall_or_l, HG
        |apply Forall_or_r, amsMatchStep_stores; assumption].
  - destruct (vswr >=? _)%float.
    + cbn [snd]. split; [|intros _]; split_stores;
        first [apply Forall_or_l, HG | apply HG].
    + cbn [snd]. split; [|intros _]; split_stores;
        first [apply Forall_or_l, HG | apply HG].
Qed.

(** X18.  A pass of [handleStreaming] commands the motors only inside their
    soft windows.  With the limits of each motor in order, every store of
    the pass is either the hold or the release of the gate of a sensor that
    an averaged measurement of the pass makes, or it writes the
    target-position word of motor 1 or motor 2 with a position between the
    lower and the upper limit of that motor, whatever the sensors report and
    whatever the matching algorithm computes.  With the AMS disabled or in
    monitoring mode the only stores of the pass are those of its
    measurements, streams running or not. *)
Theorem handleStreaming_commands_stay_in_window :
  forall (lm : Libm) (iSensor oSensor : Sensor) (d : State) (env : TickEnv) (b : Board),
    mBoard_ d = Some b ->
    lowerLimit (M1 b) <= upperLimit (M1 b) ->
    lowerLimit (M2 b) <= upperLimit (M2 b) ->
    let stores := passStores lm iSensor oSensor (snd (handleStreaming d env)) in
    Forall (fun st => (gateStore iSensor st \/ gateStore oSensor st) \/ inWindowOf b st)
           stores /\
    (amsEnabled_ (ams d) = false \/ amsMatching_ (ams d) = false ->
     Forall (fun st => gateStore iSensor st \/ gateStore oSensor st) stores).
Proof.
  intros lm iSensor oSensor d env b Hb H1 H2 stores. subst stores.
  unfold passStores.
  set (sampling := fun isInput : bool =>
                     samplingStores lm (if isInput then iSensor else oSensor)).
  set (G := fun st : Store => gateStore iSensor st \/ gateStore oSensor st).
  assert (HG : forall isInput, Forall G (sampling isInput)).
  { intros [|]; unfold sampling, G;
      [apply Forall_or_l|apply Forall_or_r]; apply samplingStores_gate. }
  unfold handleStreaming. cbv zeta.
  set (t := to_u32 (to_u32 (loopCounter_ d + 1) * 10)).
  pose proof (streamBlocks_stores sampling G d env t HG) as Hs.
  destruct (amsBlock_stores sampling G d env t b HG Hb H1 H2) as [Ha Hoff].
  destruct (streamBlocks d env t) as [streams' tr1].
  destruct (amsBlock d env t) as [ams' tr2].
  cbn [snd] in *. rewrite gpioStores_app. split.
  - apply Forall_app. split; [apply Forall_or_l, Hs|exact Ha].
  - intros Hmode. apply Forall_app. split; [exact Hs|exact (Hoff Hmode)].
Qed.

Lemma handleStreaming_witness :
  mBoard_ Probe2.startedMid = Some Probe2.midBoard /\
  lowerLimit (M1 Probe2.midBoard) <= upperLimit (M1 Probe2.midBoard) /\
  lowerLimit (M2 Probe2.midBoard) <= upperLimit (M2 Probe2.midBoard) /\
  passStores Probe2.flatLibm quietSensor quietSensor
             (snd (handleStreaming Probe2.startedMid Probe2.mismatchedEnv)) =
    [(20480, 0, 1); (20480, 0, 0); (20480, 0, 1); (20480, 0, 0);
     (4096, 0, 13905); (12288, 0, 4000)] /\
  Forall (fun st => (gateStore quietSensor st \/ gateStore quietSensor st) \/
                    inWindowOf Probe2.midBoard st)
         (passStores Probe2.flatLibm quietSensor quietSensor
                     (snd (handleStreaming Probe2.startedMid Probe2.mismatchedEnv))).
Proof.
  assert (Hb : mBoard_ Probe2.startedMid = Some Probe2.midBoard) by reflexivity.
  assert (H1 : lowerLimit (M1 Probe2.midBoard) <= upperLimit (M1 Probe2.midBoard))
    by (cbn; lia).
  assert (H2 : lowerLimit (M2 Probe2.midBoard) <= upperLimit (M2 Probe2.midBoard))
    by (cbn; lia).
  split; [exact Hb|]. split; [exact H1|]. split; [exact H2|].
  split; [vm_compute; reflexivity|].
  exact (proj1 (handleStreaming_commands_stay_in_window Probe2.flatLibm quietSensor
                  quietSensor Probe2.startedMid Probe2.mismatchedEnv Probe2.midBoard
                  Hb H1 H2)).
Defined.
(* ========================================================================= *)
(** * Further properties: AutoMatchingMode *)

Lemma reports_app (tr1 tr2 : list Effect) :
  AutoMatchingMode.reports (tr1 ++ tr2) =
  AutoMatchingMode.reports tr1 + AutoMatchingMode.reports tr2.
Proof.
  induction tr1 as [|e tr1 IH]; [reflexivity|].
  destruct e; cbn [AutoMatchingMode.reports app]; rewrite IH; lia.
Qed.

(** A multiple of 100 reaches the rate when its factor reaches the period. *)
Lemma reportPeriod_due (rate k : Z) :
  0 <= rate -> (rate <= 100 * k <-> AutoMatchingMode.reportPeriod rate <= k).
Proof.
  intros Hr. unfold AutoMatchingMode.reportPeriod.
  pose proof (Z.div_mod (rate + 99) 100 ltac:(lia)) as Hd.
  pose proof (Z.mod_pos_bound (rate + 99) 100 ltac:(lia)) as Hm.
  split; intros H; lia.
Qed.

(** One pass, [p] passes after the constructor. *)
Lemma AutoMatchStart_step (sampling : bool -> list Store) (G : Store -> Prop)
      (a : AutoMatchingMode.State) (b : Board)
      (result : AveragedImpedanceResults) (p : Z) :
  let period := AutoMatchingMode.reportPeriod (AutoMatchingMode.motorPosReportRate_ a) in
  (forall isInput, Forall G (sampling isInput)) ->
  AutoMatchingMode.mBoard_ a = Some b ->
  10 <= AutoMatchingMode.motorPosReportRate_ a <= 5000 ->
  0 <= p -> (p + 1) * 100 < 2 ^ 32 ->
  AutoMatchingMode.loopCounter_ a = p ->
  AutoMatchingMode.lastMotorPosReportTime_ a = 100 * (period * (p / period)) ->
  let a' := fst (AutoMatchingMode.AutoMatchStart a result) in
  AutoMatchingMode.mBoard_ a' = Some b /\
  AutoMatchingMode.motorPosReportRate_ a' = AutoMatchingMode.motorPosReportRate_ a /\
  AutoMatchingMode.loopCounter_ a' = p + 1 /\
  AutoMatchingMode.lastMotorPosReportTime_ a' = 100 * (period * ((p + 1) / period)) /\
  AutoMatchingMode.reports (snd (AutoMatchingMode.AutoMatchStart a result)) =
    (p + 1) / period - p / period /\
  Forall G (gpioStores sampling (snd (AutoMatchingMode.AutoMatchStart a result))).
Proof.
  intros period HG Hb Hrate Hp Hmax Hloop Hlast a'.
  assert (Hper : 1 <= period).
  { unfold period, AutoMatchingMode.reportPeriod.
    apply Z.div_le_lower_bound; lia. }
  pose proof (Z.div_mod p period ltac:(lia)) as Hd.
  pose proof (Z.mod_pos_bound p period ltac:(lia)) as Hm.
  set (q := p / period) in *. set (m := p mod period) in *.
  assert (Hq : 0 <= q) by (apply Z.div_pos; lia).
  unfold a', AutoMatchingMode.AutoMatchStart. cbv zeta. rewrite Hb, Hloop, Hlast.
  assert (E1 : to_u32 (p + 1) = p + 1) by (unfold to_u32; apply Z.mod_small; lia).
  rewrite E1.
  assert (E2 : to_u32 ((p + 1) * 100) = (p + 1) * 100)
    by (unfold to_u32; apply Z.mod_small; lia).
  rewrite E2.
  assert (E3 : to_u32 ((p + 1) * 100 - 100 * (period * q)) = 100 * (m + 1)).
  { unfold to_u32. rewrite Z.mod_small; nia. }
  rewrite E3.
  assert (E4 : to_u32 (AutoMatchingMode.motorPosReportRate_ a)
               = AutoMatchingMode.motorPosReportRate_ a)
    by (unfold to_u32; apply Z.mod_small; lia).
  rewrite E4.
  pose proof (reportPeriod_due (AutoMatchingMode.motorPosReportRate_ a) (m + 1)
                ltac:(lia)) as Hdue.
  fold period in Hdue.
  cbn [fst snd AutoMatchingMode.mBoard_ AutoMatchingMode.motorPosReportRate_
       AutoMatchingMode.loopCounter_ AutoMatchingMode.lastMotorPosReportTime_].
  rewrite reports_app, gpioStores_app.
  replace (AutoMatchingMode.reports (if AutoMatchingMode.sensor_ a then _ else []))
    with 0 by (destruct (AutoMatchingMode.sensor_ a); reflexivity).
  assert (Hsens : Forall G (gpioStores sampling
                              (if AutoMatchingMode.sensor_ a
                               then [Sample true;
                                     SendImpedance (resistanceR result) (reactanceX result)
                                       (voltageMagnitude result) (currentMagnitude result)
                                       (impedancePhaseDeg result) true]
                               else []))).
  { destruct (AutoMatchingMode.sensor_ a); cbn [gpioStores]; [|apply Forall_nil].
    rewrite app_nil_r. apply HG. }
  rewrite Z.geb_leb.
  destruct (Z.leb_spec (AutoMatchingMode.motorPosReportRate_ a) (100 * (m + 1)))
    as [Hyes|Hno].
  - assert (Hm1 : m + 1 = period) by lia.
    assert (Hnext : (p + 1) / period = q + 1).
    { symmetry. apply (Z.div_unique (p + 1) period (q + 1) 0); lia. }
    rewrite Hnext. cbn [AutoMatchingMode.reports gpioStores app].
    rewrite app_nil_r. repeat split; try lia. exact Hsens.
  - assert (Hm1 : m + 1 < period) by lia.
    assert (Hnext : (p + 1) / period = q).
    { symmetry. apply (Z.div_unique (p + 1) period q (m + 1)); lia. }
    rewrite Hnext. cbn [AutoMatchingMode.reports gpioStores app].
    rewrite app_nil_r. repeat split; try lia. exact Hsens.
Qed.

Lemma runPasses_reports (sampling : bool -> list Store) (G : Store -> Prop)
      (n : nat) (results : nat -> AveragedImpedanceResults) (k : nat)
      (a : AutoMatchingMode.State) (b : Board) (p : Z) :
  let period := AutoMatchingMode.reportPeriod (AutoMatchingMode.motorPosReportRate_ a) in
  (forall isInput, Forall G (sampling isInput)) ->
  AutoMatchingMode.mBoard_ a = Some b ->
  10 <= AutoMatchingMode.motorPosReportRate_ a <= 5000 ->
  0 <= p -> (p + Z.of_nat n) * 100 < 2 ^ 32 ->
  AutoMatchingMode.loopCounter_ a = p ->
  AutoMatchingMode.lastMotorPosReportTime_ a = 100 * (period * (p / period)) ->
  AutoMatchingMode.reports (snd (AutoMatchingMode.runPasses n results k a)) =
    (p + Z.of_nat n) / period - p / period /\
  Forall G (gpioStores sampling (snd (AutoMatchingMode.runPasses n results k a))).
Proof.
  revert k a p. induction n as [|n IH]; intros k a p period HG Hb Hrate Hp Hmax Hloop Hlast.
  - cbn [AutoMatchingMode.runPasses snd AutoMatchingMode.reports gpioStores].
    rewrite Z.add_0_r. split; [lia|apply Forall_nil].
  - cbn [AutoMatchingMode.runPasses].
    destruct (AutoMatchStart_step sampling G a b (results k) p HG Hb Hrate Hp ltac:(lia)
                Hloop Hlast)
      as (Hb' & Hrate' & Hloop' & Hlast' & Hrep & Hst).
    fold period in Hlast', Hrep.
    destruct (AutoMatchingMode.AutoMatchStart a (results k)) as [a1 tr1].
    cbn [fst snd] in *.
    assert (Hrate1 : 10 <= AutoMatchingMode.motorPosReportRate_ a1 <= 5000)
      by (rewrite Hrate'; exact Hrate).
    assert (Hlast1 : AutoMatchingMode.lastMotorPosReportTime_ a1 =
              100 * (AutoMatchingMode.reportPeriod (AutoMatchingMode.motorPosReportRate_ a1)
                     * ((p + 1) / AutoMatchingMode.reportPeriod
                                    (AutoMatchingMode.motorPosReportRate_ a1))))
      by (rewrite Hrate'; exact Hlast').
    destruct (IH (S k) a1 (p + 1) HG Hb' Hrate1 ltac:(lia) ltac:(lia) Hloop' Hlast1)
      as [IHrep IHst].
    rewrite Hrate' in IHrep. fold period in IHrep.
    destruct (AutoMatchingMode.runPasses n results (S k) a1) as [a2 tr2].
    cbn [snd] in *. rewrite reports_app, gpioStores_app, Hrep, IHrep.
    split; [|apply Forall_app; split; assumption].
    replace (p + 1 + Z.of_nat n) with (p + Z.of_nat (S n)) by lia. lia.
Qed.


(* ========================================================================= *)
(** * Further properties: datasets of WebTerminal *)

Lemma skipn_cons_nth (data : list Z) (i : nat) :
  (i < List.length data)%nat ->
  skipn i data = nth i data 0 :: skipn (S i) data.
Proof.
  revert i. induction data as [|v data IH]; intros i Hi; [cbn in Hi; lia|].
  destruct i as [|i]; [reflexivity|].
  cbn [skipn nth]. apply IH. cbn in Hi. lia.
Qed.

Lemma skipn_nil_iff (data : list Z) (i : nat) :
  (i <= List.length data)%nat -> (skipn i data = [] <-> i = List.length data).
Proof.
  intros Hi. split.
  - intros H. pose proof (length_skipn i data) as Hl. rewrite H in Hl. cbn in Hl. lia.
  - intros ->. apply skipn_all.
Qed.

Lemma printChunk_skipn (data : list Z) (n : nat) (i : Z) :
  let L := Z.of_nat (List.length data) in
  0 <= i -> i + Z.of_nat n <= L -> L < 2 ^ 32 ->
  WebTerminal.commaJoin (skipn (Z.to_nat i) data) =
  WebTerminal.printChunk data L n i
    ++ WebTerminal.commaJoin (skipn (Z.to_nat (i + Z.of_nat n)) data).
Proof.
  intros L. revert i. induction n as [|n IH]; intros i Hi Hn HL.
  - cbn [WebTerminal.printChunk app]. rewrite Z.add_0_r. reflexivity.
  - cbn [WebTerminal.printChunk].
    rewrite (skipn_cons_nth data (Z.to_nat i)) by lia.
    cbn [WebTerminal.commaJoin app]. f_equal.
    replace (S (Z.to_nat i)) with (Z.to_nat (i + 1)) by lia.
    replace (i + Z.of_nat (S n)) with (i + 1 + Z.of_nat n) by lia.
    rewrite <- app_assoc, <- IH by lia.
    assert (Eu : to_u32 (L - 1) = L - 1) by (unfold to_u32; apply Z.mod_small; lia).
    rewrite Eu.
    destruct (skipn (Z.to_nat (i + 1)) data) as [|w rest] eqn:Es.
    + apply skipn_nil_iff in Es; [|lia].
      replace (i =? L - 1) with true by (symmetry; apply Z.eqb_eq; lia).
      reflexivity.
    + assert (Hne : Z.to_nat (i + 1) <> List.length data).
      { intros Hc. apply (skipn_nil_iff data (Z.to_nat (i + 1))) in Hc; [|lia].
        congruence. }
      replace (i =? L - 1) with false by (symmetry; apply Z.eqb_neq; lia).
      reflexivity.
Qed.

Lemma printChunks_skipn (data : list Z) (fuel : nat) (idx : Z) :
  let L := Z.of_nat (List.length data) in
  0 <= idx <= L -> L + 64 <= 2 ^ 32 -> L - idx <= 64 * Z.of_nat fuel ->
  WebTerminal.printChunks data L fuel idx = WebTerminal.commaJoin (skipn (Z.to_nat idx) data).
Proof.
  intros L. revert idx. induction fuel as [|fuel IH]; intros idx Hidx HL Hfuel.
  - cbn [WebTerminal.printChunks].
    replace (Z.to_nat idx) with (List.length data) by lia.
    rewrite skipn_all. reflexivity.
  - cbn [WebTerminal.printChunks]. cbv zeta.
    destruct (Z.ltb_spec idx L) as [Hlt|Hge].
    + assert (Eu : to_u32 (idx + 64) = idx + 64) by (unfold to_u32; apply Z.mod_small; lia).
      rewrite Eu.
      set (end_ := if idx + 64 >? L then L else idx + 64).
      assert (Hend : idx < end_ <= L /\ end_ <= idx + 64 /\ L - end_ <= 64 * Z.of_nat fuel).
      { unfold end_. destruct (idx + 64 >? L) eqn:E.
        - apply Z.gtb_lt in E. lia.
        - rewrite Z.gtb_ltb in E. apply Z.ltb_ge in E. lia. }
      rewrite IH by lia.
      rewrite (printChunk_skipn data (Z.to_nat (end_ - idx)) idx) by lia.
      replace (idx + Z.of_nat (Z.to_nat (end_ - idx))) with end_ by lia.
      reflexivity.
    + replace (Z.to_nat idx) with (List.length data) by lia.
      rewrite skipn_all. reflexivity.
Qed.

(** X20.  The chunks of [printCommaSeparated] do not show in its output:
    for a dataset of any length up to 2^32 - 64 it prints the values in
    order with one comma between two of them, none after the last and
    nothing for an empty dataset, and the loop is done after one pass for
    every 64 values.  [printDataset] puts this between its two markers and
    counts the plot. *)
Theorem printCommaSeparated_joins_with_commas :
  forall (data : list Z) (fuel : nat) (g_plotCounter : Z) (caption : string),
    let len := Z.of_nat (List.length data) in
    len + 64 <= 2 ^ 32 -> len <= 64 * Z.of_nat fuel ->
    WebTerminal.printCommaSeparated data len fuel = WebTerminal.commaJoin data /\
    WebTerminal.printDataset g_plotCounter caption data len fuel =
      (to_u32 (g_plotCounter + 1),
       [Printf "[Plot_%04lu: %s]" [AInt g_plotCounter; AStr caption];
        Printf "DataStart," []] ++ WebTerminal.commaJoin data ++ [Printf ",DataEnd" []]).
Proof.
  intros data fuel g_plotCounter caption len HL Hfuel.
  assert (H : WebTerminal.printCommaSeparated data len fuel = WebTerminal.commaJoin data).
  { unfold WebTerminal.printCommaSeparated, len in *.
    rewrite (printChunks_skipn data fuel 0) by lia.
    reflexivity. }
  split; [exact H|]. unfold WebTerminal.printDataset. rewrite H. reflexivity.
Qed.

Lemma printCommaSeparated_witness :
  Z.of_nat (List.length [5; -7; 0]) + 64 <= 2 ^ 32 /\
  Z.of_nat (List.length [5; -7; 0]) <= 64 * Z.of_nat 1 /\
  WebTerminal.printCommaSeparated [5; -7; 0] 3 1 =
    [Printf "%d" [AInt 5]; Printf "," []; Printf "%d" [AInt (-7)]; Printf "," [];
     Printf "%d" [AInt 0]].
Proof.
  split; [cbn; lia|]. split; [cbn; lia|].
  apply (printCommaSeparated_joins_with_commas [5; -7; 0] 1 0 ""%string);
    cbn; lia.
Defined.

(** ** The pacing of the AMS *)

Import AmsPacing.

Ltac order_facts :=
  repeat match goal with
         | H : (_ >? _) = true |- _ => apply Z.gtb_lt in H
         | H : (_ >? _) = false |- _ => rewrite Z.gtb_ltb in H; apply Z.ltb_ge in H
         | H : (_ >=? _) = true |- _ => rewrite Z.geb_leb in H; apply Z.leb_le in H
         | H : (_ >=? _) = false |- _ => rewrite Z.geb_leb in H; apply Z.leb_gt in H
         | H : (_ <? _) = true |- _ => apply Z.ltb_lt in H
         | H : (_ <? _) = false |- _ => apply Z.ltb_ge in H
         | H : negb _ && _ = false |- _ => apply andb_false_elim in H; destruct H as [H|H]
         | H : negb _ && _ = true |- _ => apply andb_prop in H; destruct H as [? ?]
         | H : negb _ = false |- _ => apply negb_false_iff in H
         | H : negb _ = true |- _ => apply negb_true_iff in H
         | H : (_ =? _) = true |- _ => apply Z.eqb_eq in H
         | H : (_ =? _) = false |- _ => apply Z.eqb_neq in H
         end.

Lemma amsCommand_pacing (d : State) (args : AmsArgs) :
  pacingInvariant d -> pacingInvariant (fst (amsCommand d args)).
Proof.
  unfold pacingInvariant. intros (Hi & Hl & Ht & Hc).
  destruct (amsCommand d args) as [d' tr] eqn:E.
  unfold amsCommand in E. cbv zeta in E. head_cases E; injection E as <- _;
    cbn [fst ams amsInterval_ amsLogInterval_ amsTimeout_ amsLogCounter_];
    try (repeat split; solve [auto | lia]);
    repeat match goal with
           | |- context [if ?c then _ else _] => destruct c eqn:?
           end;
    order_facts; repeat split; try lia.
Qed.

Lemma amsBlock_pacing (d : State) (env : TickEnv) (currentTime : Z) :
  amsVerbose_ (ams d) = true ->
  1 <= amsLogInterval_ (ams d) <= 1000 ->
  0 <= amsLogCounter_ (ams d) < amsLogInterval_ (ams d) ->
  let a' := fst (amsBlock d env currentTime) in
  amsInterval_ a' = amsInterval_ (ams d) /\
  amsLogInterval_ a' = amsLogInterval_ (ams d) /\
  amsTimeout_ a' = amsTimeout_ (ams d) /\
  0 <= amsLogCounter_ a' < amsLogInterval_ (ams d).
Proof.
  intros Hv Hl Hc. cbv zeta.
  assert (Hw : wrap32 (amsLogCounter_ (ams d) + 1) = amsLogCounter_ (ams d) + 1)
    by (apply wrap32_id; unfold in_int32, INT32_MIN, INT32_MAX; lia).
  destruct (amsBlock d env currentTime) as [a' tr] eqn:E.
  unfold amsBlock in E. cbv zeta in E. rewrite Hv, Hw in E. cbn [andb] in E.
  head_cases E; injection E as <- _;
    cbn [fst amsInterval_ amsLogInterval_ amsTimeout_ amsLogCounter_];
    repeat split; try lia;
    repeat match goal with
           | |- context [if ?c then _ else _] => destruct c eqn:?
           end;
    order_facts; lia.
Qed.

(** X21.  In every state of the shell loop the pacing of the AMS is within
    the bounds its command sets, whatever numbers the command was given:
    the interval and the log interval are 1..1000, the timeout is 0 (none)
    or 100..60000 ms, and the log counter stays below the log interval, so
    it never overflows and a log line comes with every [amsLogInterval_]-th
    measurement. *)
Theorem ams_pacing_stays_in_bounds :
  forall d : State, reachable d -> pacingInvariant d.
Proof.
  intros d Hr.
  induction Hr as [i o b|d env Hr IH|d args Hr IH|d st b Hr IH Hb].
  - unfold pacingInvariant. cbn. lia.
  - destruct IH as (Hi & Hl & Ht & Hc).
    destruct (reachable_amsInvariant d Hr) as (_ & _ & Hv & _).
    destruct (handleStreaming_fields d env) as (_ & _ & _ & Ha). cbv zeta in Ha.
    destruct (amsBlock_pacing d env (to_u32 (to_u32 (loopCounter_ d + 1) * 10)) Hv Hl Hc)
      as (Fi & Fl & Ft & Fc). cbv zeta in *.
    unfold pacingInvariant. rewrite Ha, Fi, Fl, Ft. auto.
  - apply amsCommand_pacing, IH.
  - exact IH.
Qed.

Lemma ams_pacing_witness :
  reachable (afterStart 5000 3) /\ pacingInvariant (afterStart 5000 3).
Proof.
  split; [apply reachable_afterStart|].
  apply ams_pacing_stays_in_bounds, reachable_afterStart.
Defined.
